(** * Turkish e-pin sites scraper: orchestration, extraction and delivery

    A shallow embedding of the TypeScript sources
    (utils/helpers.ts, scrapers/hybrid-scraper-factory.ts,
    scrapers/puppeteer-scraper.ts, scrapers/flaresolverr-scraper.ts,
    http-orchestrator.ts, utils/n8n-client.ts, and the handler of
    POST /scrape/sync in server.ts) and the properties of the
    specification that can be settled on it, followed by further
    properties of the same code.

    Conventions of the embedding:
    - a JavaScript string is the list of its UTF-16 code units;
    - a thrown value is either an [Error] object with its message or
      some other value; fallible operations return [result];
    - a JavaScript number that comes out of [parseFloat] on a decimal
      numeral is represented by the exact rational the numeral denotes
      (the run-time value is the nearest binary64 number), [NaN] apart;
      the comparisons with 0 and 1000000 are made on the exact value,
      which is what the run-time comparisons give for every numeral that
      is not rounded onto one of these two bounds;
    - the browser, the bypass service, the webhook and the progress
      callback are oracles: records that say what each external call
      answers. *)

From Stdlib Require Import String Ascii.
From Stdlib Require Import List NArith ZArith QArith Bool Lia Arith DecimalString.
Import ListNotations.

Close Scope Q_scope.
Open Scope N_scope.

(* ================================================================== *)
(** * JavaScript strings, numbers and regular expressions            *)
(* ================================================================== *)

Module JS.

Definition char16 := N.
Definition jsstring := list char16.

(** ASCII literal to code units. *)
Fixpoint str (s : string) : jsstring :=
  match s with
  | EmptyString => []
  | String a t => N_of_ascii a :: str t
  end.

Definition c_space : char16 := 32%N.
Definition c_dollar : char16 := 36%N.
Definition c_comma : char16 := 44%N.
Definition c_minus : char16 := 45%N.
Definition c_dot : char16 := 46%N.
Definition c_underscore : char16 := 95%N.
Definition c_euro : char16 := 8364%N.   (* U+20AC *)
Definition c_lira : char16 := 8378%N.   (* U+20BA *)
Definition c_dquote : char16 := 34%N.

Definition in_range (lo hi c : char16) : bool := ((lo <=? c) && (c <=? hi))%N.

(** [\d] *)
Definition is_digit (c : char16) : bool := in_range 48 57 c.

(** [\w] *)
Definition is_word (c : char16) : bool :=
  is_digit c || in_range 65 90 c || in_range 97 122 c || (c =? c_underscore)%N.

(** [\s], which is also what [trim] removes: WhiteSpace and
    LineTerminator of ECMAScript. *)
Definition is_space (c : char16) : bool :=
  in_range 9 13 c || (c =? 32)%N || (c =? 160)%N || (c =? 5760)%N
  || in_range 8192 8202 c || (c =? 8232)%N || (c =? 8233)%N
  || (c =? 8239)%N || (c =? 8287)%N || (c =? 12288)%N || (c =? 65279)%N.

Fixpoint eqb (a b : jsstring) : bool :=
  match a, b with
  | [], [] => true
  | x :: a', y :: b' => (x =? y)%N && eqb a' b'
  | _, _ => false
  end.

Definition is_empty (s : jsstring) : bool :=
  match s with [] => true | _ => false end.

(** [String.prototype.trim] *)
Fixpoint trimStart (s : jsstring) : jsstring :=
  match s with
  | c :: t => if is_space c then trimStart t else s
  | [] => []
  end.

Definition trimEnd (s : jsstring) : jsstring := rev (trimStart (rev s)).

Definition trim (s : jsstring) : jsstring := trimEnd (trimStart s).

(** [s.replace(/\s+/g, ' ')]: every maximal run of white space becomes one
    U+0020. [in_run] says that the previous unit was white space. *)
Fixpoint collapse_from (in_run : bool) (s : jsstring) : jsstring :=
  match s with
  | [] => []
  | c :: t =>
      if is_space c
      then (if in_run then collapse_from true t else c_space :: collapse_from true t)
      else c :: collapse_from false t
  end.

Definition replace_ws_runs (s : jsstring) : jsstring := collapse_from false s.

Fixpoint startsWith (s p : jsstring) {struct p} : bool :=
  match p, s with
  | [], _ => true
  | x :: p', y :: s' => (x =? y)%N && startsWith s' p'
  | _ :: _, [] => false
  end.

(** [s.includes(p)] *)
Fixpoint includes (s p : jsstring) : bool :=
  match s with
  | [] => startsWith [] p
  | _ :: t => startsWith s p || includes t p
  end.

(** [s.replace(p, rep)] with a string pattern: only the first occurrence
    is replaced. *)
Fixpoint replace_first (p rep s : jsstring) : jsstring :=
  match s with
  | [] => if startsWith [] p then rep else []
  | c :: t =>
      if startsWith s p then rep ++ skipn (length p) s
      else c :: replace_first p rep t
  end.

(** [s.split(sep)] for a non-empty separator. [cur] is the piece being
    read, reversed; [skip] counts the units of a separator still to drop. *)
Fixpoint split_from (sep cur : jsstring) (skip : nat) (s : jsstring) : list jsstring :=
  match s with
  | [] => [rev cur]
  | c :: t =>
      match skip with
      | S k => split_from sep cur k t
      | O =>
          if startsWith s sep
          then rev cur :: split_from sep [] (length sep - 1)%nat t
          else split_from sep (c :: cur) 0 t
      end
  end.

Definition split (s sep : jsstring) : list jsstring := split_from sep [] 0 s.

(** No two adjacent units of [s] are both white space. *)
Fixpoint single_spaced (s : jsstring) : bool :=
  match s with
  | a :: t =>
      match t with
      | b :: _ => negb (is_space a && is_space b) && single_spaced t
      | [] => true
      end
  | [] => true
  end.

(** The first unit of [s], if any, is not white space. *)
Definition starts_clean (s : jsstring) : bool :=
  match s with
  | c :: _ => negb (is_space c)
  | [] => true
  end.

(** [s] has no digit. *)
Definition digit_free (s : jsstring) : Prop := Forall (fun c => is_digit c = false) s.

(** [s.substring(0, n)] *)
Definition substring0 (n : nat) (s : jsstring) : jsstring := firstn n s.

(** ** Regular expressions

    A backtracking matcher in continuation-passing style, with the one
    capture group the sources use. Quantifiers are greedy, alternatives
    are tried left to right, as in ECMAScript. The [i] flag is expressed
    in the character classes. *)

Inductive regex : Type :=
| Eps
| Chr (p : char16 -> bool)
| Cat (a b : regex)
| Alt (a b : regex)
| Star (a : regex)
| Grp (a : regex).

Definition Plus (a : regex) : regex := Cat a (Star a).
Definition Opt (a : regex) : regex := Alt a Eps.

Definition or_else {A} (x y : option A) : option A :=
  match x with Some _ => x | None => y end.

Fixpoint rmatch {A} (r : regex) (s : jsstring) (g : option jsstring)
    (k : jsstring -> option jsstring -> option A) {struct r} : option A :=
  match r with
  | Eps => k s g
  | Chr p =>
      match s with
      | c :: t => if p c then k t g else None
      | [] => None
      end
  | Cat a b => rmatch a s g (fun s' g' => rmatch b s' g' k)
  | Alt a b => or_else (rmatch a s g k) (rmatch b s g k)
  | Star a =>
      (fix iter (n : nat) (s : jsstring) (g : option jsstring) {struct n} : option A :=
         match n with
         | O => k s g
         | S n' =>
             or_else
               (rmatch a s g
                  (fun s' g' =>
                     if (length s' <? length s)%nat then iter n' s' g' else None))
               (k s g)
         end) (length s) s g
  | Grp a =>
      rmatch a s g (fun s' _ => k s' (Some (firstn (length s - length s')%nat s)))
  end.

Record rmatch_result := {
  m_index : nat;              (* match.index *)
  m_all : jsstring;           (* match[0] *)
  m_group : option jsstring   (* match[1] *)
}.

(** [regex.exec(s)] with [lastIndex = 0]: the leftmost match. *)
Fixpoint exec_from (r : regex) (i : nat) (s : jsstring) : option rmatch_result :=
  match rmatch r s None (fun s' g => Some (s', g)) with
  | Some (s', g) =>
      Some {| m_index := i; m_all := firstn (length s - length s')%nat s; m_group := g |}
  | None =>
      match s with
      | [] => None
      | _ :: t => exec_from r (S i) t
      end
  end.

Definition exec (r : regex) (s : jsstring) : option rmatch_result := exec_from r 0 s.

(** Character classes of the sources. *)
Definition lit (c : char16) : regex := Chr (N.eqb c).
Definition is_sep (c : char16) : bool := (c =? c_dot)%N || (c =? c_comma)%N.
(** A letter under the [i] flag: the upper-case unit [u] or its lower-case
    partner [u + 32]. *)
Definition ci (u : char16) : regex := Chr (fun c => (c =? u)%N || (c =? u + 32)%N).

(** [(\d+(?:[.,]\d+)?)] *)
Definition re_number : regex :=
  Grp (Cat (Plus (Chr is_digit)) (Opt (Cat (Chr is_sep) (Plus (Chr is_digit))))).
(** [\s*] *)
Definition re_ws : regex := Star (Chr is_space).

(** ** Numbers *)

Inductive jsnum : Type :=
| NaN
| Num (q : Q).

Fixpoint span_digits (s : jsstring) : jsstring * jsstring :=
  match s with
  | c :: t =>
      if is_digit c then let (d, r) := span_digits t in (c :: d, r) else ([], s)
  | [] => ([], [])
  end.

Definition digits_value (ds : jsstring) : N :=
  fold_left (fun acc d => acc * 10 + (d - 48)) ds 0.

Definition decimal (ip fp : jsstring) : Q :=
  Qred (inject_Z (Z.of_N (digits_value (ip ++ fp)))
        / inject_Z (Z.of_N (10 ^ N.of_nat (length fp))))%Q.

(** [parseFloat] on the strings these sources give it: leading white
    space, then the longest prefix [digits], [digits.], [digits.digits]
    or [.digits]; no such prefix gives [NaN]. Signs, exponents and
    [Infinity] do not occur at the call sites (their arguments consist of
    digits, '.' and ','), and are not read here. *)
Definition parseFloat (s : jsstring) : jsnum :=
  let (ip, r) := span_digits (trimStart s) in
  match r with
  | c :: r' =>
      if (c =? c_dot)%N
      then let (fp, _) := span_digits r' in
           if is_empty ip && is_empty fp then NaN else Num (decimal ip fp)
      else if is_empty ip then NaN else Num (decimal ip [])
  | [] => if is_empty ip then NaN else Num (decimal ip [])
  end.

Definition Qltb (a b : Q) : bool := negb (Qle_bool b a).

(** [x > 0] and [x < bound] on numbers; comparisons with [NaN] are false. *)
Definition gt0 (x : jsnum) : bool :=
  match x with NaN => false | Num q => Qltb 0%Q q end.
Definition ltb (x : jsnum) (bound : Q) : bool :=
  match x with NaN => false | Num q => Qltb q bound end.
Definition isNaN (x : jsnum) : bool :=
  match x with NaN => true | Num _ => false end.

(** ** Exceptions *)

Inductive thrown : Type :=
| ErrorObj (message : jsstring)   (* [instanceof Error] *)
| OtherThrown.

Inductive result (A : Type) : Type :=
| Ok (a : A)
| Throw (e : thrown).
Arguments Ok {A} a.
Arguments Throw {A} e.

Definition bind {A B} (m : result A) (f : A -> result B) : result B :=
  match m with Ok a => f a | Throw e => Throw e end.

(** [try { m } catch (e) { h e }] *)
Definition try_catch {A} (m : result A) (h : thrown -> result A) : result A :=
  match m with Ok a => Ok a | Throw e => h e end.

(** [error instanceof Error ? error.message : fallback] *)
Definition message_or (fallback : jsstring) (e : thrown) : jsstring :=
  match e with ErrorObj m => m | OtherThrown => fallback end.

(** What the platform supplies: [new URL(u).hostname] ([None] when the
    constructor throws) and [String.prototype.toLowerCase]. *)
Record Platform := {
  URL_hostname : jsstring -> option jsstring;
  toLowerCase : jsstring -> jsstring
}.

End JS.

Import JS.

(* ================================================================== *)
(** * utils/helpers.ts                                                *)
(* ================================================================== *)

Module Helpers.

Section WithPlatform.
Variable P : Platform.

(** [extractDomain] *)
Definition extractDomain (url : jsstring) : jsstring :=
  match URL_hostname P url with
  | Some hostname => replace_first (str "www.") [] hostname
  | None => []
  end.

(** [extractGameSlug] *)
Definition gameKeywords : list (jsstring * list jsstring) :=
  [ (str "pubg", [str "pubg"; str "mobile"; str "uc"]);
    (str "mobile-legends", [str "mobile"; str "legends"; str "mlbb"; str "elmas"]);
    (str "valorant", [str "valorant"; str "vp"; str "points"]);
    (str "lol", [str "lol"; str "league"; str "legends"; str "rp"; str "riot"]);
    (str "free-fire", [str "free"; str "fire"; str "garena"]);
    (str "genshin-impact", [str "genshin"; str "impact"; str "genesis"]);
    (str "honor-of-kings", [str "honor"; str "kings"; str "jeton"]);
    (str "roblox", [str "roblox"; str "robux"]);
    (str "steam", [str "steam"; str "wallet"; str "cuzdan"]);
    (str "razer-gold", [str "razer"; str "gold"]) ].

Fixpoint first_slug (combined : jsstring) (table : list (jsstring * list jsstring))
  : jsstring :=
  match table with
  | [] => str "unknown"
  | (slug, keywords) :: rest =>
      if existsb (includes combined) keywords then slug
      else first_slug combined rest
  end.

Definition extractGameSlug (url title : jsstring) : jsstring :=
  let combined := toLowerCase P url ++ [c_space] ++ toLowerCase P title in
  first_slug combined gameKeywords.

(** [detectRegion] *)
Definition detectRegion (url title : jsstring) : jsstring :=
  let combined := toLowerCase P (url ++ [c_space] ++ title) in
  if includes combined (str "global") || includes combined (str "worldwide")
  then str "GLOBAL"
  else if includes combined (str "eu") || includes combined (str "europe")
          || includes combined (str "west")
  then str "EU"
  else if includes combined (str "na") || includes combined (str "north")
          || includes combined (str "america") || includes combined (str "usa")
          || includes combined (str "us")
  then str "US"
  else if includes combined (str "tr") || includes combined (str "turkey")
          || includes combined (str "turkiye")
  then str "TR"
  else str "TR".

End WithPlatform.

Record PriceResult := { price : jsnum; currency : jsstring }.

Definition TRY := str "TRY".
Definition USD := str "USD".
Definition EUR := str "EUR".

(** The pattern table of [parsePrice], in source order. *)
Definition patterns : list (regex * jsstring) :=
  [ (Cat re_number (Cat re_ws (lit c_lira)), TRY);
    (Cat (lit c_lira) (Cat re_ws re_number), TRY);
    (Cat re_number (Cat re_ws (Cat (ci 84) (ci 76))), TRY);
    (Cat (Cat (ci 84) (ci 76)) (Cat re_ws re_number), TRY);
    (Cat re_number (Cat re_ws (lit c_dollar)), USD);
    (Cat (lit c_dollar) (Cat re_ws re_number), USD);
    (Cat re_number (Cat re_ws (lit c_euro)), EUR);
    (Cat (lit c_euro) (Cat re_ws re_number), EUR);
    (re_number, TRY) ].

(** [match && match[1]]: the first group of a match, when it is a
    non-empty string. *)
Definition truthy_group (m : option rmatch_result) : option jsstring :=
  match m with
  | Some r =>
      match m_group r with
      | Some (c :: t) => Some (c :: t)
      | _ => None
      end
  | None => None
  end.

(** The [for (const pattern of patterns)] loop. *)
Fixpoint first_match (ps : list (regex * jsstring)) (cleaned : jsstring) : PriceResult :=
  match ps with
  | [] => {| price := Num 0%Q; currency := TRY |}
  | (re, cur) :: rest =>
      match truthy_group (exec re cleaned) with
      | Some g =>
          {| price := parseFloat (replace_first [c_comma] [c_dot] g); currency := cur |}
      | None => first_match rest cleaned
      end
  end.

(** [parsePrice] *)
Definition parsePrice (priceText : jsstring) : PriceResult :=
  if is_empty priceText then {| price := Num 0%Q; currency := TRY |}
  else
    let cleaned := trim (replace_ws_runs priceText) in
    first_match patterns cleaned.

(** [isValidPrice] *)
Definition isValidPrice (p : jsnum) : bool :=
  gt0 p && ltb p 1000000%Q && negb (isNaN p).

(** [/[^\w\s\-_.₺$€]/]: the units that [sanitizeText] keeps. *)
Definition whitelisted (c : char16) : bool :=
  is_word c || is_space c || (c =? c_minus)%N || (c =? c_underscore)%N
  || (c =? c_dot)%N || (c =? c_lira)%N || (c =? c_dollar)%N || (c =? c_euro)%N.

(** [sanitizeText] *)
Definition sanitizeText (text : jsstring) : jsstring :=
  trim (filter whitelisted (replace_ws_runs text)).

End Helpers.

(** [UserAgentRotator] of utils/helpers.ts: the fixed list and the
    round-robin cursor. *)
Module UserAgentRotator.

Definition agents : list jsstring :=
  [ str "Mozilla/5.0 (Windows NT 10.0; Win64; x64) AppleWebKit/537.36 (KHTML, like Gecko) Chrome/120.0.0.0 Safari/537.36";
    str "Mozilla/5.0 (Windows NT 10.0; Win64; x64) AppleWebKit/537.36 (KHTML, like Gecko) Chrome/119.0.0.0 Safari/537.36";
    str "Mozilla/5.0 (Windows NT 10.0; Win64; x64; rv:109.0) Gecko/20100101 Firefox/120.0";
    str "Mozilla/5.0 (Windows NT 10.0; Win64; x64) AppleWebKit/537.36 (KHTML, like Gecko) Chrome/120.0.0.0 Safari/537.36 Edg/120.0.2210.133";
    str "Mozilla/5.0 (Macintosh; Intel Mac OS X 14_1) AppleWebKit/537.36 (KHTML, like Gecko) Chrome/120.0.0.0 Safari/537.36";
    str "Mozilla/5.0 (X11; Linux x86_64) AppleWebKit/537.36 (KHTML, like Gecko) Chrome/120.0.0.0 Safari/537.36" ].

Record t := { currentIndex : nat }.

(** The state the constructor leaves. *)
Definition create : t := {| currentIndex := 0 |}.

(** [getNext]; [None] is [undefined]. *)
Definition getNext (r : t) : option jsstring * t :=
  (nth_error agents (currentIndex r),
   {| currentIndex := ((currentIndex r + 1) mod length agents)%nat |}).

(** [n] calls of [getNext] in a row: what they return, and the state
    after them. *)
Fixpoint getNext_times (n : nat) (r : t) : list (option jsstring) * t :=
  match n with
  | O => ([], r)
  | S n' =>
      let (agent, r') := getNext r in
      let (rest, r'') := getNext_times n' r' in
      (agent :: rest, r'')
  end.

End UserAgentRotator.

(* ================================================================== *)
(** * types/index.ts                                                  *)
(* ================================================================== *)

Module ScrapedItem.
Record t := {
  title : jsstring;
  price : jsstring;             (* the raw price text *)
  currency : jsstring;
  region : jsstring;
  url : jsstring;
  siteName : jsstring;
  gameSlug : jsstring
}.
End ScrapedItem.

Module Selectors.
Record t := {
  container : jsstring;
  title : jsstring;
  price : jsstring;
  originalPrice : option jsstring
}.
End Selectors.

Module SiteConfig.
Record t := {
  name : jsstring;
  domain : jsstring;
  selectors : Selectors.t;
  waitFor : option jsstring;
  delay : option N;
  maxRetries : option N;
  requiresJS : option bool
}.
End SiteConfig.

Module ScrapingResult.
Record t := {
  success : bool;
  url : jsstring;
  items : list ScrapedItem.t;
  error : option jsstring;      (* [None] is [undefined] or [null] *)
  responseTime : N;
  siteName : jsstring
}.
End ScrapingResult.

Module BatchResult.
Record t := {
  batchId : jsstring;
  timestamp : N;                (* a [Date], as epoch milliseconds *)
  totalUrls : nat;
  successCount : nat;
  failedCount : nat;
  results : list ScrapingResult.t;
  totalItems : nat;
  errors : list jsstring
}.
End BatchResult.

Module ScrapedPrice.
Record t := {
  price : jsnum;
  currency : jsstring;
  region : jsstring;
  product_name : jsstring;
  url : jsstring;
  batch_timestamp : N
}.
End ScrapedPrice.

Module Metadata.
Record t := {
  totalUrls : nat;
  successCount : nat;
  failedCount : nat;
  totalItems : nat
}.
End Metadata.

Module N8NWebhookPayload.
Record t := {
  batchId : jsstring;
  timestamp : N;                (* [toISOString()] of the batch time *)
  items : list ScrapedPrice.t;
  metadata : Metadata.t
}.
End N8NWebhookPayload.

(* ================================================================== *)
(** * scrapers/hybrid-scraper-factory.ts                              *)
(* ================================================================== *)

Module Factory.

(** [FLARESOLVERR_REQUIRED_DOMAINS] *)
Definition FLARESOLVERR_REQUIRED_DOMAINS : list jsstring :=
  [str "oyuneks.com"; str "liderepin.com"].

(** [PUPPETEER_REQUIRED_DOMAINS] *)
Definition PUPPETEER_REQUIRED_DOMAINS : list jsstring :=
  [ str "epindigital.com"; str "turkpin.com"; str "oyunone.com"; str "playsultan.com";
    str "epinsultan.com"; str "foxepin.com"; str "perdigital.com"; str "kopazar.com";
    str "vatangame.com"; str "mtcgame.com"; str "bursagb.com"; str "itemsatis.com";
    str "dijipin.com"; str "oyunfor.com"; str "inovapin.com"; str "bynogame.com";
    str "gamesatis.com"; str "hesap.com.tr"; str "s2gepin.com"; str "hi2games.com" ].

(** [Set.prototype.has] *)
Definition has (set : list jsstring) (x : jsstring) : bool :=
  existsb (JS.eqb x) set.

(** [SITE_CONFIGS]: the own properties of the object, in source order. *)
Definition SITE_CONFIGS : list (jsstring * SiteConfig.t) :=
  [
    (str "epindigital.com",
     {| SiteConfig.name := str "EpinDigital";
        SiteConfig.domain := str "epindigital.com";
        SiteConfig.selectors :=
          {| Selectors.container := str "div.product-item";
             Selectors.title := str "h3.product-name.d-block";
             Selectors.price := str "div.product-price, div.sales-price.fw-600.fs-18";
             Selectors.originalPrice := Some (str ".old-price") |};
        SiteConfig.waitFor := Some (str "h3.product-name");
        SiteConfig.delay := Some 1000;
        SiteConfig.maxRetries := Some 2;
        SiteConfig.requiresJS := Some true |});
    (str "turkpin.com",
     {| SiteConfig.name := str "TurkPin";
        SiteConfig.domain := str "turkpin.com";
        SiteConfig.selectors :=
          {| Selectors.container := str "tr";
             Selectors.title := str "h5, div.product__description, div.short_desc";
             Selectors.price := str "td.bold";
             Selectors.originalPrice := Some (str ".old-price") |};
        SiteConfig.waitFor := Some (str "h5");
        SiteConfig.delay := Some 1000;
        SiteConfig.maxRetries := Some 2;
        SiteConfig.requiresJS := Some true |});
    (str "oyunone.com",
     {| SiteConfig.name := str "OyunOne";
        SiteConfig.domain := str "oyunone.com";
        SiteConfig.selectors :=
          {| Selectors.container := str "div.item";
             Selectors.title := str "div.text1";
             Selectors.price := str "div.price notranslate, div.new_price.ng-binding";
             Selectors.originalPrice := Some (str ".old-price") |};
        SiteConfig.waitFor := Some (str "div.text1");
        SiteConfig.delay := Some 1000;
        SiteConfig.maxRetries := Some 2;
        SiteConfig.requiresJS := Some true |});
    (str "playsultan.com",
     {| SiteConfig.name := str "PlaySultan";
        SiteConfig.domain := str "playsultan.com";
        SiteConfig.selectors :=
          {| Selectors.container := str "a div.product_item, div.product_item";
             Selectors.title := str "h5";
             Selectors.price := str "span.fiyat";
             Selectors.originalPrice := Some (str ".old-price") |};
        SiteConfig.waitFor := Some (str "div.product_item");
        SiteConfig.delay := Some 1000;
        SiteConfig.maxRetries := Some 2;
        SiteConfig.requiresJS := Some true |});
    (str "epinsultan.com",
     {| SiteConfig.name := str "EpinSultan";
        SiteConfig.domain := str "epinsultan.com";
        SiteConfig.selectors :=
          {| Selectors.container := str "a div.product_item, div.product_item";
             Selectors.title := str "h5";
             Selectors.price := str "span.fiyat";
             Selectors.originalPrice := Some (str ".old-price") |};
        SiteConfig.waitFor := Some (str "div.product_item");
        SiteConfig.delay := Some 1000;
        SiteConfig.maxRetries := Some 2;
        SiteConfig.requiresJS := Some true |});
    (str "foxepin.com",
     {| SiteConfig.name := str "FoxEpin";
        SiteConfig.domain := str "foxepin.com";
        SiteConfig.selectors :=
          {| Selectors.container := str ".product-item, .product-card";
             Selectors.title := str "h3.product-name.d-block";
             Selectors.price := str "div.product-price";
             Selectors.originalPrice := Some (str ".old-price") |};
        SiteConfig.waitFor := Some (str "h3.product-name");
        SiteConfig.delay := Some 1000;
        SiteConfig.maxRetries := Some 2;
        SiteConfig.requiresJS := Some true |});
    (str "perdigital.com",
     {| SiteConfig.name := str "PerDigital";
        SiteConfig.domain := str "perdigital.com";
        SiteConfig.selectors :=
          {| Selectors.container := str "tr, .product-row, .product";
             Selectors.title := str "td.text-center, .product-name, .title";
             Selectors.price := str "span.text-center.semi-bold, .price, .fiyat";
             Selectors.originalPrice := Some (str ".old-price") |};
        SiteConfig.waitFor := Some (str "tr");
        SiteConfig.delay := Some 1500;
        SiteConfig.maxRetries := Some 3;
        SiteConfig.requiresJS := Some true |});
    (str "kopazar.com",
     {| SiteConfig.name := str "Kopazar";
        SiteConfig.domain := str "kopazar.com";
        SiteConfig.selectors :=
          {| Selectors.container := str "div.col-12 div.card div.list-items";
             Selectors.title := str "a strong";
             Selectors.price := str "div.d-flex.align-items-center.justify-content-end strong";
             Selectors.originalPrice := Some (str ".old-price") |};
        SiteConfig.waitFor := Some (str "div.card");
        SiteConfig.delay := Some 1500;
        SiteConfig.maxRetries := Some 2;
        SiteConfig.requiresJS := Some true |});
    (str "vatangame.com",
     {| SiteConfig.name := str "VatanGame";
        SiteConfig.domain := str "vatangame.com";
        SiteConfig.selectors :=
          {| Selectors.container := (str ".card, div.card, [class*=" ++ [c_dquote] ++ str "card" ++ [c_dquote] ++ str "], div.row, .row, [class*=" ++ [c_dquote] ++ str "row" ++ [c_dquote] ++ str "], div.col, .product, .item");
             Selectors.title := (str "p, span, div, h1, h2, h3, h4, h5, a, strong, [class*=" ++ [c_dquote] ++ str "font-bold" ++ [c_dquote] ++ str "], [class*=" ++ [c_dquote] ++ str "title" ++ [c_dquote] ++ str "]");
             Selectors.price := (str "p, span, div, strong, [class*=" ++ [c_dquote] ++ str "font-bold" ++ [c_dquote] ++ str "], [class*=" ++ [c_dquote] ++ str "price" ++ [c_dquote] ++ str "], [class*=" ++ [c_dquote] ++ str "fiyat" ++ [c_dquote] ++ str "], [style*=" ++ [c_dquote] ++ str "font-size" ++ [c_dquote] ++ str "]");
             Selectors.originalPrice := Some ((str "[style*=" ++ [c_dquote] ++ str "line-through" ++ [c_dquote] ++ str "], .old-price, [class*=" ++ [c_dquote] ++ str "old" ++ [c_dquote] ++ str "]")) |};
        SiteConfig.waitFor := Some (str "body");
        SiteConfig.delay := Some 5000;
        SiteConfig.maxRetries := Some 5;
        SiteConfig.requiresJS := Some true |});
    (str "mtcgame.com",
     {| SiteConfig.name := str "MTCGame";
        SiteConfig.domain := str "mtcgame.com";
        SiteConfig.selectors :=
          {| Selectors.container := str "a.border-2.border-amber-600\/10";
             Selectors.title := str "h3.text-white.font-medium.text-sm.line-clamp-2";
             Selectors.price := str "div.text-right.bg-\[\#7CFF6B33\] p.text-sm.font-medium.text-white";
             Selectors.originalPrice := Some (str ".old-price") |};
        SiteConfig.waitFor := Some (str "a.border-2.border-amber-600\/10");
        SiteConfig.delay := Some 1000;
        SiteConfig.maxRetries := Some 2;
        SiteConfig.requiresJS := Some true |});
    (str "bursagb.com",
     {| SiteConfig.name := str "BursaGB";
        SiteConfig.domain := str "bursagb.com";
        SiteConfig.selectors :=
          {| Selectors.container := str ".product-item, .product-card, tr, .product";
             Selectors.title := str "h3.product-name.d-block, h3.product-name, .title";
             Selectors.price := str "div.product-price, .price, .fiyat";
             Selectors.originalPrice := Some (str ".old-price") |};
        SiteConfig.waitFor := Some (str ".product-item");
        SiteConfig.delay := Some 1500;
        SiteConfig.maxRetries := Some 3;
        SiteConfig.requiresJS := Some true |});
    (str "liderepin.com",
     {| SiteConfig.name := str "LiderEpin";
        SiteConfig.domain := str "liderepin.com";
        SiteConfig.selectors :=
          {| Selectors.container := str ".product-item, .product, tr";
             Selectors.title := str "h3.product-name.d-block, h3.product-name, .title";
             Selectors.price := str "div.product-price, .price, .fiyat";
             Selectors.originalPrice := Some (str ".old-price") |};
        SiteConfig.waitFor := Some (str ".product-item");
        SiteConfig.delay := Some 1500;
        SiteConfig.maxRetries := Some 3;
        SiteConfig.requiresJS := Some true |});
    (str "oyuneks.com",
     {| SiteConfig.name := str "OyunEks";
        SiteConfig.domain := str "oyuneks.com";
        SiteConfig.selectors :=
          {| Selectors.container := str "button.productListHorizontal.detailProductButton, .productListHorizontal";
             Selectors.title := str "div.productListHorizontalDetailTitle, .productListHorizontalDetailTitle";
             Selectors.price := str "div.productListHorizontalDetailPrice, .productListHorizontalDetailPrice";
             Selectors.originalPrice := Some (str ".old-price") |};
        SiteConfig.waitFor := Some (str ".productListHorizontal");
        SiteConfig.delay := Some 3000;
        SiteConfig.maxRetries := Some 3;
        SiteConfig.requiresJS := Some true |});
    (str "dijipin.com",
     {| SiteConfig.name := str "DijiPin";
        SiteConfig.domain := str "dijipin.com";
        SiteConfig.selectors :=
          {| Selectors.container := str ".product-item, .product, tr";
             Selectors.title := str "h3.product-name.d-block, h3.product-name, .title";
             Selectors.price := str "div.sales-price.fw-600.fs-18, .sales-price, .price, .fiyat";
             Selectors.originalPrice := Some (str ".old-price") |};
        SiteConfig.waitFor := Some (str ".product-item");
        SiteConfig.delay := Some 1500;
        SiteConfig.maxRetries := Some 3;
        SiteConfig.requiresJS := Some true |});
    (str "itemsatis.com",
     {| SiteConfig.name := str "ItemSatis";
        SiteConfig.domain := str "itemsatis.com";
        SiteConfig.selectors :=
          {| Selectors.container := str "div.relative.border.rounded-lg";
             Selectors.title := str "h3.text-base.font-medium.\!text-white";
             Selectors.price := str "div.text-2xl.font-medium.text-\[\#ffd679\]";
             Selectors.originalPrice := Some (str "div.text-base.line-through.text-gray-400") |};
        SiteConfig.waitFor := Some (str "div.relative.border.rounded-lg");
        SiteConfig.delay := Some 1000;
        SiteConfig.maxRetries := Some 2;
        SiteConfig.requiresJS := Some true |});
    (str "inovapin.com",
     {| SiteConfig.name := str "InovaPin";
        SiteConfig.domain := str "inovapin.com";
        SiteConfig.selectors :=
          {| Selectors.container := str "div.col-lg-6.col-md-6.col-xs-12.col-12.product-base";
             Selectors.title := str "h3.product-name.d-block, h3.product-name, .title";
             Selectors.price := str "div.sales-price.fw-600.fs-18";
             Selectors.originalPrice := Some (str ".old-price") |};
        SiteConfig.waitFor := Some (str "div.col-lg-6.col-md-6.col-xs-12.col-12.product-base");
        SiteConfig.delay := Some 1500;
        SiteConfig.maxRetries := Some 3;
        SiteConfig.requiresJS := Some true |});
    (str "bynogame.com",
     {| SiteConfig.name := str "BynoGame";
        SiteConfig.domain := str "bynogame.com";
        SiteConfig.selectors :=
          {| Selectors.container := str "div.itemCard";
             Selectors.title := str "h2.font-weight-bolder.text-left";
             Selectors.price := str "div.col-lg-4.col-md-5";
             Selectors.originalPrice := Some (str ".old-price") |};
        SiteConfig.waitFor := Some (str "div.itemCard");
        SiteConfig.delay := Some 1500;
        SiteConfig.maxRetries := Some 2;
        SiteConfig.requiresJS := Some true |});
    (str "gamesatis.com",
     {| SiteConfig.name := str "GameSatis";
        SiteConfig.domain := str "gamesatis.com";
        SiteConfig.selectors :=
          {| Selectors.container := str "a.product";
             Selectors.title := str "h3";
             Selectors.price := str "div.selling-price";
             Selectors.originalPrice := Some (str "div.original-price") |};
        SiteConfig.waitFor := Some (str "a.product");
        SiteConfig.delay := Some 1500;
        SiteConfig.maxRetries := Some 3;
        SiteConfig.requiresJS := Some true |});
    (str "hesap.com.tr",
     {| SiteConfig.name := str "HesapComTr";
        SiteConfig.domain := str "hesap.com.tr";
        SiteConfig.selectors :=
          {| Selectors.container := str "li.col-12.prd";
             Selectors.title := str "a.d-flex";
             Selectors.price := str "div#newprice_lg282.new";
             Selectors.originalPrice := Some (str ".old-price") |};
        SiteConfig.waitFor := Some (str "li.col-12.prd");
        SiteConfig.delay := Some 1500;
        SiteConfig.maxRetries := Some 2;
        SiteConfig.requiresJS := Some true |});
    (str "s2gepin.com",
     {| SiteConfig.name := str "S2GEpin";
        SiteConfig.domain := str "s2gepin.com";
        SiteConfig.selectors :=
          {| Selectors.container := str ".product-item, .product, tr";
             Selectors.title := str "h3.product-name.d-block, h3.product-name, .title";
             Selectors.price := str "div.product-price, .price, .fiyat";
             Selectors.originalPrice := Some (str ".old-price") |};
        SiteConfig.waitFor := Some (str ".product-item");
        SiteConfig.delay := Some 1500;
        SiteConfig.maxRetries := Some 3;
        SiteConfig.requiresJS := Some true |});
    (str "hi2games.com",
     {| SiteConfig.name := str "Hi2Games";
        SiteConfig.domain := str "hi2games.com";
        SiteConfig.selectors :=
          {| Selectors.container := str "div.table-container.product";
             Selectors.title := str "div.table-item.name p.text-header:first-child";
             Selectors.price := str "div.table-item.price p.text-header.current";
             Selectors.originalPrice := Some (str "div.table-item.price p.text-header.old") |};
        SiteConfig.waitFor := Some (str "div.table-container.product");
        SiteConfig.delay := Some 1500;
        SiteConfig.maxRetries := Some 2;
        SiteConfig.requiresJS := Some true |});
    (str "oyunfor.com",
     {| SiteConfig.name := str "OyunFor";
        SiteConfig.domain := str "oyunfor.com";
        SiteConfig.selectors :=
          {| Selectors.container := str ".product-item, .productBox, tr, .product";
             Selectors.title := str "h3.productText, h3, .title, .product-name";
             Selectors.price := str "div.notranslate, .price, .fiyat";
             Selectors.originalPrice := Some (str ".old-price") |};
        SiteConfig.waitFor := Some (str ".productBox");
        SiteConfig.delay := Some 1500;
        SiteConfig.maxRetries := Some 3;
        SiteConfig.requiresJS := Some true |})
  ].

(** The own property of the table under [key], if there is one. *)
Fixpoint lookup (table : list (jsstring * SiteConfig.t)) (key : jsstring)
  : option SiteConfig.t :=
  match table with
  | [] => None
  | (k, v) :: rest => if JS.eqb k key then Some v else lookup rest key
  end.

(** [SITE_CONFIGS] is a plain object literal, so a property read on it also
    finds the members of [Object.prototype]. Their names: each is bound
    to a function, ["__proto__"] to the prototype object itself; all of
    them are truthy and none is a profile. *)
Definition Object_prototype_names : list jsstring :=
  [ str "constructor"; str "__defineGetter__"; str "__defineSetter__";
    str "hasOwnProperty"; str "__lookupGetter__"; str "__lookupSetter__";
    str "isPrototypeOf"; str "propertyIsEnumerable"; str "toString";
    str "valueOf"; str "__proto__"; str "toLocaleString" ].

(** What a scraper is built on: a profile, or the member of
    [Object.prototype] of the given name. *)
Inductive config_value : Type :=
| Profile (config : SiteConfig.t)
| Inherited (name : jsstring).

(** [SITE_CONFIGS[domain]]: [None] is [undefined]. *)
Definition get (domain : jsstring) : option config_value :=
  match lookup SITE_CONFIGS domain with
  | Some config => Some (Profile config)
  | None =>
      if has Object_prototype_names domain then Some (Inherited domain) else None
  end.

End Factory.

(* ================================================================== *)
(** * scrapers/puppeteer-scraper.ts                                   *)
(* ================================================================== *)

(** The live page as the in-page code sees it: what the selector queries
    answer, and the text of an element. An invalid selector makes a query
    throw. *)
Module Dom.
Record Element := {
  querySelector : jsstring -> result (option jsstring);
    (* [textContent] of the first descendant that matches *)
  textContent : jsstring
}.
Record Document := {
  querySelectorAll : jsstring -> result (list Element)
}.
End Dom.

(** What the browser answers to one [scrapeUrl] call, step by step. *)
Module Browser.
Record t := {
  launch : result unit;              (* [puppeteer.launch] *)
  newPage : result unit;
  configure : result unit;           (* viewport, user agent, headers *)
  setRequestInterception : result unit;
  goto_primary : result unit;
  goto_fallback : result unit;       (* [domcontentloaded] retry *)
  settle_and_scroll : result unit;   (* the extra waits of vatangame.com *)
  waitForSelector : result unit;
  waitForTimeout : result unit;
  evaluate : result Dom.Document;    (* the document the in-page code runs on *)
  page_close : result unit;
  browser_close : result unit;       (* [scraper.close()] *)
  elapsed : N                        (* [Date.now() - startTime] *)
}.
End Browser.

Module PuppeteerScraper.

Section WithPlatform.
Variable P : Platform.

(** The helper functions recreated in the browser context. *)

Definition sanitizeText (text : jsstring) : jsstring :=
  substring0 200 (trim (replace_ws_runs text)).

Definition parsePrice (priceText : jsstring) : Helpers.PriceResult :=
  let numericPrice :=
    parseFloat
      (replace_first [c_comma] [c_dot]
         (filter (fun c => is_digit c || is_sep c) priceText)) in
  let lower := toLowerCase P priceText in
  let currency :=
    if includes lower (str "usd") then str "USD"
    else if includes lower (str "eur") then str "EUR"
    else str "TRY" in
  {| Helpers.price := numericPrice; Helpers.currency := currency |}.

Definition isValidPrice (p : jsnum) : bool :=
  negb (isNaN p) && gt0 p && ltb p 1000000%Q.

Definition detectRegion (url title : jsstring) : jsstring :=
  let lower := toLowerCase P title in
  if includes url (str "global") || includes lower (str "global") then str "Global"
  else if includes url (str "eu") || includes url (str "europe") || includes lower (str "eu")
  then str "EU"
  else if includes url (str "na") || includes url (str "america") || includes lower (str "na")
  then str "US"
  else str "TR".

Definition extractGameSlug (url title : jsstring) : jsstring :=
  let lower := toLowerCase P title in
  if includes url (str "pubg") || includes lower (str "pubg") then str "pubg"
  else if includes url (str "lol") || includes url (str "legends")
          || includes lower (str "legends") then str "lol"
  else if includes url (str "valorant") || includes lower (str "valorant") then str "valorant"
  else if includes url (str "mobile-legends") || includes lower (str "mobile legends")
  then str "mobile-legends"
  else if includes url (str "fire") || includes lower (str "fire") then str "free-fire"
  else str "unknown".

(** [/(\d+(?:[.,]\d+)?)\s*(tl|₺|try|usd|eur)/i]; only [match[0]] is read, so
    the second group is not recorded. *)
Definition re_price_token : regex :=
  Cat re_number
    (Cat re_ws
       (Alt (Cat (ci 84) (ci 76))
          (Alt (lit c_lira)
             (Alt (Cat (ci 84) (Cat (ci 82) (ci 89)))
                (Alt (Cat (ci 85) (Cat (ci 83) (ci 68)))
                   (Cat (ci 69) (Cat (ci 85) (ci 82)))))))).

(** The [for (const sel of ...Selectors)] loops over one container: the
    trimmed text of the first selector whose element has any. *)
Fixpoint first_text (el : Dom.Element) (sels : list jsstring) : result jsstring :=
  match sels with
  | [] => Ok []
  | sel :: rest =>
      JS.bind (Dom.querySelector el sel) (fun found =>
      match found with
      | Some text =>
          if is_empty (trim text) then first_text el rest else Ok (trim text)
      | None => first_text el rest
      end)
  end.

(** Title and price text of one container, after the text fallback. *)
Definition title_and_price (config : SiteConfig.t) (container : Dom.Element)
  : result (jsstring * jsstring) :=
  let sels := SiteConfig.selectors config in
  JS.bind (first_text container (split (Selectors.title sels) (str ", "))) (fun title =>
  JS.bind (first_text container (split (Selectors.price sels) (str ", "))) (fun priceText =>
  if is_empty title || is_empty priceText then
    let text := Dom.textContent container in
    match exec re_price_token text with
    | Some priceMatch =>
        let title' :=
          if is_empty title
          then substring0 100 (trim (hd [] (split text (m_all priceMatch))))
          else title in
        Ok (title', m_all priceMatch)
    | None => Ok (title, priceText)
    end
  else Ok (title, priceText))).

(** The body of the [try] inside [containers.forEach]: the item of one
    container, if it yields one. *)
Definition item_of (config : SiteConfig.t) (url domain : jsstring)
    (container : Dom.Element) : result (option ScrapedItem.t) :=
  JS.bind (title_and_price config container) (fun tp =>
  let '(title, priceText) := tp in
  if negb (is_empty title) && negb (is_empty priceText) && (3 <? length title)%nat then
    let pr := parsePrice priceText in
    if isValidPrice (Helpers.price pr) then
      Ok (Some {| ScrapedItem.title := sanitizeText title;
                  ScrapedItem.price := priceText;
                  ScrapedItem.currency := Helpers.currency pr;
                  ScrapedItem.region := detectRegion url title;
                  ScrapedItem.url := url;
                  ScrapedItem.siteName := domain;
                  ScrapedItem.gameSlug := extractGameSlug url title |})
    else Ok None
  else Ok None).

(** [containers.forEach((container, index) => ...)] *)
Fixpoint forEach_container (config : SiteConfig.t) (url domain : jsstring)
    (index : nat) (containers : list Dom.Element) (results : list ScrapedItem.t)
  : list ScrapedItem.t :=
  match containers with
  | [] => results
  | container :: rest =>
      let results' :=
        if (50 <? index)%nat then results       (* [if (index > 50) return] *)
        else
          match item_of config url domain container with
          | Ok (Some item) => results ++ [item]
          | Ok None => results
          | Throw _ => results                  (* individual errors ignored *)
          end in
      forEach_container config url domain (S index) rest results'
  end.

(** [for (const containerSel of containerSelectors)] *)
Fixpoint try_selectors (config : SiteConfig.t) (url domain : jsstring)
    (doc : Dom.Document) (containerSelectors : list jsstring)
    (results : list ScrapedItem.t) : result (list ScrapedItem.t) :=
  match containerSelectors with
  | [] => Ok results
  | containerSel :: rest =>
      JS.bind (Dom.querySelectorAll doc containerSel) (fun containers =>
      match containers with
      | [] => try_selectors config url domain doc rest results      (* [continue] *)
      | _ :: _ =>
          let results' := forEach_container config url domain 0 containers results in
          if (0 <? length results')%nat then Ok results'            (* [break] *)
          else try_selectors config url domain doc rest results'
      end)
  end.

(** The function handed to [page.evaluate]. *)
Definition in_page (config : SiteConfig.t) (url domain : jsstring)
    (doc : Dom.Document) : result (list ScrapedItem.t) :=
  try_selectors config url domain doc
    (split (Selectors.container (SiteConfig.selectors config)) (str ", ")) [].

(** [extractItems] *)
Definition extractItems (config : SiteConfig.t) (page : Browser.t) (url : jsstring)
  : list ScrapedItem.t :=
  let domain := Helpers.extractDomain P url in
  match JS.bind (Browser.evaluate page) (in_page config url domain) with
  | Ok items => items
  | Throw _ => []
  end.

Definition truthy (s : option jsstring) : bool :=
  match s with Some (_ :: _) => true | _ => false end.

(** The [try] block of [scrapeUrl]: the extracted items, unless a step
    throws. [waitFor] is what [this.config.waitFor] reads and [items] what
    [extractItems] returns. *)
Definition run_with (waitFor : option jsstring) (items : list ScrapedItem.t)
    (page : Browser.t) (url : jsstring) : result (list ScrapedItem.t) :=
  let vatangame := includes url (str "vatangame.com") in
  JS.bind (Browser.launch page) (fun _ =>
  JS.bind (Browser.newPage page) (fun _ =>
  JS.bind (Browser.configure page) (fun _ =>
  JS.bind (if vatangame then Ok tt else Browser.setRequestInterception page) (fun _ =>
  JS.bind (try_catch (Browser.goto_primary page)
             (fun _ => Browser.goto_fallback page)) (fun _ =>
  JS.bind (if vatangame then Browser.settle_and_scroll page else Ok tt) (fun _ =>
  JS.bind (if truthy waitFor
           then try_catch (Browser.waitForSelector page)
                  (fun _ => Browser.waitForTimeout page)
           else Browser.waitForTimeout page) (fun _ =>
  JS.bind (Browser.page_close page) (fun _ =>
  Ok items)))))))).

(** The [try] block on a profile. *)
Definition run (config : SiteConfig.t) (page : Browser.t) (url : jsstring)
  : result (list ScrapedItem.t) :=
  run_with (SiteConfig.waitFor config) (extractItems config page url) page url.

(** The two [return] statements of [scrapeUrl]. *)
Definition settle (page : Browser.t) (url : jsstring)
    (outcome : result (list ScrapedItem.t)) : ScrapingResult.t :=
  let domain := Helpers.extractDomain P url in
  match outcome with
  | Ok items =>
      {| ScrapingResult.success := (0 <? length items)%nat;
         ScrapingResult.url := url;
         ScrapingResult.items := items;
         ScrapingResult.error :=
           if (length items =? 0)%nat then Some (str "No items found with Puppeteer")
           else None;
         ScrapingResult.responseTime := Browser.elapsed page;
         ScrapingResult.siteName := domain |}
  | Throw error =>
      {| ScrapingResult.success := false;
         ScrapingResult.url := url;
         ScrapingResult.items := [];
         ScrapingResult.error := Some (message_or (str "Unknown Puppeteer error") error);
         ScrapingResult.responseTime := Browser.elapsed page;
         ScrapingResult.siteName := domain |}
  end.

(** [scrapeUrl] of a scraper built on a profile. *)
Definition scrapeUrl (config : SiteConfig.t) (page : Browser.t) (url : jsstring)
  : ScrapingResult.t :=
  settle page url (run config page url).

(** [scrapeUrl] of a scraper built on a member of [Object.prototype]:
    [this.config.waitFor] is [undefined], and in the page
    [config.selectors.container] throws a TypeError, which the [catch] of
    [extractItems] turns into an empty list. *)
Definition scrapeUrl_inherited (page : Browser.t) (url : jsstring) : ScrapingResult.t :=
  settle page url (run_with None [] page url).

(** [new PuppeteerScraper(config).scrapeUrl(url)] *)
Definition scrape (config : Factory.config_value) (page : Browser.t) (url : jsstring)
  : ScrapingResult.t :=
  match config with
  | Factory.Profile profile => scrapeUrl profile page url
  | Factory.Inherited _ => scrapeUrl_inherited page url
  end.

(** [close] *)
Definition close (page : Browser.t) : result unit := Browser.browser_close page.

End WithPlatform.

End PuppeteerScraper.

(* ================================================================== *)
(** * scrapers/flaresolverr-scraper.ts                                *)
(* ================================================================== *)

(** The HTML returned by the bypass service, as cheerio shows it. *)
Module Cheerio.
Record Element := {
  find_first_text : jsstring -> result jsstring;   (* [$item.find(sel).first().text()] *)
  attr : jsstring -> option jsstring               (* [$item.attr(name)] *)
}.
Record Document := {
  select : jsstring -> result (list Element)       (* [$(selector)] *)
}.
End Cheerio.

(** What the bypass service answers to one [scrapeUrl] call. *)
Module Bypass.
Record Response := {
  status : jsstring;
  message : jsstring;
  solution_response : result Cheerio.Document      (* [cheerio.load(data.solution.response)] *)
}.
Record t := {
  sessions_create : result unit;
  request_get : result Response;
  elapsed : N
}.
End Bypass.

Module FlareSolverrScraper.

Section WithPlatform.
Variable P : Platform.

(** [for (const sel of ...split(',').map(s => s.trim()))] over one element. *)
Fixpoint first_text (el : Cheerio.Element) (sels : list jsstring) : result jsstring :=
  match sels with
  | [] => Ok []
  | sel :: rest =>
      JS.bind (Cheerio.find_first_text el sel) (fun text =>
      if is_empty (trim text) then first_text el rest else Ok (trim text))
  end.

(** [a || b] on an attribute value: [undefined] and the empty string are
    falsy. *)
Definition attr_or (a : option jsstring) (b : jsstring) : jsstring :=
  match a with
  | Some (c :: t) => c :: t
  | _ => b
  end.

(** The body of the [try] inside [.each]. *)
Definition item_of (config : SiteConfig.t) (url domain : jsstring)
    (el : Cheerio.Element) : result (option ScrapedItem.t) :=
  let sels := SiteConfig.selectors config in
  JS.bind (first_text el (map trim (split (Selectors.title sels) [c_comma]))) (fun title0 =>
  let title :=
    if is_empty title0
    then trim (attr_or (Cheerio.attr el (str "title"))
                 (attr_or (Cheerio.attr el (str "alt"))
                    (attr_or (Cheerio.attr el (str "data-title")) [])))
    else title0 in
  JS.bind (first_text el (map trim (split (Selectors.price sels) [c_comma]))) (fun priceText =>
  if is_empty title || is_empty priceText then Ok None
  else
    let priceResult := Helpers.parsePrice priceText in
    if negb (Helpers.isValidPrice (Helpers.price priceResult)) then Ok None
    else
      Ok (Some {| ScrapedItem.title := Helpers.sanitizeText title;
                  ScrapedItem.price := priceText;
                  ScrapedItem.currency := Helpers.currency priceResult;
                  ScrapedItem.url := url;
                  ScrapedItem.siteName := domain;
                  ScrapedItem.gameSlug := Helpers.extractGameSlug P url title;
                  ScrapedItem.region := str "TR" |}))).

(** [$(container).each((_, el) => ...)] *)
Fixpoint each (config : SiteConfig.t) (url domain : jsstring)
    (els : list Cheerio.Element) (items : list ScrapedItem.t) : list ScrapedItem.t :=
  match els with
  | [] => items
  | el :: rest =>
      let items' :=
        match item_of config url domain el with
        | Ok (Some item) => items ++ [item]
        | Ok None => items
        | Throw _ => items                       (* parse error: warned, skipped *)
        end in
      each config url domain rest items'
  end.

(** The [try] block of [scrapeUrl]. A failing session creation is
    swallowed. [select] is the part that reads [this.config]: the
    [$(this.config.selectors.container).each(...)] on the loaded page. *)
Definition run_with (select : Cheerio.Document -> result (list ScrapedItem.t))
    (service : Bypass.t) : result (list ScrapedItem.t) :=
  JS.bind (try_catch (Bypass.sessions_create service) (fun _ => Ok tt)) (fun _ =>
  JS.bind (Bypass.request_get service) (fun flareResponse =>
  if negb (JS.eqb (Bypass.status flareResponse) (str "ok"))
  then Throw (ErrorObj (str "FlareSolverr error: " ++ Bypass.message flareResponse))
  else
    JS.bind (Bypass.solution_response flareResponse) select)).

(** The [try] block on a profile. *)
Definition run (config : SiteConfig.t) (service : Bypass.t) (url : jsstring)
  : result (list ScrapedItem.t) :=
  let domain := Helpers.extractDomain P url in
  run_with
    (fun doc =>
       JS.bind (Cheerio.select doc (Selectors.container (SiteConfig.selectors config)))
         (fun els => Ok (each config url domain els [])))
    service.

(** The two [return] statements of [scrapeUrl]. *)
Definition settle (service : Bypass.t) (url : jsstring)
    (outcome : result (list ScrapedItem.t)) : ScrapingResult.t :=
  let domain := Helpers.extractDomain P url in
  match outcome with
  | Ok items =>
      {| ScrapingResult.url := url;
         ScrapingResult.success := true;
         ScrapingResult.items := items;
         ScrapingResult.responseTime := Bypass.elapsed service;
         ScrapingResult.siteName := domain;
         ScrapingResult.error := None |}
  | Throw err =>
      {| ScrapingResult.url := url;
         ScrapingResult.success := false;
         ScrapingResult.items := [];
         ScrapingResult.responseTime := Bypass.elapsed service;
         ScrapingResult.siteName := domain;
         ScrapingResult.error := Some (message_or (str "Unknown error") err) |}
  end.

(** [scrapeUrl] of a scraper built on a profile. *)
Definition scrapeUrl (config : SiteConfig.t) (service : Bypass.t) (url : jsstring)
  : ScrapingResult.t :=
  settle service url (run config service url).

(** [scrapeUrl] of a scraper built on a member of [Object.prototype]: once
    the page is loaded, [this.config.selectors.container] throws a
    TypeError (the message is the one of V8, the engine of the image). *)
Definition scrapeUrl_inherited (service : Bypass.t) (url : jsstring) : ScrapingResult.t :=
  settle service url
    (run_with
       (fun _ =>
          Throw (ErrorObj
                   (str "Cannot read properties of undefined (reading 'container')")))
       service).

(** [new FlareSolverrScraper(config).scrapeUrl(url)] *)
Definition scrape (config : Factory.config_value) (service : Bypass.t) (url : jsstring)
  : ScrapingResult.t :=
  match config with
  | Factory.Profile profile => scrapeUrl profile service url
  | Factory.Inherited _ => scrapeUrl_inherited service url
  end.

End WithPlatform.

End FlareSolverrScraper.

(* ================================================================== *)
(** * utils/n8n-client.ts                                             *)
(* ================================================================== *)

(** The webhook: the answers it will give to the next POSTs (an HTTP
    status, or a transport error), and the requests it has received. *)
Module Webhook.
Record Request := {
  body : N8NWebhookPayload.t;
  timeout : N
}.
Record t := {
  answers : list (result N);
  received : list Request
}.

(** The default [validateStatus] of axios. *)
Definition validateStatus (status : N) : bool := (200 <=? status) && (status <? 300).

(** [axios.post(url, body, { timeout })]: the promise resolves on a status
    that [validateStatus] accepts and rejects on any other, as on a
    transport error. With no answer left the request times out. *)
Definition post (body : N8NWebhookPayload.t) (timeout : N) (hook : t) : result N * t :=
  let received' := received hook ++ [{| body := body; timeout := timeout |}] in
  match answers hook with
  | [] => (Throw (ErrorObj (str "timeout exceeded")),
           {| answers := []; received := received' |})
  | Ok status :: rest =>
      (if validateStatus status then Ok status
       else Throw (ErrorObj (str "Request failed with status code "
                             ++ str (NilZero.string_of_uint (N.to_uint status)))),
       {| answers := rest; received := received' |})
  | Throw error :: rest => (Throw error, {| answers := rest; received := received' |})
  end.
End Webhook.

Module N8NClient.

Definition timeout : N := 10000.
Definition maxRetries : N := 1.

(** The client's private copy of the pattern table. *)
Definition patterns : list (regex * jsstring) :=
  [ (Cat re_number (Cat re_ws (lit c_lira)), str "TRY");
    (Cat (lit c_lira) (Cat re_ws re_number), str "TRY");
    (Cat re_number (Cat re_ws (Cat (ci 84) (ci 76))), str "TRY");
    (Cat (Cat (ci 84) (ci 76)) (Cat re_ws re_number), str "TRY");
    (Cat re_number (Cat re_ws (lit c_dollar)), str "USD");
    (Cat (lit c_dollar) (Cat re_ws re_number), str "USD");
    (Cat re_number (Cat re_ws (lit c_euro)), str "EUR");
    (Cat (lit c_euro) (Cat re_ws re_number), str "EUR");
    (re_number, str "TRY") ].

(** [parsePrice] (private) *)
Definition parsePrice (priceText : jsstring) : Helpers.PriceResult :=
  if is_empty priceText then {| Helpers.price := Num 0%Q; Helpers.currency := str "TRY" |}
  else
    let cleaned := trim (replace_ws_runs priceText) in
    Helpers.first_match patterns cleaned.

(** The record pushed for one item. *)
Definition to_price (batch_timestamp : N) (item : ScrapedItem.t) : ScrapedPrice.t :=
  let pr := parsePrice (ScrapedItem.price item) in
  {| ScrapedPrice.price := Helpers.price pr;
     ScrapedPrice.currency := Helpers.currency pr;
     ScrapedPrice.region := ScrapedItem.region item;
     ScrapedPrice.product_name := ScrapedItem.title item;
     ScrapedPrice.url := ScrapedItem.url item;
     ScrapedPrice.batch_timestamp := batch_timestamp |}.

(** [price > 0] on the re-parsed price text of an item. *)
Definition positive (item : ScrapedItem.t) : bool :=
  gt0 (Helpers.price (parsePrice (ScrapedItem.price item))).

(** The body of the inner [forEach]: what one item contributes. *)
Definition price_record (batch_timestamp : N) (item : ScrapedItem.t)
  : list ScrapedPrice.t :=
  if positive item then [to_price batch_timestamp item] else [].

(** The two nested [forEach] of [sendBatchData]. *)
Definition prices_of (batchResult : BatchResult.t) : list ScrapedPrice.t :=
  flat_map
    (fun result =>
       if ScrapingResult.success result
          && (0 <? length (ScrapingResult.items result))%nat
       then flat_map (price_record (BatchResult.timestamp batchResult))
              (ScrapingResult.items result)
       else [])
    (BatchResult.results batchResult).

Definition payload_of (batchResult : BatchResult.t) : N8NWebhookPayload.t :=
  {| N8NWebhookPayload.batchId := BatchResult.batchId batchResult;
     N8NWebhookPayload.timestamp := BatchResult.timestamp batchResult;
     N8NWebhookPayload.items := prices_of batchResult;
     N8NWebhookPayload.metadata :=
       {| Metadata.totalUrls := BatchResult.totalUrls batchResult;
          Metadata.successCount := BatchResult.successCount batchResult;
          Metadata.failedCount := BatchResult.failedCount batchResult;
          Metadata.totalItems := BatchResult.totalItems batchResult |} |}.

(** [sendWithRetry] *)
Definition sendWithRetry (payload : N8NWebhookPayload.t) (hook : Webhook.t)
  : bool * Webhook.t :=
  let (response, hook') := Webhook.post payload timeout hook in
  match response with
  | Ok status => (((200 <=? status) && (status <? 300)), hook')
  | Throw _ => (false, hook')
  end.

(** [sendBatchData] *)
Definition sendBatchData (batchResult : BatchResult.t) (hook : Webhook.t)
  : bool * Webhook.t :=
  let payload := payload_of batchResult in
  let (success, hook') := sendWithRetry payload hook in
  if success then (true, hook') else (false, hook').



End N8NClient.

(* ================================================================== *)
(** * http-orchestrator.ts                                            *)
(* ================================================================== *)

Module HttpOrchestrator.

Inductive Extractor : Type :=
| FlareSolverr    (* the bypass extractor *)
| Puppeteer.      (* the rendering extractor *)

(** One [new ...Scraper(config).scrapeUrl(url)]. *)
Record Call := {
  extractor : Extractor;
  config : Factory.config_value;
  target : jsstring
}.

(** The two scrapers behind their common contract. The first argument is
    the position of the URL in the batch: it selects what the outside
    world answers to that call. *)
Record Extractors := {
  flaresolverr_scrapeUrl :
    nat -> Factory.config_value -> jsstring -> result ScrapingResult.t;
  puppeteer_scrapeUrl :
    nat -> Factory.config_value -> jsstring -> result ScrapingResult.t;
  puppeteer_close : nat -> result unit
}.

(** The outside world of one URL, and the scrapers of this repository on
    it. *)
Record Site := {
  browser : Browser.t;
  bypass : Bypass.t
}.

Definition scrapers (P : Platform) (world : nat -> Site) : Extractors :=
  {| flaresolverr_scrapeUrl := fun i config url =>
       Ok (FlareSolverrScraper.scrape P config (bypass (world i)) url);
     puppeteer_scrapeUrl := fun i config url =>
       Ok (PuppeteerScraper.scrape P config (browser (world i)) url);
     puppeteer_close := fun i => PuppeteerScraper.close (browser (world i)) |}.

(** The state the batch loop mutates: the [results] array, and the calls
    made to the scrapers so far. A throw leaves the state as it is. *)
Record Store := {
  results : list ScrapingResult.t;
  calls : list Call
}.

Definition M (A : Type) : Type := Store -> result A * Store.

Definition ret {A} (a : A) : M A := fun st => (Ok a, st).

Definition mbind {A B} (m : M A) (f : A -> M B) : M B :=
  fun st =>
    match m st with
    | (Ok a, st') => f a st'
    | (Throw e, st') => (Throw e, st')
    end.

Definition lift {A} (r : result A) : M A := fun st => (r, st).

Definition catch {A} (m : M A) (h : thrown -> M A) : M A :=
  fun st =>
    match m st with
    | (Ok a, st') => (Ok a, st')
    | (Throw e, st') => h e st'
    end.

(** [results.push(r)] *)
Definition push (r : ScrapingResult.t) : M unit :=
  fun st => (Ok tt, {| results := results st ++ [r]; calls := calls st |}).

Definition record_call (c : Call) : M unit :=
  fun st => (Ok tt, {| results := results st; calls := calls st ++ [c] |}).

Local Notation "x <- m ;; k" := (mbind m (fun x => k))
  (at level 100, m at next level, right associativity).
Local Notation "m ;;; k" := (mbind m (fun _ => k))
  (at level 100, right associativity).

Section WithPlatform.
Variable P : Platform.
Variable E : Extractors.

(** [getGenericConfig] *)
Definition getGenericConfig (domain : jsstring) : SiteConfig.t :=
  {| SiteConfig.name := domain;
     SiteConfig.domain := domain;
     SiteConfig.selectors :=
       {| Selectors.container :=
            str ".product, .item, .card, .product-item, div, article, section, tr";
          Selectors.title :=
            str ".title, .name, .product-title, .product-name, h1, h2, h3, h4, h5, [class*="
            ++ [c_dquote] ++ str "product" ++ [c_dquote] ++ str "], [class*="
            ++ [c_dquote] ++ str "title" ++ [c_dquote] ++ str "], [class*="
            ++ [c_dquote] ++ str "name" ++ [c_dquote] ++ str "]";
          Selectors.price :=
            str ".price, .cost, .amount, .product-price, [class*="
            ++ [c_dquote] ++ str "price" ++ [c_dquote] ++ str "], [class*="
            ++ [c_dquote] ++ str "fiyat" ++ [c_dquote] ++ str "], [class*="
            ++ [c_dquote] ++ str "cost" ++ [c_dquote] ++ str "], span, div, td";
          Selectors.originalPrice := Some (str ".old-price, .original-price, .was-price") |};
     SiteConfig.waitFor := None;
     SiteConfig.delay := Some 1000;
     SiteConfig.maxRetries := Some 3;
     SiteConfig.requiresJS := Some false |}.

(** [SITE_CONFIGS[domain] || this.getGenericConfig(domain)]: whatever the
    property read finds is truthy. *)
Definition config_for (domain : jsstring) : Factory.config_value :=
  match Factory.get domain with
  | Some value => value
  | None => Factory.Profile (getGenericConfig domain)
  end.

(** The failed result built by both [catch] blocks. *)
Definition failed (url siteName : jsstring) (error : thrown) : ScrapingResult.t :=
  {| ScrapingResult.success := false;
     ScrapingResult.url := url;
     ScrapingResult.items := [];
     ScrapingResult.error := Some (message_or (str "Unknown error") error);
     ScrapingResult.responseTime := 0;
     ScrapingResult.siteName := siteName |}.

(** [scrapeUrlHttp]; [i] is the position of the URL in the batch. *)
Definition scrapeUrlHttp (url : jsstring) (i : nat) : M ScrapingResult.t :=
  let domain := Helpers.extractDomain P url in
  catch
    (let config := config_for domain in
     if Factory.has Factory.FLARESOLVERR_REQUIRED_DOMAINS domain then
       record_call {| extractor := FlareSolverr; config := config; target := url |} ;;;
       result <- lift (flaresolverr_scrapeUrl E i config url) ;;
       ret result
     else
       record_call {| extractor := Puppeteer; config := config; target := url |} ;;;
       result <- lift (puppeteer_scrapeUrl E i config url) ;;
       lift (puppeteer_close E i) ;;;
       ret result)
    (fun error => ret (failed url domain error)).

(** What the [try] of [scrapeUrlHttp] computes, the bookkeeping left
    out, and the result it settles on. *)
Definition dispatch (url : jsstring) (i : nat) : result ScrapingResult.t :=
  let domain := Helpers.extractDomain P url in
  let config := config_for domain in
  if Factory.has Factory.FLARESOLVERR_REQUIRED_DOMAINS domain
  then flaresolverr_scrapeUrl E i config url
  else JS.bind (puppeteer_scrapeUrl E i config url) (fun result =>
       JS.bind (puppeteer_close E i) (fun _ => Ok result)).

Definition outcome (url : jsstring) (i : nat) : ScrapingResult.t :=
  match dispatch url i with
  | Ok result => result
  | Throw error => failed url (Helpers.extractDomain P url) error
  end.

(** One turn of the [for] loop of [scrapeUrls]. The one-second sleep
    between two URLs changes no result and is left out. *)
Definition scrape_one (total : nat)
    (progressCallback : option (nat -> nat -> result unit))
    (url : jsstring) (i : nat) : M unit :=
  catch
    (result <- scrapeUrlHttp url i ;;
     push result ;;;
     match progressCallback with
     | Some callback => lift (callback (i + 1)%nat total)
     | None => ret tt
     end)
    (fun error => push (failed url (Helpers.extractDomain P url) error)).

(** [for (let i = 0; i < urls.length; i++)] from position [i] on. *)
Fixpoint scrape_from (total : nat)
    (progressCallback : option (nat -> nat -> result unit))
    (urls : list jsstring) (i : nat) : M unit :=
  match urls with
  | [] => ret tt
  | url :: rest =>
      scrape_one total progressCallback url i ;;;
      scrape_from total progressCallback rest (S i)
  end.

(** What the loop leaves behind, read off its code: the results one turn
    pushes (the settled result, then a second record when the progress
    callback throws), the call it makes, and both over a list of URLs. *)
Definition pushed (total : nat) (progressCallback : option (nat -> nat -> result unit))
    (url : jsstring) (i : nat) : list ScrapingResult.t :=
  outcome url i ::
  match progressCallback with
  | Some callback =>
      match callback (i + 1)%nat total with
      | Ok _ => []
      | Throw error => [failed url (Helpers.extractDomain P url) error]
      end
  | None => []
  end.

Definition call_of (url : jsstring) : Call :=
  let domain := Helpers.extractDomain P url in
  {| extractor :=
       if Factory.has Factory.FLARESOLVERR_REQUIRED_DOMAINS domain
       then FlareSolverr else Puppeteer;
     config := config_for domain;
     target := url |}.

Fixpoint pushed_from (total : nat) (progressCallback : option (nat -> nat -> result unit))
    (urls : list jsstring) (i : nat) : list ScrapingResult.t :=
  match urls with
  | [] => []
  | url :: rest =>
      pushed total progressCallback url i
      ++ pushed_from total progressCallback rest (S i)
  end.

(** [createBatchResult]; the summary it prints is not modelled. The
    second component says whether the batch is handed to the N8N
    client. *)
Definition createBatchResult (urls : list jsstring) (results : list ScrapingResult.t)
    (batchId : jsstring) (timestamp : N) : BatchResult.t * bool :=
  let successCount := length (filter ScrapingResult.success results) in
  let failedCount := (length results - successCount)%nat in
  let totalItems :=
    fold_left (fun sum r => (sum + length (ScrapingResult.items r))%nat) results 0%nat in
  let errors :=
    map (fun r => match ScrapingResult.error r with
                  | Some (c :: t) => c :: t
                  | _ => str "Unknown error"
                  end)
      (filter (fun r => negb (ScrapingResult.success r)) results) in
  let batchResult :=
    {| BatchResult.batchId := batchId;
       BatchResult.timestamp := timestamp;
       BatchResult.totalUrls := length urls;
       BatchResult.successCount := successCount;
       BatchResult.failedCount := failedCount;
       BatchResult.results := results;
       BatchResult.totalItems := totalItems;
       BatchResult.errors := errors |} in
  (batchResult, (0 <? totalItems)%nat).

(** [scrapeUrls]; [batchId] and [timestamp] are what [generateBatchId()]
    and [new Date()] return. *)
Definition scrapeUrls (batchId : jsstring) (timestamp : N) (urls : list jsstring)
    (progressCallback : option (nat -> nat -> result unit))
  : result (BatchResult.t * bool) * list Call :=
  match scrape_from (length urls) progressCallback urls 0
          {| results := []; calls := [] |} with
  | (Ok _, st) => (Ok (createBatchResult urls (results st) batchId timestamp), calls st)
  | (Throw e, st) => (Throw e, calls st)
  end.

(** The URL list of [scrapeFromFile]: the lines of the file, trimmed,
    without the empty ones and those that do not start with "http". *)
Definition urls_of_content (content : jsstring) : list jsstring :=
  filter (fun line => (0 <? length line)%nat && startsWith line (str "http"))
    (map trim (split content [10])).

(** [scrapeFromFile]; [readFile] is what [fs.readFile(filePath, 'utf-8')]
    gives. An error is logged and thrown again. *)
Definition scrapeFromFile (readFile : result jsstring) (batchId : jsstring)
    (timestamp : N) (progressCallback : option (nat -> nat -> result unit))
  : result (BatchResult.t * bool) * list Call :=
  match readFile with
  | Ok content => scrapeUrls batchId timestamp (urls_of_content content) progressCallback
  | Throw error => (Throw error, [])
  end.

End WithPlatform.

(** [Math.max] and [Math.min] on the numbers a setter can be given:
    [NaN], the infinities and the finite values (every finite binary64
    number is a rational, and neither function rounds). *)
Inductive number : Type :=
| NotANumber
| NegInfinity
| Finite (q : Q)
| PosInfinity.

Definition Math_max (a b : number) : number :=
  match a, b with
  | NotANumber, _ | _, NotANumber => NotANumber
  | PosInfinity, _ | _, PosInfinity => PosInfinity
  | NegInfinity, x | x, NegInfinity => x
  | Finite p, Finite q => if Qltb p q then Finite q else Finite p
  end.

Definition Math_min (a b : number) : number :=
  match a, b with
  | NotANumber, _ | _, NotANumber => NotANumber
  | NegInfinity, _ | _, NegInfinity => NegInfinity
  | PosInfinity, x | x, PosInfinity => x
  | Finite p, Finite q => if Qltb q p then Finite q else Finite p
  end.

(** The value [setConcurrency] stores. *)
Definition setConcurrency (concurrency : number) : number :=
  Math_max (Finite 1) (Math_min (Finite 8) concurrency).

(** The value [setBatchDelay] stores. *)
Definition setBatchDelay (delay : number) : number :=
  Math_max (Finite 500) delay.

End HttpOrchestrator.

(* ================================================================== *)
(** * The server: POST /scrape/sync                                   *)
(* ================================================================== *)

Module Server.

(** An element of the [urls] array of the request body: a string, or a
    value of another type. *)
Inductive value : Type :=
| VString (s : jsstring)
| VOther.


Record SyncData := {
  batchId : jsstring;
  timestamp : N;
  summary : Metadata.t;
  items : list ScrapedItem.t;
  errors : list jsstring
}.

Inductive response : Type :=
| Status400 (error : jsstring)
| Status200 (data : SyncData)
| Status500 (error : jsstring).




End Server.

(* ================================================================== *)
(** * Fixtures                                                        *)
(* ================================================================== *)

(** A reference platform and small pages, services and callbacks on which
    the functions above are evaluated. *)
Module Sample.

Definition lower_ascii (c : char16) : char16 :=
  if in_range 65 90 c then c + 32 else c.

Fixpoint take_host (s : jsstring) : jsstring :=
  match s with
  | [] => []
  | c :: t =>
      if (c =? 47) || (c =? 63) || (c =? 35) || (c =? 58) then []   (* / ? # : *)
      else lower_ascii c :: take_host t
  end.

(** Host names of plain [http(s)://host[:port][/...]] URLs with an ASCII
    host; anything else is taken as malformed. *)
Definition plain_hostname (u : jsstring) : option jsstring :=
  let host rest :=
    match take_host rest with
    | [] => None
    | h => Some h
    end in
  if startsWith u (str "https://") then host (skipn 8 u)
  else if startsWith u (str "http://") then host (skipn 7 u)
  else None.

Definition platform : Platform :=
  {| URL_hostname := plain_hostname; toLowerCase := map lower_ascii |}.

(** The profile registered for a domain, or the generic one. *)
Definition registered (domain : jsstring) : SiteConfig.t :=
  match Factory.lookup Factory.SITE_CONFIGS domain with
  | Some config => config
  | None => HttpOrchestrator.getGenericConfig domain
  end.

(** A container whose selectors answer the given title and price. *)
Definition element (title_sel title price_sel price : jsstring) : Dom.Element :=
  {| Dom.querySelector := fun sel =>
       if JS.eqb sel title_sel then Ok (Some title)
       else if JS.eqb sel price_sel then Ok (Some price)
       else Ok None;
     Dom.textContent := title ++ price |}.

Definition blank_element : Dom.Element :=
  {| Dom.querySelector := fun _ => Ok None; Dom.textContent := [] |}.

(** A page of turkpin.com with one priced row. *)
Definition turkpin_url : jsstring := str "https://www.turkpin.com/x".

Definition turkpin_row : Dom.Element :=
  element (str "h5") (str "PUBG 60 UC") (str "td.bold") (c_lira :: str "149,90").

Definition turkpin_document : Dom.Document :=
  {| Dom.querySelectorAll := fun sel =>
       if JS.eqb sel (str "tr") then Ok [turkpin_row] else Ok [] |}.

Definition page_with (doc : Dom.Document) : Browser.t :=
  {| Browser.launch := Ok tt;
     Browser.newPage := Ok tt;
     Browser.configure := Ok tt;
     Browser.setRequestInterception := Ok tt;
     Browser.goto_primary := Ok tt;
     Browser.goto_fallback := Ok tt;
     Browser.settle_and_scroll := Ok tt;
     Browser.waitForSelector := Ok tt;
     Browser.waitForTimeout := Ok tt;
     Browser.evaluate := Ok doc;
     Browser.page_close := Ok tt;
     Browser.browser_close := Ok tt;
     Browser.elapsed := 1200 |}.

Definition empty_document : Dom.Document :=
  {| Dom.querySelectorAll := fun _ => Ok [] |}.

(** A bypass service that answers "ok" with a page on which no selector
    matches. *)
Definition empty_service : Bypass.t :=
  {| Bypass.sessions_create := Throw (ErrorObj (str "session exists"));
     Bypass.request_get :=
       Ok {| Bypass.status := str "ok";
             Bypass.message := [];
             Bypass.solution_response := Ok {| Cheerio.select := fun _ => Ok [] |} |};
     Bypass.elapsed := 900 |}.

Definition turkpin_world (i : nat) : HttpOrchestrator.Site :=
  {| HttpOrchestrator.browser := page_with turkpin_document;
     HttpOrchestrator.bypass := empty_service |}.

(** 201 letters "a". *)
Definition long_text : jsstring := repeat 97 201.

Definition throwing_callback (processed total : nat) : result unit :=
  Throw (ErrorObj (str "progress failed")).

(** A page of playsultan.com: the first container selector matches one
    element without title or price, the second one also a priced card. *)
Definition playsultan_url : jsstring := str "https://www.playsultan.com/pubg".

Definition playsultan_card : Dom.Element :=
  element (str "h5") (str "PUBG 325 UC") (str "span.fiyat") (str "99,90 TL").

Definition playsultan_document : Dom.Document :=
  {| Dom.querySelectorAll := fun sel =>
       if JS.eqb sel (str "a div.product_item") then Ok [blank_element]
       else if JS.eqb sel (str "div.product_item") then Ok [blank_element; playsultan_card]
       else Ok [] |}.

Definition playsultan_config : SiteConfig.t := registered (str "playsultan.com").

(** A page with 60 priced rows under one selector. *)
Definition sixty_rows_document : Dom.Document :=
  {| Dom.querySelectorAll := fun sel =>
       if JS.eqb sel (str "tr") then Ok (repeat turkpin_row 60) else Ok [] |}.

(** A URL whose host is the name of a member of [Object.prototype], and a
    page on which the generic profile finds one priced product. *)
Definition inherited_url : jsstring := str "https://constructor/x".

Definition generic_document : Dom.Document :=
  {| Dom.querySelectorAll := fun sel =>
       if JS.eqb sel (str ".product")
       then Ok [element (str ".title") (str "PUBG 60 UC") (str ".price") (str "149,90 TL")]
       else Ok [] |}.

(** Stub extractors: the one for URL 0 throws, the others succeed with
    no items. *)
Definition stub_result (url : jsstring) : ScrapingResult.t :=
  {| ScrapingResult.success := true;
     ScrapingResult.url := url;
     ScrapingResult.items := [];
     ScrapingResult.error := None;
     ScrapingResult.responseTime := 5;
     ScrapingResult.siteName := Helpers.extractDomain platform url |}.

Definition stub_scrape (i : nat) (config : Factory.config_value) (url : jsstring)
  : result ScrapingResult.t :=
  match i with
  | O => Throw (ErrorObj (str "net::ERR_CONNECTION_RESET"))
  | S _ => Ok (stub_result url)
  end.

Definition stubs : HttpOrchestrator.Extractors :=
  {| HttpOrchestrator.flaresolverr_scrapeUrl := stub_scrape;
     HttpOrchestrator.puppeteer_scrapeUrl := stub_scrape;
     HttpOrchestrator.puppeteer_close := fun _ => Ok tt |}.

Definition bad_url : jsstring := str "https://bad.example.com/".
Definition good_url : jsstring := str "https://www.oyuneks.com/pubg".

(** A webhook whose first answer is a transport error and whose second
    would be a 200. *)
Definition flaky_hook : Webhook.t :=
  {| Webhook.answers := [Throw (ErrorObj (str "ECONNRESET")); Ok 200];
     Webhook.received := [] |}.

Definition item_priced (priceText : jsstring) : ScrapedItem.t :=
  {| ScrapedItem.title := str "PUBG 60 UC";
     ScrapedItem.price := priceText;
     ScrapedItem.currency := str "TRY";
     ScrapedItem.region := str "TR";
     ScrapedItem.url := turkpin_url;
     ScrapedItem.siteName := str "turkpin.com";
     ScrapedItem.gameSlug := str "pubg" |}.

Definition one_result_batch (items : list ScrapedItem.t) : BatchResult.t :=
  fst (HttpOrchestrator.createBatchResult [turkpin_url]
         [ {| ScrapingResult.success := true;
              ScrapingResult.url := turkpin_url;
              ScrapingResult.items := items;
              ScrapingResult.error := None;
              ScrapingResult.responseTime := 10;
              ScrapingResult.siteName := str "turkpin.com" |} ]
         (str "batch_1_abc") 1).

End Sample.

(** Words of the statements below. *)
Module Facts.

(** [s] starts with a digit. *)
Definition digit_led (s : jsstring) : Prop :=
  match s with
  | c :: _ => is_digit c = true
  | [] => False
  end.

(** [r] has no capture group. *)
Fixpoint groupless (r : regex) : bool :=
  match r with
  | Eps | Chr _ => true
  | Cat a b | Alt a b => groupless a && groupless b
  | Star a => groupless a
  | Grp _ => false
  end.

(** How the tables of [parsePrice] are built: the number with something
    without a group after it, before it, or the number alone. *)
Inductive price_pattern : regex -> Prop :=
| number_first (x : regex) :
    groupless x = true -> price_pattern (Cat re_number x)
| number_last (x y : regex) :
    groupless x = true -> groupless y = true ->
    price_pattern (Cat x (Cat y re_number))
| number_alone : price_pattern re_number.

(** [lines.join('\n')] *)
Fixpoint join_lines (lines : list jsstring) : jsstring :=
  match lines with
  | [] => []
  | [line] => line
  | line :: rest => line ++ 10 :: join_lines rest
  end.

(** A line that [scrapeFromFile] keeps as it is. *)
Definition url_line (u : jsstring) : Prop :=
  startsWith u (str "http") = true /\ trim u = u /\ ~ In 10 u.

(** What the rendering extractor writes into an item. *)
Definition rendered_currency (c : jsstring) : Prop :=
  c = str "USD" \/ c = str "EUR" \/ c = str "TRY".

Definition rendered_region (r : jsstring) : Prop :=
  r = str "Global" \/ r = str "EU" \/ r = str "US" \/ r = str "TR".

(** The currencies of the pattern table. *)
Definition table_currency (c : jsstring) : Prop :=
  c = Helpers.TRY \/ c = Helpers.USD \/ c = Helpers.EUR.

(** [s] has no lira sign. *)
Definition no_lira (s : jsstring) : Prop := Forall (fun c => (c_lira =? c) = false) s.

(** The scraper that [scrapeUrlHttp] calls for [url], at position [i] of
    the batch, throws [error]: the FlareSolverr scraper on a bypass
    domain; otherwise the Puppeteer scraper, or its [close] once it has
    returned. *)
Definition scraper_throws (P : Platform) (E : HttpOrchestrator.Extractors)
    (url : jsstring) (i : nat) (error : thrown) : Prop :=
  let domain := Helpers.extractDomain P url in
  let config := HttpOrchestrator.config_for domain in
  if Factory.has Factory.FLARESOLVERR_REQUIRED_DOMAINS domain
  then HttpOrchestrator.flaresolverr_scrapeUrl E i config url = Throw error
  else HttpOrchestrator.puppeteer_scrapeUrl E i config url = Throw error
       \/ exists r,
            HttpOrchestrator.puppeteer_scrapeUrl E i config url = Ok r
            /\ HttpOrchestrator.puppeteer_close E i = Throw error.

(** That scraper returns [result] (and, for the Puppeteer scraper, its
    [close] returns too). *)
Definition scraper_returns (P : Platform) (E : HttpOrchestrator.Extractors)
    (url : jsstring) (i : nat) (result : ScrapingResult.t) : Prop :=
  let domain := Helpers.extractDomain P url in
  let config := HttpOrchestrator.config_for domain in
  if Factory.has Factory.FLARESOLVERR_REQUIRED_DOMAINS domain
  then HttpOrchestrator.flaresolverr_scrapeUrl E i config url = Ok result
  else HttpOrchestrator.puppeteer_scrapeUrl E i config url = Ok result
       /\ HttpOrchestrator.puppeteer_close E i = Ok tt.

(** A numeral as the prices are written: digits, or digits, a period or
    a comma, and digits; with the number it denotes, the separator read
    as the decimal point. *)
Inductive numeral : jsstring -> Q -> Prop :=
| integer (d : jsstring) :
    Forall (fun c => is_digit c = true) d -> d <> [] ->
    numeral d (decimal d [])
| fraction (d1 d2 : jsstring) (sep : char16) :
    Forall (fun c => is_digit c = true) d1 -> d1 <> [] ->
    Forall (fun c => is_digit c = true) d2 -> d2 <> [] ->
    is_sep sep = true ->
    numeral (d1 ++ sep :: d2) (decimal d1 d2).

(** The currency marks the pattern table knows, with their currency. *)
Definition marks : list (jsstring * jsstring) :=
  [ ([c_lira], Helpers.TRY);
    (str "TL", Helpers.TRY); (str "tl", Helpers.TRY);
    (str "Tl", Helpers.TRY); (str "tL", Helpers.TRY);
    (str "$", Helpers.USD);
    ([c_euro], Helpers.EUR) ].

(** A unit that is no white space and no part of a numeral, and that
    neither the rows of the currency [cur] nor the rows before them
    look for. *)
Definition foreign (cur : jsstring) (c : char16) : bool :=
  negb (is_space c) && negb (is_digit c) && negb (is_sep c)
  && negb (c =? c_lira) && negb ((c =? 84) || (c =? 116))
  && (JS.eqb cur (str "TRY") || negb (c =? c_dollar))
  && (negb (JS.eqb cur (str "EUR")) || negb (c =? c_euro)).

(** [r] fails on a text that is empty or whose first unit is not in [p]. *)
Definition needs_head (p : char16 -> bool) (r : regex) : Prop :=
  forall (A : Type) (s : jsstring) (g : option jsstring)
         (k : jsstring -> option jsstring -> option A),
    match s with c :: _ => p c = false | [] => True end ->
    rmatch r s g k = None.

(** [r] reads [mark] at the start of a text, and nothing else. *)
Definition reads (r : regex) (mark : jsstring) : Prop :=
  forall (A : Type) (rest : jsstring) (g : option jsstring)
         (k : jsstring -> option jsstring -> option A),
    rmatch r (mark ++ rest) g k = k rest g.

(** [p] holds of no digit, separator or space. *)
Definition alien (p : char16 -> bool) : Prop :=
  forall c, is_digit c = true \/ is_sep c = true \/ c = c_space -> p c = false.

(** A row of the table built on the mark regex [r]. *)
Definition row_of (r : regex) (row : regex) : Prop :=
  row = Cat re_number (Cat re_ws r) \/ row = Cat r (Cat re_ws re_number).

(** A page whose navigation steps answer [primary] and [fallback]. *)
Definition with_navigation (page : Browser.t) (primary fallback : result unit)
  : Browser.t :=
  {| Browser.launch := Browser.launch page;
     Browser.newPage := Browser.newPage page;
     Browser.configure := Browser.configure page;
     Browser.setRequestInterception := Browser.setRequestInterception page;
     Browser.goto_primary := primary;
     Browser.goto_fallback := fallback;
     Browser.settle_and_scroll := Browser.settle_and_scroll page;
     Browser.waitForSelector := Browser.waitForSelector page;
     Browser.waitForTimeout := Browser.waitForTimeout page;
     Browser.evaluate := Browser.evaluate page;
     Browser.page_close := Browser.page_close page;
     Browser.browser_close := Browser.browser_close page;
     Browser.elapsed := Browser.elapsed page |}.

(** A bypass service whose session creation answers [session]. *)
Definition with_session (service : Bypass.t) (session : result unit) : Bypass.t :=
  {| Bypass.sessions_create := session;
     Bypass.request_get := Bypass.request_get service;
     Bypass.elapsed := Bypass.elapsed service |}.

End Facts.

(* ================================================================== *)
(** * Properties of the string layer                                  *)
(* ================================================================== *)

Lemma digit_not_space (c : char16) : is_digit c = true -> is_space c = false.
Proof.
  unfold is_digit, is_space, in_range. intros H.
  apply andb_true_iff in H. destruct H as [H1 H2].
  apply N.leb_le in H1. apply N.leb_le in H2.
  repeat match goal with
         | |- context [(?a <=? ?b)] => destruct (N.leb_spec a b); try lia
         | |- context [(?a =? ?b)] => destruct (N.eqb_spec a b); try lia
         end; reflexivity.
Qed.

Lemma digit_not_comma (c : char16) : is_digit c = true -> (c_comma =? c) = false.
Proof.
  unfold is_digit, in_range, c_comma. intros H.
  apply andb_true_iff in H. destruct H as [H1 _]. apply N.leb_le in H1.
  apply N.eqb_neq. lia.
Qed.

Lemma eqb_eq (a b : jsstring) : JS.eqb a b = true <-> a = b.
Proof.
  revert b. induction a as [|x a IH]; intros [|y b]; simpl; split; intro H;
    try reflexivity; try discriminate.
  - apply andb_true_iff in H. destruct H as [H1 H2].
    apply N.eqb_eq in H1. apply IH in H2. congruence.
  - injection H as -> ->. rewrite N.eqb_refl. simpl. apply IH. reflexivity.
Qed.

(** ** [trim] *)

Lemma trimStart_clean (s : jsstring) : starts_clean (trimStart s) = true.
Proof.
  induction s as [|c t IH]; simpl; [reflexivity|].
  destruct (is_space c) eqn:E; [exact IH|]. simpl. now rewrite E.
Qed.

Lemma trimStart_snoc (l : jsstring) (c : char16) :
  is_space c = false -> trimStart (l ++ [c]) = trimStart l ++ [c].
Proof.
  intros Hc. induction l as [|x l IH]; simpl.
  - now rewrite Hc.
  - destruct (is_space x); [exact IH | reflexivity].
Qed.

Lemma trimEnd_cons (c : char16) (t : jsstring) :
  is_space c = false -> trimEnd (c :: t) = c :: trimEnd t.
Proof.
  intros Hc. unfold trimEnd. simpl rev.
  rewrite (trimStart_snoc _ _ Hc), rev_app_distr. reflexivity.
Qed.

Lemma trim_starts_clean (s : jsstring) : starts_clean (trim s) = true.
Proof.
  unfold trim. pose proof (trimStart_clean s) as H.
  destruct (trimStart s) as [|c t]; [reflexivity|].
  simpl in H. apply negb_true_iff in H.
  rewrite (trimEnd_cons _ _ H). simpl. now rewrite H.
Qed.

Lemma trim_ends_clean (s : jsstring) : starts_clean (rev (trim s)) = true.
Proof.
  unfold trim, trimEnd. rewrite rev_involutive. apply trimStart_clean.
Qed.

Lemma Forall_trimStart (Q : char16 -> Prop) (s : jsstring) :
  Forall Q s -> Forall Q (trimStart s).
Proof.
  induction 1 as [|c t Hc Ht IH]; simpl; [constructor|].
  destruct (is_space c); [exact IH | now constructor].
Qed.

Lemma Forall_trim (Q : char16 -> Prop) (s : jsstring) :
  Forall Q s -> Forall Q (trim s).
Proof.
  intros H. unfold trim, trimEnd.
  apply Forall_rev, Forall_trimStart, Forall_rev, Forall_trimStart, H.
Qed.

Lemma trimStart_id (s : jsstring) : starts_clean s = true -> trimStart s = s.
Proof.
  destruct s as [|c t]; simpl; [reflexivity|].
  intros H. apply negb_true_iff in H. now rewrite H.
Qed.

Lemma trim_id (s : jsstring) :
  Forall (fun c => is_space c = false) s -> trim s = s.
Proof.
  intros H. unfold trim, trimEnd.
  assert (Hs : forall l, Forall (fun c => is_space c = false) l -> trimStart l = l).
  { intros l Hl. apply trimStart_id. destruct Hl as [|c t Hc _]; simpl; [reflexivity|].
    now rewrite Hc. }
  rewrite (Hs s H), (Hs (rev s)) by (apply Forall_rev, H).
  apply rev_involutive.
Qed.

(** ** [replace(/\s+/g, ' ')] *)

Lemma collapse_only_plain_spaces (b : bool) (s : jsstring) :
  Forall (fun c => is_space c = true -> c = c_space) (collapse_from b s).
Proof.
  revert b. induction s as [|c t IH]; intros b; simpl; [constructor|].
  destruct (is_space c) eqn:E.
  - destruct b; [apply IH|]. constructor; [reflexivity | apply IH].
  - constructor; [|apply IH]. intros H. congruence.
Qed.

Lemma collapse_in_run_clean (s : jsstring) :
  starts_clean (collapse_from true s) = true.
Proof.
  induction s as [|c t IH]; simpl; [reflexivity|].
  destruct (is_space c) eqn:E; [exact IH|]. simpl. now rewrite E.
Qed.

Lemma single_spaced_cons (a : char16) (t : jsstring) :
  single_spaced t = true ->
  (is_space a = true -> starts_clean t = true) ->
  single_spaced (a :: t) = true.
Proof.
  intros Ht Ha. destruct t as [|b t']; [reflexivity|].
  change (negb (is_space a && is_space b) && single_spaced (b :: t') = true).
  rewrite Ht, andb_true_r.
  destruct (is_space a); [|reflexivity].
  specialize (Ha eq_refl). simpl in Ha. apply negb_true_iff in Ha. now rewrite Ha.
Qed.

Lemma collapse_single_spaced (b : bool) (s : jsstring) :
  single_spaced (collapse_from b s) = true.
Proof.
  revert b. induction s as [|c t IH]; intros b; [reflexivity|].
  simpl collapse_from. destruct (is_space c) eqn:E.
  - destruct b; [apply IH|].
    apply single_spaced_cons; [apply IH|]. intros _. apply collapse_in_run_clean.
  - apply single_spaced_cons; [apply IH|]. intros H. congruence.
Qed.

Lemma collapse_keeps_visible (b : bool) (s : jsstring) :
  filter (fun c => negb (is_space c)) (collapse_from b s)
  = filter (fun c => negb (is_space c)) s.
Proof.
  revert b. induction s as [|c t IH]; intros b; simpl; [reflexivity|].
  destruct (is_space c) eqn:E; simpl.
  - destruct b; simpl; apply IH.
  - rewrite E. simpl. f_equal. apply IH.
Qed.

Lemma collapse_id (s : jsstring) :
  Forall (fun c => is_space c = false) s -> collapse_from false s = s.
Proof.
  induction 1 as [|c t Hc Ht IH]; simpl; [reflexivity|].
  rewrite Hc. f_equal. exact IH.
Qed.

Lemma Forall_collapse (Q : char16 -> Prop) (b : bool) (s : jsstring) :
  Q c_space -> Forall Q s -> Forall Q (collapse_from b s).
Proof.
  intros Hsp H. revert b. induction H as [|c t Hc Ht IH]; intros b; simpl; [constructor|].
  destruct (is_space c); [destruct b|]; try apply IH; constructor; auto.
Qed.

Lemma filter_id {A} (f : A -> bool) (l : list A) :
  Forall (fun x => f x = true) l -> filter f l = l.
Proof.
  induction 1 as [|x t Hx Ht IH]; simpl; [reflexivity|]. rewrite Hx. now f_equal.
Qed.

Lemma Forall_filter_both {A} (f : A -> bool) (Q : A -> Prop) (l : list A) :
  Forall Q l -> Forall (fun x => f x = true /\ Q x) (filter f l).
Proof.
  induction 1 as [|x t Hx Ht IH]; simpl; [constructor|].
  destruct (f x) eqn:E; [constructor; auto | exact IH].
Qed.

(** ** The matcher *)

Section ClosedUnderTail.
Variable Q : jsstring -> Prop.
Hypothesis Q_tail : forall c s, Q (c :: s) -> Q s.

(** A match only ever hands a suffix of the subject to its continuation:
    if the continuation fails on every string of a class closed under
    tail, so does the match. *)
Lemma rmatch_closed {A} (r : regex) :
  forall s g (k : jsstring -> option jsstring -> option A),
    Q s -> (forall s' g', Q s' -> k s' g' = None) -> rmatch r s g k = None.
Proof.
  induction r as [|p|a IHa b IHb|a IHa b IHb|a IHa|a IHa]; intros s g k Hs Hk; simpl.
  - now apply Hk.
  - destruct s as [|c t]; [reflexivity|].
    destruct (p c); [|reflexivity]. apply Hk. eapply Q_tail; eassumption.
  - apply IHa; [assumption|]. intros s' g' Hs'. now apply IHb.
  - rewrite IHa, IHb by assumption. reflexivity.
  - generalize (length s) as n. intros n. revert s g Hs.
    induction n as [|n IHn]; intros s g Hs.
    + now apply Hk.
    + rewrite IHa; [simpl; now apply Hk | assumption |].
      intros s' g' Hs'. destruct (length s' <? length s)%nat; [|reflexivity].
      now apply IHn.
  - apply IHa; [assumption|]. intros s' g' Hs'. now apply Hk.
Qed.

Lemma exec_from_closed (r : regex) :
  (forall s, Q s -> rmatch r s None (fun s' g => Some (s', g)) = None) ->
  forall s i, Q s -> exec_from r i s = None.
Proof.
  intros Hr. induction s as [|c t IH]; intros i Hs; simpl; rewrite (Hr _ Hs).
  - reflexivity.
  - apply IH. eapply Q_tail; eassumption.
Qed.

End ClosedUnderTail.

Lemma digit_free_tail (c : char16) (s : jsstring) : digit_free (c :: s) -> digit_free s.
Proof. intros H. now inversion H. Qed.

Lemma digit_free_existsb (s : jsstring) : existsb is_digit s = false <-> digit_free s.
Proof.
  unfold digit_free. induction s as [|c t IH]; simpl.
  - split; [constructor | reflexivity].
  - rewrite orb_false_iff, IH. split.
    + intros [H1 H2]. now constructor.
    + intros H. inversion H. now split.
Qed.

(** The number pattern needs a digit at the very place where it starts. *)
Lemma rmatch_number_needs_digit {A} (s : jsstring) (g : option jsstring)
    (k : jsstring -> option jsstring -> option A) :
  digit_free s -> rmatch re_number s g k = None.
Proof.
  intros H. unfold re_number, Plus. simpl.
  destruct H as [|c t Hc _]; [reflexivity|]. now rewrite Hc.
Qed.

Lemma exec_number_first (x : regex) (s : jsstring) :
  digit_free s -> exec (Cat re_number x) s = None.
Proof.
  intros H. unfold exec. apply (exec_from_closed digit_free digit_free_tail); [|exact H].
  intros s' Hs'. change (rmatch (Cat re_number x) s' None (fun s0 g => Some (s0, g)))
    with (rmatch re_number s' None
            (fun s1 g1 => rmatch x s1 g1 (fun s0 g => Some (s0, g)))).
  now apply rmatch_number_needs_digit.
Qed.

Lemma exec_number_last (x y : regex) (s : jsstring) :
  digit_free s -> exec (Cat x (Cat y re_number)) s = None.
Proof.
  intros H. unfold exec. apply (exec_from_closed digit_free digit_free_tail); [|exact H].
  intros s' Hs'.
  change (rmatch (Cat x (Cat y re_number)) s' None (fun s0 g => Some (s0, g)))
    with (rmatch x s' None
            (fun s1 g1 => rmatch y s1 g1
               (fun s2 g2 => rmatch re_number s2 g2 (fun s0 g => Some (s0, g))))).
  apply (rmatch_closed digit_free digit_free_tail); [exact Hs'|].
  intros s1 g1 H1. apply (rmatch_closed digit_free digit_free_tail); [exact H1|].
  intros s2 g2 H2. now apply rmatch_number_needs_digit.
Qed.

Lemma exec_number_alone (s : jsstring) : digit_free s -> exec re_number s = None.
Proof.
  intros H. unfold exec. apply (exec_from_closed digit_free digit_free_tail); [|exact H].
  intros s' Hs'. now apply rmatch_number_needs_digit.
Qed.

(** ** [parsePrice] *)

Lemma first_match_digit_free (cleaned : jsstring) :
  digit_free cleaned ->
  Helpers.first_match Helpers.patterns cleaned
  = {| Helpers.price := Num 0%Q; Helpers.currency := Helpers.TRY |}.
Proof.
  intros H. unfold Helpers.patterns. simpl Helpers.first_match.
  rewrite !(exec_number_first _ _ H), !(exec_number_last _ _ _ H), (exec_number_alone _ H).
  reflexivity.
Qed.

Lemma cleaned_digit_free (text : jsstring) :
  digit_free text -> digit_free (trim (replace_ws_runs text)).
Proof.
  intros H. apply Forall_trim. apply Forall_collapse; [reflexivity | exact H].
Qed.

Lemma parsePrice_digit_free (text : jsstring) :
  digit_free text ->
  Helpers.parsePrice text
  = {| Helpers.price := Num 0%Q; Helpers.currency := Helpers.TRY |}.
Proof.
  intros H. unfold Helpers.parsePrice. destruct (is_empty text); [reflexivity|].
  apply first_match_digit_free, cleaned_digit_free, H.
Qed.

Lemma first_match_wins (pre post : list (regex * jsstring)) (re : regex)
    (cur cleaned g : jsstring) :
  (forall p, In p pre -> Helpers.truthy_group (exec (fst p) cleaned) = None) ->
  Helpers.truthy_group (exec re cleaned) = Some g ->
  Helpers.first_match (pre ++ (re, cur) :: post) cleaned
  = {| Helpers.price := parseFloat (replace_first [c_comma] [c_dot] g);
       Helpers.currency := cur |}.
Proof.
  intros Hpre Hre. induction pre as [|[re0 cur0] pre IH]; simpl.
  - now rewrite Hre.
  - pose proof (Hpre (re0, cur0) (or_introl eq_refl)) as H0. cbn [fst] in H0.
    rewrite H0. apply IH. intros p Hp. apply Hpre. now right.
Qed.

Lemma n8n_parsePrice_same (text : jsstring) :
  N8NClient.parsePrice text = Helpers.parsePrice text.
Proof. reflexivity. Qed.

(** ** Decimal comma *)

Lemma replace_first_skip (p rep : jsstring) (c : char16) (s : jsstring) :
  startsWith (c :: s) p = false ->
  replace_first p rep (c :: s) = c :: replace_first p rep s.
Proof. intros H. cbn [replace_first]. now rewrite H. Qed.

Lemma replace_comma_after_digits (d1 d2 : jsstring) :
  Forall (fun c => is_digit c = true) d1 ->
  replace_first [c_comma] [c_dot] (d1 ++ c_comma :: d2) = d1 ++ c_dot :: d2.
Proof.
  induction 1 as [|c t Hc Ht IH].
  - reflexivity.
  - rewrite <- !app_comm_cons, replace_first_skip; [now f_equal|].
    cbn [startsWith]. now rewrite (digit_not_comma _ Hc).
Qed.

Lemma span_digits_all (d rest : jsstring) :
  Forall (fun c => is_digit c = true) d ->
  match rest with c :: _ => is_digit c = false | [] => True end ->
  span_digits (d ++ rest) = (d, rest).
Proof.
  intros Hd Hrest. induction Hd as [|c t Hc Ht IH]; cbn [span_digits app].
  - destruct rest as [|c r]; [reflexivity|]. cbn [span_digits]. now rewrite Hrest.
  - rewrite Hc, IH. reflexivity.
Qed.

Lemma parseFloat_decimal (d1 d2 : jsstring) :
  Forall (fun c => is_digit c = true) d1 ->
  Forall (fun c => is_digit c = true) d2 ->
  d1 <> [] ->
  parseFloat (d1 ++ c_dot :: d2) = Num (decimal d1 d2).
Proof.
  intros H1 H2 Hne. unfold parseFloat.
  assert (Hts : trimStart (d1 ++ c_dot :: d2) = d1 ++ c_dot :: d2).
  { apply trimStart_id. destruct H1 as [|c t Hc _]; [congruence|].
    simpl. now rewrite (digit_not_space _ Hc). }
  rewrite Hts, (span_digits_all d1 (c_dot :: d2) H1) by reflexivity.
  rewrite N.eqb_refl.
  replace d2 with (d2 ++ []) at 1 by apply app_nil_r.
  rewrite (span_digits_all d2 [] H2) by exact I.
  destruct d1; [congruence | reflexivity].
Qed.

(** ** [replace] with a string pattern *)

Lemma replace_first_absent (p rep s : jsstring) :
  includes s p = false -> replace_first p rep s = s.
Proof.
  induction s as [|c t IH]; cbn [includes replace_first]; intros H.
  - now rewrite H.
  - apply orb_false_iff in H. destruct H as [H1 H2]. rewrite H1. f_equal. now apply IH.
Qed.

Lemma replace_first_www_prefix (h : jsstring) :
  replace_first (str "www.") [] (str "www." ++ h) = h.
Proof. reflexivity. Qed.

(* ================================================================== *)
(** * utils/helpers.ts: the text normalizer                           *)
(* ================================================================== *)

Lemma extractDomain_malformed (P : Platform) (url : jsstring) :
  URL_hostname P url = None -> Helpers.extractDomain P url = [].
Proof. unfold Helpers.extractDomain. now intros ->. Qed.

Lemma extractDomain_leading_www (P : Platform) (url h : jsstring) :
  URL_hostname P url = Some (str "www." ++ h) -> Helpers.extractDomain P url = h.
Proof. unfold Helpers.extractDomain. intros ->. apply replace_first_www_prefix. Qed.

Lemma extractDomain_without_www (P : Platform) (url h : jsstring) :
  URL_hostname P url = Some h -> includes h (str "www.") = false ->
  Helpers.extractDomain P url = h.
Proof. unfold Helpers.extractDomain. intros -> H. now apply replace_first_absent. Qed.

Lemma extractDomain_turkpin :
  Helpers.extractDomain Sample.platform (str "https://www.turkpin.com/x")
  = str "turkpin.com".
Proof. reflexivity. Qed.

(** C7: [extractDomain] removes the first "www." wherever it stands in the
    host name, not only a leading one: for the host "awww.example.com" it
    returns "aexample.com" where the specification asks for the host
    unchanged. *)
Theorem C7_extractDomain_strips_inner_www (P : Platform) (url : jsstring) :
  URL_hostname P url = Some (str "awww.example.com") ->
  Helpers.extractDomain P url = str "aexample.com"
  /\ Helpers.extractDomain P url <> str "awww.example.com".
Proof.
  unfold Helpers.extractDomain. intros ->. split; [reflexivity|].
  intros H. vm_compute in H. discriminate H.
Qed.

Lemma C7_extractDomain_strips_inner_www_witness :
  Helpers.extractDomain Sample.platform (str "https://awww.example.com/x")
  = str "aexample.com"
  /\ Helpers.extractDomain Sample.platform (str "https://awww.example.com/x")
     <> str "awww.example.com".
Proof.
  apply (C7_extractDomain_strips_inner_www Sample.platform
           (str "https://awww.example.com/x")).
  reflexivity.
Defined.

(** C6 (as stated, refuted): the result of [sanitizeText] is not capped at
    200 units; 201 letters come back as they are. *)
Lemma C6_sanitizeText_not_capped :
  ~ (length (Helpers.sanitizeText Sample.long_text) <= 200)%nat.
Proof. intros H. vm_compute in H. lia. Qed.

(** ** The three stages of [sanitizeText] *)

Lemma trimStart_spaces (ws x : jsstring) :
  Forall (fun c => is_space c = true) ws -> trimStart (ws ++ x) = trimStart x.
Proof. induction 1 as [|c t Hc Ht IH]; [reflexivity|]. cbn. now rewrite Hc. Qed.

Lemma starts_clean_visible (s : jsstring) :
  Forall (fun c => is_space c = false) s -> starts_clean s = true.
Proof. intros [|c t Hc _]; [reflexivity|]. cbn. now rewrite Hc. Qed.

Lemma starts_clean_app (a b : jsstring) :
  a <> [] -> starts_clean (a ++ b) = starts_clean a.
Proof. destruct a; [congruence | reflexivity]. Qed.

(** [trim] removes the white space around a text that neither starts nor
    ends with white space. *)
Lemma trim_core (ws1 core ws2 : jsstring) :
  Forall (fun c => is_space c = true) ws1 ->
  Forall (fun c => is_space c = true) ws2 ->
  starts_clean core = true -> starts_clean (rev core) = true ->
  trim (ws1 ++ core ++ ws2) = core.
Proof.
  intros H1 H2 Hs He. unfold trim, trimEnd. rewrite (trimStart_spaces ws1 _ H1).
  destruct core as [|c core].
  - cbn [app]. replace ws2 with (ws2 ++ []) by apply app_nil_r.
    rewrite (trimStart_spaces ws2 [] H2). reflexivity.
  - rewrite (trimStart_id ((c :: core) ++ ws2)) by exact Hs.
    rewrite rev_app_distr, (trimStart_spaces (rev ws2)) by (apply Forall_rev, H2).
    rewrite (trimStart_id _ He). apply rev_involutive.
Qed.

Lemma collapse_true_spaces (ws b : jsstring) :
  Forall (fun c => is_space c = true) ws ->
  collapse_from true (ws ++ b) = collapse_from true b.
Proof. induction 1 as [|c t Hc Ht IH]; [reflexivity|]. cbn. now rewrite Hc. Qed.

Lemma collapse_true_clean (b : jsstring) :
  starts_clean b = true -> collapse_from true b = collapse_from false b.
Proof.
  destruct b as [|c t]; [reflexivity|]. cbn. destruct (is_space c); [discriminate|reflexivity].
Qed.

(** A run of white space before a text that does not start with white
    space becomes one space. *)
Lemma collapse_gap (ws b : jsstring) :
  Forall (fun c => is_space c = true) ws -> starts_clean b = true ->
  collapse_from false (ws ++ b)
  = (if is_empty ws then [] else [c_space]) ++ collapse_from false b.
Proof.
  intros [|c t Hc Ht] Hb; [reflexivity|].
  cbn [app collapse_from is_empty]. rewrite Hc.
  now rewrite (collapse_true_spaces t b Ht), (collapse_true_clean b Hb).
Qed.

Lemma collapse_app_clean (a t : jsstring) :
  forall f,
    a <> [] -> starts_clean (rev a) = true ->
    collapse_from f (a ++ t) = collapse_from f a ++ collapse_from false t.
Proof.
  induction a as [|c a IH]; intros f Hne He; [congruence|].
  destruct a as [|c' a].
  - cbn in He. cbn. destruct (is_space c); [discriminate|reflexivity].
  - assert (He' : starts_clean (rev (c' :: a)) = true).
    { cbn [rev] in He. rewrite starts_clean_app in He; [exact He|].
      cbn [rev]. now destruct (rev a). }
    assert (Hl : c' :: a <> []) by discriminate.
    remember (c' :: a) as l eqn:El. clear El He.
    cbn [app collapse_from].
    destruct (is_space c); [destruct f|]; rewrite (IH _ Hl He'); reflexivity.
Qed.

(** [replace(/\s+/g, ' ')]: a maximal run of white space becomes one
    space, and what stands before and after it is treated on its own. *)
Lemma collapse_run (a ws b : jsstring) :
  ws <> [] -> Forall (fun c => is_space c = true) ws ->
  starts_clean (rev a) = true -> starts_clean b = true ->
  replace_ws_runs (a ++ ws ++ b) = replace_ws_runs a ++ c_space :: replace_ws_runs b.
Proof.
  intros Hne Hws Ha Hb. unfold replace_ws_runs.
  assert (Hgap : collapse_from false (ws ++ b) = c_space :: collapse_from false b).
  { rewrite (collapse_gap ws b Hws Hb). destruct ws; [congruence | reflexivity]. }
  destruct a as [|c a]; [exact Hgap|].
  rewrite collapse_app_clean by (discriminate || exact Ha). now rewrite Hgap.
Qed.

Lemma whitelisted_iff (c : char16) :
  Helpers.whitelisted c = true
  <-> (48 <= c <= 57 \/ 65 <= c <= 90 \/ 97 <= c <= 122 \/ c = 95)
      \/ is_space c = true
      \/ c = 45 \/ c = 95 \/ c = 46 \/ c = 8378 \/ c = 36 \/ c = 8364.
Proof.
  unfold Helpers.whitelisted, is_word, is_digit, in_range,
    c_minus, c_underscore, c_dot, c_lira, c_dollar, c_euro.
  rewrite !orb_true_iff, !andb_true_iff, !N.leb_le, !N.eqb_eq. tauto.
Qed.

(** Two words with white space around and between them. *)
Lemma sanitizeText_two_words (ws0 w1 ws1 w2 ws2 : jsstring) :
  Forall (fun c => is_space c = true) ws0 ->
  Forall (fun c => is_space c = true) ws1 -> ws1 <> [] ->
  Forall (fun c => is_space c = true) ws2 ->
  Forall (fun c => Helpers.whitelisted c = true /\ is_space c = false) w1 -> w1 <> [] ->
  Forall (fun c => Helpers.whitelisted c = true /\ is_space c = false) w2 -> w2 <> [] ->
  Helpers.sanitizeText (ws0 ++ w1 ++ ws1 ++ w2 ++ ws2) = w1 ++ c_space :: w2.
Proof.
  intros H0 H1 N1 H2 Hw1 Nw1 Hw2 Nw2.
  assert (V1 : Forall (fun c => is_space c = false) w1)
    by (eapply Forall_impl; [|exact Hw1]; now intros c [_ Hc]).
  assert (V2 : Forall (fun c => is_space c = false) w2)
    by (eapply Forall_impl; [|exact Hw2]; now intros c [_ Hc]).
  assert (L1 : Forall (fun c => Helpers.whitelisted c = true) w1)
    by (eapply Forall_impl; [|exact Hw1]; now intros c [Hc _]).
  assert (L2 : Forall (fun c => Helpers.whitelisted c = true) w2)
    by (eapply Forall_impl; [|exact Hw2]; now intros c [Hc _]).
  assert (E1 : starts_clean (rev w1) = true)
    by (apply starts_clean_visible, Forall_rev, V1).
  assert (E2 : starts_clean (rev w2) = true)
    by (apply starts_clean_visible, Forall_rev, V2).
  assert (S1 : starts_clean w1 = true) by (now apply starts_clean_visible).
  assert (S2 : starts_clean w2 = true) by (now apply starts_clean_visible).
  set (lead := if is_empty ws0 then [] else [c_space]).
  set (trail := if is_empty ws2 then [] else [c_space]).
  assert (Hc : replace_ws_runs (ws0 ++ w1 ++ ws1 ++ w2 ++ ws2)
               = lead ++ (w1 ++ c_space :: w2) ++ trail).
  { unfold replace_ws_runs.
    rewrite collapse_gap by (try exact H0; now rewrite starts_clean_app).
    fold lead. f_equal.
    rewrite collapse_app_clean by assumption. rewrite (collapse_id w1 V1).
    rewrite <- app_assoc. f_equal.
    rewrite collapse_gap by (try exact H1; now rewrite starts_clean_app).
    destruct ws1 as [|s1 ws1]; [congruence|]. cbn [is_empty app]. f_equal.
    rewrite collapse_app_clean by assumption. rewrite (collapse_id w2 V2). f_equal.
    replace ws2 with (ws2 ++ []) by apply app_nil_r.
    rewrite collapse_gap by (try exact H2; reflexivity).
    now rewrite app_nil_r. }
  assert (Hlead : Forall (fun c => is_space c = true) lead)
    by (unfold lead; destruct (is_empty ws0); repeat constructor).
  assert (Htrail : Forall (fun c => is_space c = true) trail)
    by (unfold trail; destruct (is_empty ws2); repeat constructor).
  unfold Helpers.sanitizeText. rewrite Hc, filter_id.
  - apply trim_core; try assumption.
    + now rewrite starts_clean_app.
    + rewrite rev_app_distr. cbn [rev]. rewrite <- app_assoc.
      rewrite starts_clean_app; [exact E2|].
      destruct w2; [congruence|]. cbn [rev]. now destruct (rev w2).
  - apply Forall_app. split.
    { eapply Forall_impl; [|exact Hlead]. intros c Hc'.
      apply whitelisted_iff. tauto. }
    apply Forall_app. split.
    { apply Forall_app. split; [exact L1|]. constructor; [reflexivity | exact L2]. }
    eapply Forall_impl; [|exact Htrail]. intros c Hc'. apply whitelisted_iff. tauto.
Qed.

(** C6 (amended): for every input, [sanitizeText] collapses each run of
    white space to one U+0020 (a maximal run becomes exactly one space,
    the text before and after it being treated on its own, and a text
    without white space is left as it is), then removes the units outside
    the whitelist (word characters, white space, '-', '_', '.', the lira,
    dollar and euro signs), then trims the white space at both ends; so
    two whitelisted words with white space around and between them come
    back separated by one space. The result has only whitelisted units and
    no white space at either end. Its length is not capped: a text of
    whitelisted units without white space is returned unchanged, whatever
    its length. *)
Theorem C6_sanitizeText_collapses_strips_trims (text : jsstring) :
  let collapsed := replace_ws_runs text in
  let r := Helpers.sanitizeText text in
  let blank ws := Forall (fun c => is_space c = true) ws in
  let word w :=
    Forall (fun c => Helpers.whitelisted c = true /\ is_space c = false) w /\ w <> [] in
  (forall a ws b,
     ws <> [] -> blank ws -> starts_clean (rev a) = true -> starts_clean b = true ->
     replace_ws_runs (a ++ ws ++ b) = replace_ws_runs a ++ c_space :: replace_ws_runs b)
  /\ (forall t, Forall (fun c => is_space c = false) t -> replace_ws_runs t = t)
  /\ single_spaced collapsed = true
  /\ Forall (fun c => is_space c = true -> c = c_space) collapsed
  /\ filter (fun c => negb (is_space c)) collapsed
     = filter (fun c => negb (is_space c)) text
  /\ (forall c,
        Helpers.whitelisted c = true
        <-> (48 <= c <= 57 \/ 65 <= c <= 90 \/ 97 <= c <= 122 \/ c = 95)
            \/ is_space c = true
            \/ c = 45 \/ c = 95 \/ c = 46 \/ c = 8378 \/ c = 36 \/ c = 8364)
  /\ (forall ws1 core ws2,
        blank ws1 -> blank ws2 ->
        starts_clean core = true -> starts_clean (rev core) = true ->
        trim (ws1 ++ core ++ ws2) = core)
  /\ r = trim (filter Helpers.whitelisted collapsed)
  /\ (forall ws0 w1 ws1 w2 ws2,
        blank ws0 -> blank ws1 -> ws1 <> [] -> blank ws2 -> word w1 -> word w2 ->
        Helpers.sanitizeText (ws0 ++ w1 ++ ws1 ++ w2 ++ ws2) = w1 ++ c_space :: w2)
  /\ Forall (fun c => Helpers.whitelisted c = true
                      /\ (is_space c = true -> c = c_space)) r
  /\ starts_clean r = true
  /\ starts_clean (rev r) = true
  /\ (Forall (fun c => Helpers.whitelisted c = true /\ is_space c = false) text ->
      r = text).
Proof.
  cbv zeta.
  split; [intros a ws b; apply collapse_run|].
  split; [intros t; apply collapse_id|].
  split; [apply collapse_single_spaced|].
  split; [apply collapse_only_plain_spaces|].
  split; [apply collapse_keeps_visible|].
  split; [apply whitelisted_iff|].
  split; [intros ws1 core ws2; apply trim_core|].
  split; [reflexivity|].
  split.
  { intros ws0 w1 ws1 w2 ws2 H0 H1 N1 H2 [Hw1 Nw1] [Hw2 Nw2].
    now apply sanitizeText_two_words. }
  unfold Helpers.sanitizeText, replace_ws_runs.
  split; [apply Forall_trim, Forall_filter_both, collapse_only_plain_spaces|].
  split; [apply trim_starts_clean|].
  split; [apply trim_ends_clean|].
  intros H.
  assert (Hns : Forall (fun c => is_space c = false) text).
  { eapply Forall_impl; [|exact H]. now intros c [_ Hc]. }
  assert (Hw : Forall (fun c => Helpers.whitelisted c = true) text).
  { eapply Forall_impl; [|exact H]. now intros c [Hc _]. }
  rewrite (collapse_id _ Hns), (filter_id _ _ Hw). now apply trim_id.
Qed.

Lemma C6_sanitizeText_collapses_strips_trims_witness :
  Helpers.sanitizeText Sample.long_text = Sample.long_text
  /\ Helpers.sanitizeText (str "  PUBG" ++ [9; 10; 32] ++ str "Mobile ") = str "PUBG Mobile".
Proof.
  split.
  - apply (C6_sanitizeText_collapses_strips_trims Sample.long_text).
    apply Forall_forall. intros c Hc. apply repeat_spec in Hc. subst c.
    split; reflexivity.
  - destruct (C6_sanitizeText_collapses_strips_trims []) as (_ & _ & _ & _ & _ & _ & _ & _ & H & _).
    apply (H (str "  ") (str "PUBG") [9; 10; 32] (str "Mobile") (str " "));
      try discriminate; repeat constructor; discriminate.
Defined.

(** The copy of [sanitizeText] inside the rendering extractor is the one
    that cuts at 200 units; it does not filter. *)
Lemma in_page_sanitizeText_capped (text : jsstring) :
  (length (PuppeteerScraper.sanitizeText text) <= 200)%nat.
Proof. unfold PuppeteerScraper.sanitizeText, substring0. apply firstn_le_length. Qed.

(** ** The rows of the pattern table *)

Lemma trim_both_clean (s : jsstring) :
  starts_clean s = true -> starts_clean (rev s) = true -> trim s = s.
Proof.
  intros H1 H2. unfold trim, trimEnd.
  rewrite (trimStart_id _ H1), (trimStart_id _ H2). apply rev_involutive.
Qed.

Lemma star_class_cons {A} (p : char16 -> bool) (c : char16) (t : jsstring)
    (g : option jsstring) (k : jsstring -> option jsstring -> option A) :
  rmatch (Star (Chr p)) (c :: t) g k
  = or_else (if p c then rmatch (Star (Chr p)) t g k else None) (k (c :: t) g).
Proof.
  change (rmatch (Star (Chr p)) (c :: t) g k)
    with (or_else
            (if p c
             then (if (length t <? length (c :: t))%nat
                   then rmatch (Star (Chr p)) t g k else None)
             else None)
            (k (c :: t) g)).
  assert (E : (length t <? length (c :: t))%nat = true)
    by (apply Nat.ltb_lt; cbn; lia).
  now rewrite E.
Qed.

Lemma star_class_greedy {A} (p : char16 -> bool) (d rest : jsstring)
    (g : option jsstring) (k : jsstring -> option jsstring -> option A) (x : A) :
  Forall (fun c => p c = true) d ->
  match rest with c :: _ => p c = false | [] => True end ->
  k rest g = Some x ->
  rmatch (Star (Chr p)) (d ++ rest) g k = Some x.
Proof.
  intros Hd Hrest Hk. induction Hd as [|c t Hc Ht IH]; cbn [app].
  - destruct rest as [|c r]; [exact Hk|].
    rewrite star_class_cons, Hrest. exact Hk.
  - rewrite star_class_cons, Hc, IH. reflexivity.
Qed.

Lemma star_class_stops {A} (p : char16 -> bool) (rest : jsstring)
    (g : option jsstring) (k : jsstring -> option jsstring -> option A) :
  match rest with c :: _ => p c = false | [] => True end ->
  rmatch (Star (Chr p)) rest g k = k rest g.
Proof.
  intros H. destruct rest as [|c r]; [reflexivity|].
  rewrite star_class_cons, H. reflexivity.
Qed.

Lemma plus_class_greedy {A} (p : char16 -> bool) (c : char16) (d rest : jsstring)
    (g : option jsstring) (k : jsstring -> option jsstring -> option A) (x : A) :
  p c = true -> Forall (fun c => p c = true) d ->
  match rest with c :: _ => p c = false | [] => True end ->
  k rest g = Some x ->
  rmatch (Plus (Chr p)) (c :: d ++ rest) g k = Some x.
Proof.
  intros Hc Hd Hrest Hk. unfold Plus.
  change (rmatch (Cat (Chr p) (Star (Chr p))) (c :: d ++ rest) g k)
    with (if p c then rmatch (Star (Chr p)) (d ++ rest) g k else None).
  rewrite Hc. now apply star_class_greedy.
Qed.

Lemma number_reads_decimal {A} (sep : char16) (d1 d2 rest : jsstring)
    (g : option jsstring) (k : jsstring -> option jsstring -> option A) (x : A) :
  is_sep sep = true ->
  Forall (fun c => is_digit c = true) d1 -> d1 <> [] ->
  Forall (fun c => is_digit c = true) d2 -> d2 <> [] ->
  match rest with c :: _ => is_digit c = false | [] => True end ->
  k rest (Some (d1 ++ sep :: d2)) = Some x ->
  rmatch re_number (d1 ++ sep :: d2 ++ rest) g k = Some x.
Proof.
  intros Hsep H1 N1 H2 N2 Hrest Hk.
  destruct d1 as [|a d1]; [congruence|]. destruct d2 as [|b d2]; [congruence|].
  inversion H1 as [|? ? Ha H1']; subst. inversion H2 as [|? ? Hb H2']; subst.
  assert (Hsd : is_digit sep = false).
  { unfold is_sep in Hsep. apply orb_true_iff in Hsep.
    destruct Hsep as [E|E]; apply N.eqb_eq in E; subst; reflexivity. }
  set (whole := (a :: d1) ++ sep :: (b :: d2) ++ rest).
  set (kg := fun (s' : jsstring) (_ : option jsstring) =>
               k s' (Some (firstn (length whole - length s')%nat whole))).
  change (rmatch re_number whole g k)
    with (rmatch (Plus (Chr is_digit)) whole g
            (fun s1 g1 =>
               or_else (rmatch (Cat (Chr is_sep) (Plus (Chr is_digit))) s1 g1 kg)
                       (kg s1 g1))).
  unfold whole at 1. cbn [app].
  apply plus_class_greedy; [exact Ha | exact H1' | exact Hsd |].
  cbv beta.
  change (rmatch (Cat (Chr is_sep) (Plus (Chr is_digit))) (sep :: b :: d2 ++ rest) g kg)
    with (if is_sep sep
          then rmatch (Plus (Chr is_digit)) (b :: d2 ++ rest) g kg else None).
  rewrite Hsep.
  rewrite (plus_class_greedy is_digit b d2 rest g kg x Hb H2' Hrest); [reflexivity|].
  unfold kg.
  assert (E : firstn (length whole - length rest)%nat whole
              = (a :: d1) ++ sep :: b :: d2).
  { unfold whole.
    replace ((a :: d1) ++ sep :: (b :: d2) ++ rest)
      with (((a :: d1) ++ sep :: b :: d2) ++ rest)
      by (rewrite <- app_assoc; reflexivity).
    rewrite length_app, Nat.add_sub, firstn_app, firstn_all, Nat.sub_diag.
    cbn [firstn]. apply app_nil_r. }
  rewrite E. exact Hk.
Qed.

Lemma replace_comma_digits (d : jsstring) :
  Forall (fun c => is_digit c = true) d -> replace_first [c_comma] [c_dot] d = d.
Proof.
  induction 1 as [|c t Hc Ht IH]; [reflexivity|].
  rewrite replace_first_skip; [now f_equal|].
  cbn [startsWith]. now rewrite (digit_not_comma _ Hc).
Qed.

Lemma replace_sep_after_digits (sep : char16) (d1 d2 : jsstring) :
  is_sep sep = true ->
  Forall (fun c => is_digit c = true) d1 ->
  Forall (fun c => is_digit c = true) d2 ->
  replace_first [c_comma] [c_dot] (d1 ++ sep :: d2) = d1 ++ c_dot :: d2.
Proof.
  intros Hsep H1 H2. unfold is_sep in Hsep. apply orb_true_iff in Hsep.
  destruct Hsep as [E|E]; apply N.eqb_eq in E; subst sep.
  - induction H1 as [|c t Hc Ht IH]; cbn [app].
    + rewrite replace_first_skip by reflexivity. f_equal. now apply replace_comma_digits.
    + rewrite replace_first_skip; [now f_equal|].
      cbn [startsWith]. now rewrite (digit_not_comma _ Hc).
  - now apply replace_comma_after_digits.
Qed.

Lemma needs_head_chr (p : char16 -> bool) : Facts.needs_head p (Chr p).
Proof. intros A [|c t] g k H; [reflexivity|]. cbn. now rewrite H. Qed.

Lemma needs_head_cat (p : char16 -> bool) (x : regex) : Facts.needs_head p (Cat (Chr p) x).
Proof. intros A [|c t] g k H; [reflexivity|]. cbn. now rewrite H. Qed.

Lemma rejected_tail (p : char16 -> bool) (c : char16) (s : jsstring) :
  Forall (fun c => p c = false) (c :: s) -> Forall (fun c => p c = false) s.
Proof. intros H. now inversion H. Qed.

Lemma rejected_head (p : char16 -> bool) (s : jsstring) :
  Forall (fun c => p c = false) s ->
  match s with c :: _ => p c = false | [] => True end.
Proof. now intros [|c t Hc _]. Qed.

(** A row fails on a text without any unit of the class its mark starts
    with. *)
Lemma row_fails_without_mark (p : char16 -> bool) (r row : regex) (s : jsstring) :
  Facts.needs_head p r -> Facts.row_of r row ->
  Forall (fun c => p c = false) s ->
  exec row s = None.
Proof.
  intros Hr [-> | ->] Hs; unfold exec;
    apply (exec_from_closed (Forall (fun c => p c = false)) (rejected_tail p));
    try exact Hs; intros s' Hs'.
  - change (rmatch (Cat re_number (Cat re_ws r)) s' None (fun s0 g0 => Some (s0, g0)))
      with (rmatch (Cat re_number re_ws) s' None
              (fun s1 g1 => rmatch r s1 g1 (fun s0 g0 => Some (s0, g0)))).
    apply (rmatch_closed (Forall (fun c => p c = false)) (rejected_tail p)); [exact Hs'|].
    intros s1 g1 H1. apply Hr. now apply rejected_head.
  - change (rmatch (Cat r (Cat re_ws re_number)) s' None (fun s0 g0 => Some (s0, g0)))
      with (rmatch r s' None
              (fun s1 g1 => rmatch (Cat re_ws re_number) s1 g1
                              (fun s0 g0 => Some (s0, g0)))).
    apply Hr. now apply rejected_head.
Qed.

Lemma rmatch_number_head {A} (s : jsstring) (g : option jsstring)
    (k : jsstring -> option jsstring -> option A) :
  match s with c :: _ => is_digit c = false | [] => True end ->
  rmatch re_number s g k = None.
Proof.
  intros H. unfold re_number, Plus. simpl. destruct s as [|c t]; [reflexivity|].
  now rewrite H.
Qed.

(** The number-first row fails when its mark stands only in front of the
    number. *)
Lemma number_first_fails_behind (p : char16 -> bool) (r : regex)
    (pre rest : jsstring) :
  Facts.needs_head p r -> digit_free pre -> Forall (fun c => p c = false) rest ->
  forall i, exec_from (Cat re_number (Cat re_ws r)) i (pre ++ rest) = None.
Proof.
  intros Hr Hpre Hrest. induction Hpre as [|c t Hc Ht IH]; intros i.
  - cbn [app]. apply (row_fails_without_mark p r _ rest Hr (or_introl eq_refl)) in Hrest.
    unfold exec in Hrest.
    revert Hrest. generalize 0%nat. revert i.
    assert (G : forall s i j, exec_from (Cat re_number (Cat re_ws r)) j s = None ->
                              exec_from (Cat re_number (Cat re_ws r)) i s = None).
    { induction s as [|c s IHs]; intros i j; cbn [exec_from];
        destruct (rmatch _ _ None _) as [[s' g]|]; try discriminate; try reflexivity.
      apply IHs. }
    intros i j. apply G.
  - cbn [app exec_from].
    change (rmatch (Cat re_number (Cat re_ws r)) (c :: t ++ rest) None
              (fun s' g => Some (s', g)))
      with (rmatch re_number (c :: t ++ rest) None
              (fun s1 g1 => rmatch (Cat re_ws r) s1 g1 (fun s' g => Some (s', g)))).
    rewrite rmatch_number_head by exact Hc. apply IH.
Qed.

Lemma numeral_chars (n : jsstring) (q : Q) :
  Facts.numeral n q -> Forall (fun c => is_digit c = true \/ is_sep c = true) n.
Proof.
  intros [d Hd _ | d1 d2 sep H1 _ H2 _ Hsep].
  - eapply Forall_impl; [|exact Hd]. now left.
  - apply Forall_app. split; [eapply Forall_impl; [|exact H1]; now left|].
    constructor; [now right|]. eapply Forall_impl; [|exact H2]. now left.
Qed.

Lemma numeral_digit_led (n : jsstring) (q : Q) :
  Facts.numeral n q -> exists c t, n = c :: t /\ is_digit c = true.
Proof.
  intros [d Hd Hne | d1 d2 sep H1 Hne _ _ _].
  - destruct Hd as [|c t Hc _]; [congruence|]. now exists c, t.
  - destruct H1 as [|c t Hc _]; [congruence|]. now exists c, (t ++ sep :: d2).
Qed.

Lemma numeral_digit_ended (n : jsstring) (q : Q) :
  Facts.numeral n q -> exists c t, rev n = c :: t /\ is_digit c = true.
Proof.
  assert (G : forall d, Forall (fun c => is_digit c = true) d -> d <> [] ->
                        exists c t, rev d = c :: t /\ is_digit c = true).
  { intros d Hd Hne. apply Forall_rev in Hd.
    destruct (rev d) as [|c t] eqn:E.
    - apply (f_equal (@rev _)) in E. rewrite rev_involutive in E. cbn in E. congruence.
    - inversion Hd; subst. now exists c, t. }
  intros [d Hd Hne | d1 d2 sep H1 _ H2 Hne _]; [now apply G|].
  destruct (G d2 H2 Hne) as (c & t & E & Hc).
  exists c, (t ++ sep :: rev d1). split; [|exact Hc].
  rewrite rev_app_distr. cbn [rev]. rewrite <- app_assoc, E. reflexivity.
Qed.

Lemma sep_not_digit (c : char16) : is_sep c = true -> is_digit c = false.
Proof.
  unfold is_sep. intros H. apply orb_true_iff in H.
  destruct H as [H|H]; apply N.eqb_eq in H; subst; reflexivity.
Qed.

Lemma sep_not_space (c : char16) : is_sep c = true -> is_space c = false.
Proof.
  unfold is_sep. intros H. apply orb_true_iff in H.
  destruct H as [H|H]; apply N.eqb_eq in H; subst; reflexivity.
Qed.

Lemma numeral_visible (n : jsstring) (q : Q) :
  Facts.numeral n q -> Forall (fun c => is_space c = false) n.
Proof.
  intros H. eapply Forall_impl; [|exact (numeral_chars n q H)].
  intros c [Hc|Hc]; [now apply digit_not_space | now apply sep_not_space].
Qed.

(** The number pattern reads a whole numeral when what follows is neither
    a digit nor a separator. *)
Lemma number_reads {A} (n : jsstring) (q : Q) (rest : jsstring) (g : option jsstring)
    (k : jsstring -> option jsstring -> option A) (x : A) :
  Facts.numeral n q ->
  match rest with c :: _ => is_digit c = false /\ is_sep c = false | [] => True end ->
  k rest (Some n) = Some x ->
  rmatch re_number (n ++ rest) g k = Some x.
Proof.
  intros Hn Hrest Hk.
  assert (Hd : match rest with c :: _ => is_digit c = false | [] => True end)
    by (destruct rest; [exact I | apply Hrest]).
  destruct Hn as [d H Hne | d1 d2 sep H1 N1 H2 N2 Hsep].
  - destruct d as [|a d]; [congruence|]. inversion H as [|? ? Ha H']; subst.
    set (whole := (a :: d) ++ rest).
    set (kg := fun (s' : jsstring) (_ : option jsstring) =>
                 k s' (Some (firstn (length whole - length s')%nat whole))).
    change (rmatch re_number whole g k)
      with (rmatch (Plus (Chr is_digit)) whole g
              (fun s1 g1 =>
                 or_else (rmatch (Cat (Chr is_sep) (Plus (Chr is_digit))) s1 g1 kg)
                         (kg s1 g1))).
    unfold whole at 1. cbn [app].
    apply plus_class_greedy; [exact Ha | exact H' | exact Hd |].
    assert (E : rmatch (Cat (Chr is_sep) (Plus (Chr is_digit))) rest g kg = None).
    { destruct rest as [|c r]; [reflexivity|]. cbn. destruct Hrest as [_ Hs].
      now rewrite Hs. }
    rewrite E. cbn [or_else]. unfold kg, whole.
    rewrite length_app, Nat.add_sub, firstn_app, firstn_all, Nat.sub_diag.
    cbn [firstn]. rewrite app_nil_r. exact Hk.
  - rewrite <- app_assoc. cbn [app]. now apply number_reads_decimal.
Qed.

Lemma parseFloat_digits (d : jsstring) :
  Forall (fun c => is_digit c = true) d -> d <> [] ->
  parseFloat d = Num (decimal d []).
Proof.
  intros H Hne. unfold parseFloat.
  assert (Hts : trimStart d = d).
  { apply trimStart_id. destruct H as [|c t Hc _]; [congruence|].
    cbn. now rewrite (digit_not_space _ Hc). }
  rewrite Hts. replace d with (d ++ []) at 1 by apply app_nil_r.
  rewrite (span_digits_all d [] H I). destruct d; [congruence | reflexivity].
Qed.

(** The number a captured numeral is parsed to. *)
Lemma parseFloat_numeral (n : jsstring) (q : Q) :
  Facts.numeral n q -> parseFloat (replace_first [c_comma] [c_dot] n) = Num q.
Proof.
  intros [d H Hne | d1 d2 sep H1 N1 H2 N2 Hsep].
  - rewrite (replace_comma_digits d H). now apply parseFloat_digits.
  - rewrite (replace_sep_after_digits sep d1 d2 Hsep H1 H2).
    now apply parseFloat_decimal.
Qed.

(** The cleaning leaves two visible texts as they are and turns the white
    space between them into one space. *)
Lemma cleaned_pair (a gap b : jsstring) :
  Forall (fun c => is_space c = false) a -> a <> [] ->
  Forall (fun c => is_space c = true) gap ->
  Forall (fun c => is_space c = false) b -> b <> [] ->
  trim (replace_ws_runs (a ++ gap ++ b))
  = a ++ (if is_empty gap then [] else [c_space]) ++ b.
Proof.
  intros Ha Na Hg Hb Nb. unfold replace_ws_runs.
  rewrite collapse_app_clean
    by (try exact Na; apply starts_clean_visible, Forall_rev, Ha).
  rewrite (collapse_id a Ha), collapse_gap
    by (try exact Hg; now apply starts_clean_visible).
  rewrite (collapse_id b Hb).
  apply trim_both_clean.
  - rewrite starts_clean_app by exact Na. now apply starts_clean_visible.
  - rewrite !rev_app_distr, <- app_assoc.
    rewrite starts_clean_app.
    + apply starts_clean_visible, Forall_rev, Hb.
    + intros E. apply (f_equal (@rev _)) in E. rewrite rev_involutive in E.
      cbn in E. congruence.
Qed.

Lemma exec_at_start (r : regex) (s g : jsstring) :
  rmatch r s None (fun s' g' => Some (s', g')) = Some ([], Some g) ->
  g <> [] ->
  Helpers.truthy_group (exec r s) = Some g.
Proof.
  intros H Hne. unfold exec.
  assert (E : exists m, exec_from r 0 s = Some m /\ m_group m = Some g).
  { destruct s as [|c t]; cbn [exec_from]; rewrite H; eexists; split; reflexivity. }
  destruct E as (m & -> & Hm). unfold Helpers.truthy_group. rewrite Hm.
  destruct g; [congruence | reflexivity].
Qed.

Lemma gap_blank (gap : jsstring) :
  Forall (fun c => is_space c = true) (if is_empty gap then [] else [c_space]).
Proof. destruct (is_empty gap); repeat constructor. Qed.

Lemma gap_rejected (p : char16 -> bool) (gap : jsstring) :
  Facts.alien p -> Forall (fun c => p c = false) (if is_empty gap then [] else [c_space]).
Proof.
  intros Hp. destruct (is_empty gap); repeat constructor. apply Hp. now right; right.
Qed.

Lemma numeral_rejected (p : char16 -> bool) (n : jsstring) (q : Q) :
  Facts.alien p -> Facts.numeral n q -> Forall (fun c => p c = false) n.
Proof.
  intros Hp Hn. eapply Forall_impl; [|exact (numeral_chars n q Hn)].
  intros c [Hc|Hc]; apply Hp; tauto.
Qed.

Lemma exec_from_found (r : regex) (s s' g : jsstring) :
  rmatch r s None (fun s0 g0 => Some (s0, g0)) = Some (s', Some g) ->
  g <> [] ->
  forall i, Helpers.truthy_group (exec_from r i s) = Some g.
Proof.
  intros H Hne i.
  assert (E : exists m, exec_from r i s = Some m /\ m_group m = Some g).
  { destruct s as [|c t]; cbn [exec_from]; rewrite H; eexists; split; reflexivity. }
  destruct E as (m & -> & Hm). unfold Helpers.truthy_group. rewrite Hm.
  destruct g; [congruence | reflexivity].
Qed.

(** The search goes past a prefix at every unit of which the pattern
    fails. *)
Lemma exec_from_past (r : regex) (pre s g : jsstring) :
  Forall (fun c => forall t, rmatch r (c :: t) None (fun s0 g0 => Some (s0, g0)) = None)
    pre ->
  (forall j, Helpers.truthy_group (exec_from r j s) = Some g) ->
  forall i, Helpers.truthy_group (exec_from r i (pre ++ s)) = Some g.
Proof.
  intros Hpre Hs. induction Hpre as [|c pre Hc Hpre IH]; intros i; [apply Hs|].
  cbn [app exec_from]. rewrite Hc. apply IH.
Qed.

(** A text made of a numeral and a mark, in either order, with any white
    space between them and units around them that are foreign to the
    mark and to the rows before it: the pair of rows of the mark
    decides. *)
Lemma first_match_marked (junk1 junk2 n : jsstring) (q : Q) (gap mark cur : jsstring)
    (pre post : list (regex * jsstring)) (r : regex) (p : char16 -> bool) :
  let J c := is_space c = false /\ is_digit c = false /\ is_sep c = false
             /\ p c = false in
  Facts.numeral n q ->
  Forall (fun c => is_space c = true) gap ->
  Forall (fun c => is_space c = false /\ is_digit c = false /\ is_sep c = false) mark ->
  mark <> [] ->
  Forall J junk1 -> Forall J junk2 ->
  Facts.reads r mark -> Facts.needs_head p r -> Facts.alien p ->
  Forall (fun row =>
            exists p' r',
              Facts.needs_head p' r' /\ Facts.alien p'
              /\ Forall (fun c => p' c = false) (junk1 ++ mark ++ junk2)
              /\ Facts.row_of r' (fst row)) pre ->
  let table := pre ++ (Cat re_number (Cat re_ws r), cur)
                   :: (Cat r (Cat re_ws re_number), cur) :: post in
  let gap' := if is_empty gap then [] else [c_space] in
  Helpers.first_match table (junk1 ++ n ++ gap' ++ mark ++ junk2)
  = {| Helpers.price := Num q; Helpers.currency := cur |}
  /\ Helpers.first_match table (junk1 ++ mark ++ gap' ++ n ++ junk2)
     = {| Helpers.price := Num q; Helpers.currency := cur |}.
Proof.
  intros J Hn Hgap Hmark Nmark Hj1 Hj2 Hreads Hhead Halien Hpre. cbv zeta.
  set (gap' := if is_empty gap then [] else [c_space]).
  assert (Hg' : Forall (fun c => is_space c = true) gap') by apply gap_blank.
  destruct (numeral_digit_led n q Hn) as (c0 & t0 & En & Hc0).
  assert (Nn : n <> []) by (rewrite En; discriminate).
  assert (Hmv : forall x, match mark ++ x with c :: _ => is_space c = false | [] => True end).
  { intros x. destruct Hmark as [|c t Hc _]; [congruence | apply Hc]. }
  assert (Hj2h : match junk2 with
                 | c :: _ => is_digit c = false /\ is_sep c = false
                 | [] => True
                 end).
  { destruct Hj2 as [|c t Hc _]; [exact I | split; apply Hc]. }
  assert (Hrows : forall text,
            (forall p', Facts.alien p' ->
                        Forall (fun c => p' c = false) (junk1 ++ mark ++ junk2) ->
                        Forall (fun c => p' c = false) text) ->
            forall row, In row pre -> Helpers.truthy_group (exec (fst row) text) = None).
  { intros text Htext row Hin.
    rewrite Forall_forall in Hpre.
    destruct (Hpre row Hin) as (p' & r' & Hh' & Ha' & Hm' & Hrow).
    now rewrite (row_fails_without_mark p' r' (fst row) text Hh' Hrow (Htext p' Ha' Hm')). }
  assert (Hparts : forall p' x,
            Facts.alien p' ->
            Forall (fun c => p' c = false) (junk1 ++ mark ++ junk2) ->
            In x [junk1; mark; junk2; n; gap'] ->
            Forall (fun c => p' c = false) x).
  { intros p' x Ha' Hm' Hx.
    apply Forall_app in Hm'. destruct Hm' as [H1 Hm'].
    apply Forall_app in Hm'. destruct Hm' as [H2 H3].
    cbn [In] in Hx. destruct Hx as [<-|[<-|[<-|[<-|[<-|[]]]]]]; try assumption.
    - now apply (numeral_rejected p' n q).
    - now apply gap_rejected. }
  split.
  - rewrite <- (parseFloat_numeral n q Hn).
    apply first_match_wins.
    + apply Hrows. intros p' Ha' Hm'.
      repeat (apply Forall_app; split); apply (Hparts p' _ Ha' Hm'); cbn; tauto.
    + unfold exec. apply exec_from_past.
      * eapply Forall_impl; [|exact Hj1]. intros c Hc t.
        change (rmatch (Cat re_number (Cat re_ws r)) (c :: t) None
                  (fun s0 g0 => Some (s0, g0)))
          with (rmatch re_number (c :: t) None
                  (fun s1 g1 => rmatch (Cat re_ws r) s1 g1 (fun s0 g0 => Some (s0, g0)))).
        apply rmatch_number_head. apply Hc.
      * apply (exec_from_found _ _ junk2); [|exact Nn].
        change (rmatch (Cat re_number (Cat re_ws r)) (n ++ gap' ++ mark ++ junk2) None
                  (fun s' g' => Some (s', g')))
          with (rmatch re_number (n ++ gap' ++ mark ++ junk2) None
                  (fun s1 g1 => rmatch re_ws s1 g1
                     (fun s2 g2 => rmatch r s2 g2 (fun s' g' => Some (s', g'))))).
        apply (number_reads n q); [exact Hn | |].
        -- unfold gap'. destruct (is_empty gap); cbn [app].
           ++ destruct Hmark as [|c t Hc _]; [congruence | split; apply Hc].
           ++ split; reflexivity.
        -- unfold re_ws. apply star_class_greedy; [exact Hg' | apply Hmv |].
           apply Hreads.
  - rewrite <- (parseFloat_numeral n q Hn).
    replace (pre ++ (Cat re_number (Cat re_ws r), cur)
                 :: (Cat r (Cat re_ws re_number), cur) :: post)
      with ((pre ++ [(Cat re_number (Cat re_ws r), cur)])
              ++ (Cat r (Cat re_ws re_number), cur) :: post)
      by (now rewrite <- app_assoc).
    apply first_match_wins.
    + intros row Hin. apply in_app_or in Hin. destruct Hin as [Hin|[<-|[]]].
      * apply Hrows; [|exact Hin]. intros p' Ha' Hm'.
        repeat (apply Forall_app; split); apply (Hparts p' _ Ha' Hm'); cbn; tauto.
      * cbn [fst]. unfold exec.
        replace (junk1 ++ mark ++ gap' ++ n ++ junk2)
          with ((junk1 ++ mark ++ gap') ++ n ++ junk2)
          by (now rewrite <- !app_assoc).
        rewrite (number_first_fails_behind p r (junk1 ++ mark ++ gap') (n ++ junk2) Hhead);
          [reflexivity| |].
        -- repeat (apply Forall_app; split).
           ++ eapply Forall_impl; [|exact Hj1]. intros c Hc. apply Hc.
           ++ eapply Forall_impl; [|exact Hmark]. intros c Hc. apply Hc.
           ++ eapply Forall_impl; [|exact Hg']. intros c Hc.
              destruct (is_digit c) eqn:E; [|reflexivity].
              apply digit_not_space in E. congruence.
        -- apply Forall_app. split; [now apply (numeral_rejected p n q)|].
           eapply Forall_impl; [|exact Hj2]. intros c Hc. apply Hc.
    + unfold exec. apply exec_from_past.
      * eapply Forall_impl; [|exact Hj1]. intros c Hc t.
        change (rmatch (Cat r (Cat re_ws re_number)) (c :: t) None
                  (fun s0 g0 => Some (s0, g0)))
          with (rmatch r (c :: t) None
                  (fun s1 g1 => rmatch (Cat re_ws re_number) s1 g1
                                  (fun s0 g0 => Some (s0, g0)))).
        apply Hhead. apply Hc.
      * apply (exec_from_found _ _ junk2); [|exact Nn].
        change (rmatch (Cat r (Cat re_ws re_number)) (mark ++ gap' ++ n ++ junk2) None
                  (fun s' g' => Some (s', g')))
          with (rmatch r (mark ++ gap' ++ n ++ junk2) None
                  (fun s1 g1 => rmatch re_ws s1 g1
                     (fun s2 g2 => rmatch re_number s2 g2 (fun s' g' => Some (s', g'))))).
        rewrite Hreads. unfold re_ws.
        apply star_class_greedy; [exact Hg' | |].
        -- rewrite En. cbn [app]. now apply digit_not_space.
        -- now apply (number_reads n q).
Qed.

Lemma alien_lit (c : char16) :
  is_digit c = false -> is_sep c = false -> c <> c_space -> Facts.alien (N.eqb c).
Proof.
  intros Hd Hs Hsp x Hx. apply N.eqb_neq. intros ->.
  destruct Hx as [Hx|[Hx|Hx]]; congruence.
Qed.

Lemma alien_letter (u : char16) :
  65 <= u <= 90 -> Facts.alien (fun c => (c =? u) || (c =? u + 32)).
Proof.
  intros Hu x Hx. apply orb_false_iff. split; apply N.eqb_neq; intros ->.
  - destruct Hx as [Hx|[Hx|Hx]].
    + unfold is_digit, in_range in Hx. apply andb_true_iff in Hx.
      destruct Hx as [_ Hx]. apply N.leb_le in Hx. lia.
    + unfold is_sep, c_dot, c_comma in Hx. apply orb_true_iff in Hx.
      destruct Hx as [Hx|Hx]; apply N.eqb_eq in Hx; lia.
    + unfold c_space in Hx. lia.
  - destruct Hx as [Hx|[Hx|Hx]].
    + unfold is_digit, in_range in Hx. apply andb_true_iff in Hx.
      destruct Hx as [_ Hx]. apply N.leb_le in Hx. lia.
    + unfold is_sep, c_dot, c_comma in Hx. apply orb_true_iff in Hx.
      destruct Hx as [Hx|Hx]; apply N.eqb_eq in Hx; lia.
    + unfold c_space in Hx. lia.
Qed.

Lemma reads_lit (c : char16) : Facts.reads (lit c) [c].
Proof. intros A rest g k. cbn. now rewrite N.eqb_refl. Qed.

Lemma reads_letters (u v a b : char16) :
  a = u \/ a = u + 32 -> b = v \/ b = v + 32 ->
  Facts.reads (Cat (ci u) (ci v)) [a; b].
Proof.
  intros Ha Hb A rest g k. cbn.
  assert (E1 : (a =? u) || (a =? u + 32) = true)
    by (apply orb_true_iff; destruct Ha as [->| ->]; rewrite N.eqb_refl; tauto).
  assert (E2 : (b =? v) || (b =? v + 32) = true)
    by (apply orb_true_iff; destruct Hb as [->| ->]; rewrite N.eqb_refl; tauto).
  now rewrite E1, E2.
Qed.

Lemma foreign_plain (cur : jsstring) (c : char16) :
  Facts.foreign cur c = true ->
  is_space c = false /\ is_digit c = false /\ is_sep c = false.
Proof.
  unfold Facts.foreign. rewrite !andb_true_iff, !negb_true_iff. tauto.
Qed.

Lemma foreign_lira (cur : jsstring) (c : char16) :
  Facts.foreign cur c = true -> (c_lira =? c) = false.
Proof.
  unfold Facts.foreign. rewrite !andb_true_iff, !negb_true_iff, (N.eqb_sym c_lira).
  tauto.
Qed.

Lemma foreign_letter (cur : jsstring) (c : char16) :
  Facts.foreign cur c = true -> (c =? 84) || (c =? 84 + 32) = false.
Proof.
  unfold Facts.foreign. rewrite !andb_true_iff, !negb_true_iff.
  change (84 + 32) with 116. tauto.
Qed.

Lemma foreign_dollar (cur : jsstring) (c : char16) :
  JS.eqb cur (str "TRY") = false ->
  Facts.foreign cur c = true -> (c_dollar =? c) = false.
Proof.
  intros E. unfold Facts.foreign.
  rewrite E, !andb_true_iff, orb_false_l, !negb_true_iff, (N.eqb_sym c_dollar).
  tauto.
Qed.

Lemma foreign_euro (cur : jsstring) (c : char16) :
  JS.eqb cur (str "EUR") = true ->
  Facts.foreign cur c = true -> (c_euro =? c) = false.
Proof.
  intros E. unfold Facts.foreign.
  rewrite E, !andb_true_iff, orb_false_l, !negb_true_iff, (N.eqb_sym c_euro).
  tauto.
Qed.

(** The units of a mark's text that a row before the mark's own looks
    for: none in the mark, none around it. *)
Lemma row_excluded (cur : jsstring) (p : char16 -> bool) (r row : regex)
    (junk1 mark junk2 : jsstring) :
  Facts.needs_head p r -> Facts.alien p ->
  (forall c, Facts.foreign cur c = true -> p c = false) ->
  forallb (Facts.foreign cur) junk1 = true ->
  forallb (Facts.foreign cur) junk2 = true ->
  forallb (fun c => negb (p c)) mark = true ->
  Facts.row_of r row ->
  exists p' r',
    Facts.needs_head p' r' /\ Facts.alien p'
    /\ Forall (fun c => p' c = false) (junk1 ++ mark ++ junk2)
    /\ Facts.row_of r' row.
Proof.
  intros Hh Ha Hf H1 H2 Hm Hrow. exists p, r. repeat split; try assumption.
  rewrite forallb_forall in H1, H2, Hm.
  apply Forall_forall. intros c Hc.
  apply in_app_or in Hc. destruct Hc as [Hc|Hc]; [now apply Hf, H1|].
  apply in_app_or in Hc. destruct Hc as [Hc|Hc]; [|now apply Hf, H2].
  apply negb_true_iff. now apply Hm.
Qed.

(** [parsePrice] on a numeral with a currency mark behind or in front of
    it, any white space between the two, and foreign units around
    them. *)
Lemma parsePrice_marked (junk1 junk2 n : jsstring) (q : Q) (gap mark cur : jsstring) :
  Facts.numeral n q ->
  Forall (fun c => is_space c = true) gap ->
  In (mark, cur) Facts.marks ->
  forallb (Facts.foreign cur) junk1 = true ->
  forallb (Facts.foreign cur) junk2 = true ->
  Helpers.parsePrice (junk1 ++ n ++ gap ++ mark ++ junk2)
  = {| Helpers.price := Num q; Helpers.currency := cur |}
  /\ Helpers.parsePrice (junk1 ++ mark ++ gap ++ n ++ junk2)
     = {| Helpers.price := Num q; Helpers.currency := cur |}.
Proof.
  intros Hn Hgap Hin Hj1 Hj2.
  destruct (numeral_digit_led n q Hn) as (c0 & t0 & En & Hc0).
  assert (Nn : n <> []) by (rewrite En; discriminate).
  pose proof (numeral_visible n q Hn) as Vn.
  assert (Fj : forall junk, forallb (Facts.foreign cur) junk = true ->
                            Forall (fun c => Facts.foreign cur c = true) junk).
  { intros junk H. apply Forall_forall. now apply forallb_forall. }
  assert (Vj : forall junk, forallb (Facts.foreign cur) junk = true ->
                            Forall (fun c => is_space c = false) junk).
  { intros junk H. eapply Forall_impl; [|exact (Fj junk H)].
    intros c Hc. now apply (foreign_plain cur c). }
  assert (Hgoal : forall pre post r p,
            Helpers.patterns
            = pre ++ (Cat re_number (Cat re_ws r), cur)
                  :: (Cat r (Cat re_ws re_number), cur) :: post ->
            Forall (fun c => is_space c = false /\ is_digit c = false /\ is_sep c = false)
              mark ->
            mark <> [] -> Facts.reads r mark -> Facts.needs_head p r -> Facts.alien p ->
            (forall c, Facts.foreign cur c = true -> p c = false) ->
            Forall (fun row =>
                      exists p' r',
                        Facts.needs_head p' r' /\ Facts.alien p'
                        /\ Forall (fun c => p' c = false) (junk1 ++ mark ++ junk2)
                        /\ Facts.row_of r' (fst row)) pre ->
            Helpers.parsePrice (junk1 ++ n ++ gap ++ mark ++ junk2)
            = {| Helpers.price := Num q; Helpers.currency := cur |}
            /\ Helpers.parsePrice (junk1 ++ mark ++ gap ++ n ++ junk2)
               = {| Helpers.price := Num q; Helpers.currency := cur |}).
  { intros pre post r p Htable Hmark Nmark Hreads Hhead Halien Hp Hpre.
    assert (Vm : Forall (fun c => is_space c = false) mark)
      by (eapply Forall_impl; [|exact Hmark]; intros c Hc; apply Hc).
    assert (Jj : forall junk, forallb (Facts.foreign cur) junk = true ->
                   Forall (fun c => is_space c = false /\ is_digit c = false
                                    /\ is_sep c = false /\ p c = false) junk).
    { intros junk H. eapply Forall_impl; [|exact (Fj junk H)].
      intros c Hc. destruct (foreign_plain cur c Hc) as (Ha & Hb & Hd).
      repeat split; try assumption. now apply Hp. }
    destruct (first_match_marked junk1 junk2 n q gap mark cur pre post r p
                Hn Hgap Hmark Nmark (Jj junk1 Hj1) (Jj junk2 Hj2)
                Hreads Hhead Halien Hpre) as [H1 H2].
    unfold Helpers.parsePrice. rewrite Htable. split.
    - assert (E : is_empty (junk1 ++ n ++ gap ++ mark ++ junk2) = false)
        by (destruct junk1; [rewrite En|]; reflexivity).
      rewrite E.
      replace (junk1 ++ n ++ gap ++ mark ++ junk2)
        with ((junk1 ++ n) ++ gap ++ (mark ++ junk2))
        by (now rewrite <- !app_assoc).
      rewrite cleaned_pair.
      + rewrite <- !app_assoc. exact H1.
      + apply Forall_app. split; [now apply Vj | exact Vn].
      + destruct junk1; [exact Nn | discriminate].
      + exact Hgap.
      + apply Forall_app. split; [exact Vm | now apply Vj].
      + destruct mark; [congruence | discriminate].
    - assert (E : is_empty (junk1 ++ mark ++ gap ++ n ++ junk2) = false)
        by (destruct junk1; [destruct mark; [congruence|]|]; reflexivity).
      rewrite E.
      replace (junk1 ++ mark ++ gap ++ n ++ junk2)
        with ((junk1 ++ mark) ++ gap ++ (n ++ junk2))
        by (now rewrite <- !app_assoc).
      rewrite cleaned_pair.
      + rewrite <- !app_assoc. exact H2.
      + apply Forall_app. split; [now apply Vj | exact Vm].
      + destruct junk1; [destruct mark; [congruence | discriminate] | discriminate].
      + exact Hgap.
      + apply Forall_app. split; [exact Vn | now apply Vj].
      + rewrite En. discriminate. }
  assert (Hlira : forall row,
            forallb (fun c => negb (c_lira =? c)) mark = true ->
            Facts.row_of (lit c_lira) row ->
            exists p' r',
              Facts.needs_head p' r' /\ Facts.alien p'
              /\ Forall (fun c => p' c = false) (junk1 ++ mark ++ junk2)
              /\ Facts.row_of r' row).
  { intros row. apply (row_excluded cur); try assumption;
      [apply needs_head_chr | now apply alien_lit | apply foreign_lira]. }
  assert (Hletter : forall row,
            forallb (fun c => negb ((c =? 84) || (c =? 84 + 32))) mark = true ->
            Facts.row_of (Cat (ci 84) (ci 76)) row ->
            exists p' r',
              Facts.needs_head p' r' /\ Facts.alien p'
              /\ Forall (fun c => p' c = false) (junk1 ++ mark ++ junk2)
              /\ Facts.row_of r' row).
  { intros row. apply (row_excluded cur); try assumption;
      [apply needs_head_cat | apply alien_letter; lia | apply foreign_letter]. }
  assert (Hdollar : forall row,
            JS.eqb cur (str "TRY") = false ->
            forallb (fun c => negb (c_dollar =? c)) mark = true ->
            Facts.row_of (lit c_dollar) row ->
            exists p' r',
              Facts.needs_head p' r' /\ Facts.alien p'
              /\ Forall (fun c => p' c = false) (junk1 ++ mark ++ junk2)
              /\ Facts.row_of r' row).
  { intros row Ecur. apply (row_excluded cur); try assumption;
      [apply needs_head_chr | now apply alien_lit | intros c; now apply foreign_dollar]. }
  unfold Facts.marks in Hin. cbn [In] in Hin.
  destruct Hin as [E|[E|[E|[E|[E|[E|[E|[]]]]]]]]; injection E as <- <-.
  - apply (Hgoal [] (skipn 2 Helpers.patterns) (lit c_lira) (N.eqb c_lira));
      [reflexivity | repeat constructor | discriminate | apply reads_lit
      | apply needs_head_chr | now apply alien_lit | apply foreign_lira | constructor].
  - apply (Hgoal (firstn 2 Helpers.patterns) (skipn 4 Helpers.patterns)
             (Cat (ci 84) (ci 76)) (fun c => (c =? 84) || (c =? 84 + 32)));
      [reflexivity | repeat constructor | discriminate
      | apply reads_letters; tauto
      | apply needs_head_cat | apply alien_letter; lia | apply foreign_letter |].
    repeat constructor; apply Hlira; (reflexivity || (left; reflexivity)
                                      || (right; reflexivity)).
  - apply (Hgoal (firstn 2 Helpers.patterns) (skipn 4 Helpers.patterns)
             (Cat (ci 84) (ci 76)) (fun c => (c =? 84) || (c =? 84 + 32)));
      [reflexivity | repeat constructor | discriminate
      | apply reads_letters; tauto
      | apply needs_head_cat | apply alien_letter; lia | apply foreign_letter |].
    repeat constructor; apply Hlira; (reflexivity || (left; reflexivity)
                                      || (right; reflexivity)).
  - apply (Hgoal (firstn 2 Helpers.patterns) (skipn 4 Helpers.patterns)
             (Cat (ci 84) (ci 76)) (fun c => (c =? 84) || (c =? 84 + 32)));
      [reflexivity | repeat constructor | discriminate
      | apply reads_letters; tauto
      | apply needs_head_cat | apply alien_letter; lia | apply foreign_letter |].
    repeat constructor; apply Hlira; (reflexivity || (left; reflexivity)
                                      || (right; reflexivity)).
  - apply (Hgoal (firstn 2 Helpers.patterns) (skipn 4 Helpers.patterns)
             (Cat (ci 84) (ci 76)) (fun c => (c =? 84) || (c =? 84 + 32)));
      [reflexivity | repeat constructor | discriminate
      | apply reads_letters; tauto
      | apply needs_head_cat | apply alien_letter; lia | apply foreign_letter |].
    repeat constructor; apply Hlira; (reflexivity || (left; reflexivity)
                                      || (right; reflexivity)).
  - apply (Hgoal (firstn 4 Helpers.patterns) (skipn 6 Helpers.patterns)
             (lit c_dollar) (N.eqb c_dollar));
      [reflexivity | repeat constructor | discriminate | apply reads_lit
      | apply needs_head_chr | now apply alien_lit
      | intros c; now apply foreign_dollar |].
    constructor; [apply Hlira; [reflexivity | left; reflexivity]|].
    constructor; [apply Hlira; [reflexivity | right; reflexivity]|].
    constructor; [apply Hletter; [reflexivity | left; reflexivity]|].
    constructor; [apply Hletter; [reflexivity | right; reflexivity]|].
    constructor.
  - apply (Hgoal (firstn 6 Helpers.patterns) (skipn 8 Helpers.patterns)
             (lit c_euro) (N.eqb c_euro));
      [reflexivity | repeat constructor | discriminate | apply reads_lit
      | apply needs_head_chr | now apply alien_lit
      | intros c; now apply foreign_euro |].
    constructor; [apply Hlira; [reflexivity | left; reflexivity]|].
    constructor; [apply Hlira; [reflexivity | right; reflexivity]|].
    constructor; [apply Hletter; [reflexivity | left; reflexivity]|].
    constructor; [apply Hletter; [reflexivity | right; reflexivity]|].
    constructor; [apply Hdollar; [reflexivity | reflexivity | left; reflexivity]|].
    constructor; [apply Hdollar; [reflexivity | reflexivity | right; reflexivity]|].
    constructor.
Qed.

(** [parsePrice] on a numeral alone. *)
Lemma parsePrice_bare (n : jsstring) (q : Q) :
  Facts.numeral n q ->
  Helpers.parsePrice n = {| Helpers.price := Num q; Helpers.currency := Helpers.TRY |}.
Proof.
  intros Hn.
  destruct (numeral_digit_led n q Hn) as (c0 & t0 & En & Hc0).
  assert (Nn : n <> []) by (rewrite En; discriminate).
  pose proof (numeral_visible n q Hn) as Vn.
  unfold Helpers.parsePrice.
  assert (E : is_empty n = false) by (rewrite En; reflexivity). rewrite E.
  unfold replace_ws_runs. rewrite (collapse_id n Vn), (trim_id n Vn).
  rewrite <- (parseFloat_numeral n q Hn).
  apply (first_match_wins (firstn 8 Helpers.patterns) [] re_number Helpers.TRY n n).
  - intros row Hin.
    assert (Hrow : exists p' r',
               Facts.needs_head p' r' /\ Facts.alien p' /\ Facts.row_of r' (fst row)).
    { cbn in Hin.
      destruct Hin as [<-|[<-|[<-|[<-|[<-|[<-|[<-|[<-|[]]]]]]]]]; cbn [fst].
      - exists (N.eqb c_lira), (lit c_lira).
        split; [apply needs_head_chr|]. split; [now apply alien_lit | now left].
      - exists (N.eqb c_lira), (lit c_lira).
        split; [apply needs_head_chr|]. split; [now apply alien_lit | now right].
      - exists (fun c => (c =? 84) || (c =? 84 + 32)), (Cat (ci 84) (ci 76)).
        split; [apply needs_head_cat|]. split; [apply alien_letter; lia | now left].
      - exists (fun c => (c =? 84) || (c =? 84 + 32)), (Cat (ci 84) (ci 76)).
        split; [apply needs_head_cat|]. split; [apply alien_letter; lia | now right].
      - exists (N.eqb c_dollar), (lit c_dollar).
        split; [apply needs_head_chr|]. split; [now apply alien_lit | now left].
      - exists (N.eqb c_dollar), (lit c_dollar).
        split; [apply needs_head_chr|]. split; [now apply alien_lit | now right].
      - exists (N.eqb c_euro), (lit c_euro).
        split; [apply needs_head_chr|]. split; [now apply alien_lit | now left].
      - exists (N.eqb c_euro), (lit c_euro).
        split; [apply needs_head_chr|]. split; [now apply alien_lit | now right]. }
    destruct Hrow as (p' & r' & Hh & Ha & Hr).
    now rewrite (row_fails_without_mark p' r' (fst row) n Hh Hr
                   (numeral_rejected p' n q Ha Hn)).
  - apply exec_at_start; [|exact Nn].
    rewrite <- (app_nil_r n) at 1. now apply (number_reads n q).
Qed.

(** C8: [parsePrice] goes through its pattern table in order (lira and TL
    patterns give TRY, then dollar gives USD, then euro gives EUR, then the
    bare number gives TRY) on the text with white-space runs collapsed and
    trimmed; the first pattern that matches decides the currency and its
    number, with a decimal comma turned into a period, is the price. So a
    numeral (digits, or digits, a period or comma, digits) with the lira
    sign, "TL" in either case, the dollar or the euro sign behind or in
    front of it, whatever white space stands between them, is read as its
    number in TRY, TRY, USD and EUR, also with other units around the two:
    any units that are no white space, digit, period, comma, lira sign or
    letter T or t, and no sign of the mark's own currency or of one
    earlier in the table (so the lira sign and "TL" win over a dollar or
    euro sign beside them, and the dollar sign over a euro sign); a
    numeral alone is read in TRY; and a text without digits gives
    0 TRY. *)
Theorem C8_parsePrice_first_pattern_wins :
  map snd Helpers.patterns
  = [Helpers.TRY; Helpers.TRY; Helpers.TRY; Helpers.TRY;
     Helpers.USD; Helpers.USD; Helpers.EUR; Helpers.EUR; Helpers.TRY]
  /\ skipn 8 Helpers.patterns = [(re_number, Helpers.TRY)]
  /\ (forall text pre re cur post g,
        text <> [] ->
        Helpers.patterns = pre ++ (re, cur) :: post ->
        (forall p, In p pre ->
           Helpers.truthy_group (exec (fst p) (trim (replace_ws_runs text))) = None) ->
        Helpers.truthy_group (exec re (trim (replace_ws_runs text))) = Some g ->
        Helpers.parsePrice text
        = {| Helpers.price := parseFloat (replace_first [c_comma] [c_dot] g);
             Helpers.currency := cur |})
  /\ (forall before after n q gap mark cur,
        Facts.numeral n q ->
        Forall (fun c => is_space c = true) gap ->
        In (mark, cur)
           [ ([c_lira], str "TRY");
             (str "TL", str "TRY"); (str "tl", str "TRY");
             (str "Tl", str "TRY"); (str "tL", str "TRY");
             (str "$", str "USD");
             ([c_euro], str "EUR") ] ->
        forallb (fun c =>
                   negb (is_space c) && negb (is_digit c) && negb (is_sep c)
                   && negb (c =? c_lira) && negb ((c =? 84) || (c =? 116))
                   && (JS.eqb cur (str "TRY") || negb (c =? c_dollar))
                   && (negb (JS.eqb cur (str "EUR")) || negb (c =? c_euro)))
                (before ++ after) = true ->
        Helpers.parsePrice (before ++ n ++ gap ++ mark ++ after)
        = {| Helpers.price := Num q; Helpers.currency := cur |}
        /\ Helpers.parsePrice (before ++ mark ++ gap ++ n ++ after)
           = {| Helpers.price := Num q; Helpers.currency := cur |})
  /\ (forall n q,
        Facts.numeral n q ->
        Helpers.parsePrice n
        = {| Helpers.price := Num q; Helpers.currency := str "TRY" |})
  /\ (forall d1 d2,
        Forall (fun c => is_digit c = true) d1 ->
        Forall (fun c => is_digit c = true) d2 ->
        d1 <> [] ->
        parseFloat (replace_first [c_comma] [c_dot] (d1 ++ c_comma :: d2))
        = Num (decimal d1 d2))
  /\ (forall text,
        existsb is_digit text = false ->
        Helpers.parsePrice text
        = {| Helpers.price := Num 0%Q; Helpers.currency := Helpers.TRY |})
  /\ Helpers.parsePrice (c_lira :: str "149,90")
     = {| Helpers.price := Num (1499 # 10)%Q; Helpers.currency := Helpers.TRY |}
  /\ Helpers.parsePrice (str "$19.99")
     = {| Helpers.price := Num (1999 # 100)%Q; Helpers.currency := Helpers.USD |}
  /\ Helpers.parsePrice (str "no digits")
     = {| Helpers.price := Num 0%Q; Helpers.currency := Helpers.TRY |}
  /\ Helpers.parsePrice (str "5$ 3" ++ [c_lira])
     = {| Helpers.price := Num 3%Q; Helpers.currency := Helpers.TRY |}.
Proof.
  split; [reflexivity|].
  split; [reflexivity|].
  split.
  { intros text pre re cur post g Hne Hpat Hpre Hre.
    unfold Helpers.parsePrice. destruct text as [|c t]; [congruence|].
    cbn [is_empty]. rewrite Hpat. now apply first_match_wins. }
  split.
  { intros before after n q gap mark cur Hn Hgap Hin Hj.
    rewrite forallb_app in Hj. apply andb_true_iff in Hj. destruct Hj as [Hj1 Hj2].
    apply parsePrice_marked; assumption. }
  split.
  { intros n q Hn. now apply parsePrice_bare. }
  split.
  { intros d1 d2 H1 H2 Hne.
    rewrite (replace_comma_after_digits d1 d2 H1). now apply parseFloat_decimal. }
  split.
  { intros text H. apply parsePrice_digit_free. now apply digit_free_existsb. }
  repeat split; vm_compute; reflexivity.
Qed.

Lemma C8_parsePrice_first_pattern_wins_witness :
  Helpers.parsePrice (str "19.99 $ / 18 " ++ [c_euro])
  = {| Helpers.price := parseFloat (str "19.99"); Helpers.currency := Helpers.USD |}
  /\ Helpers.parsePrice (str "7,5" ++ [32; 9] ++ [c_euro])
     = {| Helpers.price := Num (15 # 2)%Q; Helpers.currency := str "EUR" |}
  /\ Helpers.parsePrice (str "tl100")
     = {| Helpers.price := Num 100%Q; Helpers.currency := str "TRY" |}
  /\ Helpers.parsePrice ([c_euro] ++ str "5TL!")
     = {| Helpers.price := Num 5%Q; Helpers.currency := str "TRY" |}
  /\ Helpers.parsePrice ([c_lira] ++ str " 5$")
     = {| Helpers.price := Num 5%Q; Helpers.currency := str "TRY" |}
  /\ Helpers.parsePrice (str "5" ++ [c_lira; c_euro])
     = {| Helpers.price := Num 5%Q; Helpers.currency := str "TRY" |}
  /\ Helpers.parsePrice (str "$5" ++ [c_euro])
     = {| Helpers.price := Num 5%Q; Helpers.currency := str "USD" |}
  /\ Helpers.parsePrice (str "5$" ++ [c_euro])
     = {| Helpers.price := Num 5%Q; Helpers.currency := str "USD" |}
  /\ Helpers.parsePrice (str "1.250")
     = {| Helpers.price := Num (5 # 4)%Q; Helpers.currency := str "TRY" |}
  /\ parseFloat (replace_first [c_comma] [c_dot] (str "149" ++ c_comma :: str "90"))
     = Num (decimal (str "149") (str "90"))
  /\ Helpers.parsePrice (str "free")
     = {| Helpers.price := Num 0%Q; Helpers.currency := Helpers.TRY |}.
Proof.
  destruct C8_parsePrice_first_pattern_wins
    as (_ & _ & Hfirst & Hmark & Hbare & Hcomma & Hnone & _).
  assert (N75 : Facts.numeral (str "7,5") (15 # 2)%Q).
  { apply (Facts.fraction (str "7") (str "5") c_comma);
      try discriminate; repeat constructor. }
  assert (N100 : Facts.numeral (str "100") 100%Q).
  { apply (Facts.integer (str "100")); try discriminate; repeat constructor. }
  assert (N5 : Facts.numeral (str "5") 5%Q).
  { apply (Facts.integer (str "5")); try discriminate; repeat constructor. }
  assert (N1250 : Facts.numeral (str "1.250") (5 # 4)%Q).
  { apply (Facts.fraction (str "1") (str "250") c_dot);
      try discriminate; repeat constructor. }
  split; [|split; [|split; [|split; [|split; [|split; [|split; [|split;
    [|split; [|split]]]]]]]]].
  - apply (Hfirst (str "19.99 $ / 18 " ++ [c_euro])
             (firstn 4 Helpers.patterns)
             (Cat re_number (Cat re_ws (lit c_dollar))) Helpers.USD
             (skipn 5 Helpers.patterns) (str "19.99")).
    + discriminate.
    + reflexivity.
    + intros p Hp. cbn in Hp.
      destruct Hp as [<-|[<-|[<-|[<-|[]]]]]; vm_compute; reflexivity.
    + vm_compute. reflexivity.
  - apply (proj1 (Hmark [] [] (str "7,5") (15 # 2)%Q [32; 9] [c_euro] (str "EUR") N75
                    ltac:(repeat constructor) ltac:(cbn; tauto) eq_refl)).
  - apply (proj2 (Hmark [] [] (str "100") 100%Q [] (str "tl") (str "TRY") N100
                    ltac:(constructor) ltac:(cbn; tauto) eq_refl)).
  - apply (proj1 (Hmark [c_euro] (str "!") (str "5") 5%Q [] (str "TL") (str "TRY") N5
                    ltac:(constructor) ltac:(cbn; tauto) eq_refl)).
  - apply (proj2 (Hmark [] (str "$") (str "5") 5%Q [32] [c_lira] (str "TRY") N5
                    ltac:(repeat constructor) ltac:(cbn; tauto) eq_refl)).
  - apply (proj1 (Hmark [] [c_euro] (str "5") 5%Q [] [c_lira] (str "TRY") N5
                    ltac:(constructor) ltac:(cbn; tauto) eq_refl)).
  - apply (proj2 (Hmark [] [c_euro] (str "5") 5%Q [] (str "$") (str "USD") N5
                    ltac:(constructor) ltac:(cbn; tauto) eq_refl)).
  - apply (proj1 (Hmark [] [c_euro] (str "5") 5%Q [] (str "$") (str "USD") N5
                    ltac:(constructor) ltac:(cbn; tauto) eq_refl)).
  - apply (Hbare (str "1.250") (5 # 4)%Q N1250).
  - apply Hcomma.
    + repeat constructor.
    + repeat constructor.
    + discriminate.
  - apply Hnone. reflexivity.
Defined.

(* ================================================================== *)
(** * http-orchestrator.ts: the batch loop                            *)
(* ================================================================== *)

Section BatchLoop.
Variable P : Platform.
Variable E : HttpOrchestrator.Extractors.

Lemma scrapeUrlHttp_settles (url : jsstring) (i : nat) (st : HttpOrchestrator.Store) :
  HttpOrchestrator.scrapeUrlHttp P E url i st
  = (Ok (HttpOrchestrator.outcome P E url i),
     {| HttpOrchestrator.results := HttpOrchestrator.results st;
        HttpOrchestrator.calls :=
          HttpOrchestrator.calls st ++ [HttpOrchestrator.call_of P url] |}).
Proof.
  unfold HttpOrchestrator.scrapeUrlHttp, HttpOrchestrator.outcome,
    HttpOrchestrator.dispatch, HttpOrchestrator.call_of, HttpOrchestrator.catch,
    HttpOrchestrator.mbind, HttpOrchestrator.record_call, HttpOrchestrator.lift,
    HttpOrchestrator.ret.
  destruct (Factory.has Factory.FLARESOLVERR_REQUIRED_DOMAINS
              (Helpers.extractDomain P url)); cbn.
  - destruct (HttpOrchestrator.flaresolverr_scrapeUrl E i _ url); reflexivity.
  - destruct (HttpOrchestrator.puppeteer_scrapeUrl E i _ url); cbn; [|reflexivity].
    destruct (HttpOrchestrator.puppeteer_close E i); reflexivity.
Qed.

Lemma scrape_one_pushes (total : nat) (cb : option (nat -> nat -> result unit))
    (url : jsstring) (i : nat) (st : HttpOrchestrator.Store) :
  HttpOrchestrator.scrape_one P E total cb url i st
  = (Ok tt,
     {| HttpOrchestrator.results :=
          HttpOrchestrator.results st ++ HttpOrchestrator.pushed P E total cb url i;
        HttpOrchestrator.calls :=
          HttpOrchestrator.calls st ++ [HttpOrchestrator.call_of P url] |}).
Proof.
  unfold HttpOrchestrator.scrape_one, HttpOrchestrator.catch, HttpOrchestrator.mbind.
  rewrite scrapeUrlHttp_settles.
  unfold HttpOrchestrator.push, HttpOrchestrator.pushed, HttpOrchestrator.lift,
    HttpOrchestrator.ret.
  cbn [HttpOrchestrator.results HttpOrchestrator.calls].
  destruct cb as [callback|]; [destruct (callback (i + 1)%nat total) as [[]|]|];
    cbn [HttpOrchestrator.results HttpOrchestrator.calls];
    rewrite <- ?app_assoc; reflexivity.
Qed.

Lemma scrape_from_pushes (total : nat) (cb : option (nat -> nat -> result unit))
    (urls : list jsstring) :
  forall (i : nat) (st : HttpOrchestrator.Store),
    HttpOrchestrator.scrape_from P E total cb urls i st
    = (Ok tt,
       {| HttpOrchestrator.results :=
            HttpOrchestrator.results st ++ HttpOrchestrator.pushed_from P E total cb urls i;
          HttpOrchestrator.calls :=
            HttpOrchestrator.calls st ++ map (HttpOrchestrator.call_of P) urls |}).
Proof.
  induction urls as [|url rest IH]; intros i st.
  - cbn. rewrite !app_nil_r. now destruct st.
  - cbn [HttpOrchestrator.scrape_from HttpOrchestrator.pushed_from map].
    unfold HttpOrchestrator.mbind. rewrite scrape_one_pushes, IH.
    cbn [HttpOrchestrator.results HttpOrchestrator.calls].
    rewrite <- !app_assoc. reflexivity.
Qed.

Lemma scrapeUrls_unfolds (batchId : jsstring) (timestamp : N) (urls : list jsstring)
    (cb : option (nat -> nat -> result unit)) :
  HttpOrchestrator.scrapeUrls P E batchId timestamp urls cb
  = (Ok (HttpOrchestrator.createBatchResult urls
           (HttpOrchestrator.pushed_from P E (length urls) cb urls 0)
           batchId timestamp),
     map (HttpOrchestrator.call_of P) urls).
Proof.
  unfold HttpOrchestrator.scrapeUrls. rewrite scrape_from_pushes. reflexivity.
Qed.

Lemma outcome_in_pushed_from (total : nat) (cb : option (nat -> nat -> result unit))
    (urls : list jsstring) :
  forall (k i : nat) (url : jsstring),
    nth_error urls k = Some url ->
    In (HttpOrchestrator.outcome P E url (i + k))
       (HttpOrchestrator.pushed_from P E total cb urls i).
Proof.
  induction urls as [|u rest IH]; intros k i url H.
  - destruct k; discriminate H.
  - cbn [HttpOrchestrator.pushed_from]. apply in_or_app. destruct k as [|k].
    + injection H as ->. left. rewrite Nat.add_0_r. now left.
    + right. replace (i + S k)%nat with (S i + k)%nat by lia. now apply IH.
Qed.

Lemma pushed_from_quiet (total : nat) (cb : option (nat -> nat -> result unit))
    (urls : list jsstring) :
  (forall callback n, cb = Some callback -> exists u, callback n total = Ok u) ->
  forall i,
    HttpOrchestrator.pushed_from P E total cb urls i
    = map (fun p => HttpOrchestrator.outcome P E (snd p) (fst p))
        (combine (seq i (length urls)) urls).
Proof.
  intros Hcb. induction urls as [|u rest IH]; intros i; [reflexivity|].
  cbn [HttpOrchestrator.pushed_from length seq combine map fst snd].
  rewrite IH. unfold HttpOrchestrator.pushed.
  destruct cb as [callback|]; [|reflexivity].
  destruct (Hcb callback (i + 1)%nat eq_refl) as [u0 ->]. reflexivity.
Qed.

End BatchLoop.

Lemma bypass_domains (domain : jsstring) :
  Factory.has Factory.FLARESOLVERR_REQUIRED_DOMAINS domain = true
  <-> domain = str "oyuneks.com" \/ domain = str "liderepin.com".
Proof.
  unfold Factory.has, Factory.FLARESOLVERR_REQUIRED_DOMAINS. cbn [existsb].
  rewrite orb_false_r, orb_true_iff, !eqb_eq. tauto.
Qed.

(** No domain is in both sets of the factory. *)
Lemma bypass_domains_not_rendered (domain : jsstring) :
  Factory.has Factory.FLARESOLVERR_REQUIRED_DOMAINS domain = true ->
  Factory.has Factory.PUPPETEER_REQUIRED_DOMAINS domain = false.
Proof. intros H. apply bypass_domains in H. destruct H as [->| ->]; reflexivity. Qed.

Lemma has_In (set : list jsstring) (x : jsstring) :
  Factory.has set x = true <-> In x set.
Proof.
  unfold Factory.has. rewrite existsb_exists. split.
  - intros (y & Hy & E). apply eqb_eq in E. now subst y.
  - intros H. exists x. split; [exact H | now apply eqb_eq].
Qed.

(** The three cases of [SITE_CONFIGS[domain] || getGenericConfig(domain)]. *)
Lemma config_for_cases (domain : jsstring) :
  (forall profile,
     Factory.lookup Factory.SITE_CONFIGS domain = Some profile ->
     HttpOrchestrator.config_for domain = Factory.Profile profile)
  /\ (Factory.lookup Factory.SITE_CONFIGS domain = None ->
      Factory.has Factory.Object_prototype_names domain = false ->
      HttpOrchestrator.config_for domain
      = Factory.Profile (HttpOrchestrator.getGenericConfig domain))
  /\ (Factory.lookup Factory.SITE_CONFIGS domain = None ->
      Factory.has Factory.Object_prototype_names domain = true ->
      HttpOrchestrator.config_for domain = Factory.Inherited domain).
Proof.
  unfold HttpOrchestrator.config_for, Factory.get. repeat split.
  - now intros profile ->.
  - now intros -> ->.
  - now intros -> ->.
Qed.

(** No inherited name is a key of the registry or a bypass domain. *)
Lemma inherited_names_unregistered (domain : jsstring) :
  Factory.has Factory.Object_prototype_names domain = true ->
  Factory.lookup Factory.SITE_CONFIGS domain = None
  /\ Factory.has Factory.FLARESOLVERR_REQUIRED_DOMAINS domain = false.
Proof.
  intros H. apply has_In in H. unfold Factory.Object_prototype_names in H.
  cbn [In] in H.
  repeat (destruct H as [<-|H]; [split; vm_compute; reflexivity|]).
  destruct H.
Qed.

Lemma puppeteer_run_with_items (waitFor : option jsstring) (items items' : list ScrapedItem.t)
    (page : Browser.t) (url : jsstring) :
  PuppeteerScraper.run_with waitFor items page url = Ok items' -> items' = items.
Proof.
  unfold PuppeteerScraper.run_with.
  destruct (Browser.launch page); [|discriminate].
  destruct (Browser.newPage page); [|discriminate].
  destruct (Browser.configure page); [|discriminate]. cbn [JS.bind].
  destruct (if includes url (str "vatangame.com") then Ok tt
            else Browser.setRequestInterception page); [|discriminate].
  cbn [JS.bind].
  destruct (try_catch (Browser.goto_primary page) _); [|discriminate]. cbn [JS.bind].
  destruct (if includes url (str "vatangame.com") then Browser.settle_and_scroll page
            else Ok tt); [|discriminate].
  cbn [JS.bind].
  destruct (if PuppeteerScraper.truthy waitFor then _ else _); [|discriminate].
  cbn [JS.bind].
  destruct (Browser.page_close page); [|discriminate]. cbn [JS.bind].
  intros H. now injection H as <-.
Qed.

(** A scraper built on an inherited member never yields an item. *)
Lemma puppeteer_scrape_inherited (P : Platform) (name : jsstring) (page : Browser.t)
    (url : jsstring) :
  let r := PuppeteerScraper.scrape P (Factory.Inherited name) page url in
  ScrapingResult.success r = false
  /\ ScrapingResult.items r = []
  /\ ScrapingResult.url r = url
  /\ ScrapingResult.siteName r = Helpers.extractDomain P url.
Proof.
  cbv zeta. cbn [PuppeteerScraper.scrape].
  unfold PuppeteerScraper.scrapeUrl_inherited, PuppeteerScraper.settle.
  destruct (PuppeteerScraper.run_with None [] page url) as [items|error] eqn:Hrun.
  - apply puppeteer_run_with_items in Hrun. subst items. repeat split.
  - repeat split.
Qed.

Lemma flaresolverr_scrape_inherited (P : Platform) (name : jsstring) (service : Bypass.t)
    (url : jsstring) :
  let r := FlareSolverrScraper.scrape P (Factory.Inherited name) service url in
  ScrapingResult.success r = false
  /\ ScrapingResult.items r = []
  /\ ScrapingResult.url r = url
  /\ ScrapingResult.siteName r = Helpers.extractDomain P url.
Proof.
  cbv zeta. cbn [FlareSolverrScraper.scrape].
  unfold FlareSolverrScraper.scrapeUrl_inherited, FlareSolverrScraper.settle,
    FlareSolverrScraper.run_with.
  destruct (try_catch _ _) as [[]|]; cbn [JS.bind]; [|repeat split].
  destruct (Bypass.request_get service) as [resp|]; cbn [JS.bind]; [|repeat split].
  destruct (negb _); [repeat split|].
  destruct (Bypass.solution_response resp); cbn [JS.bind]; repeat split.
Qed.

(** C4: [scrapeUrlHttp] calls exactly one scraper and returns what it
    answers (its result, or the failed result of the [catch] block when it
    throws): the FlareSolverr scraper when the domain of the URL is
    "oyuneks.com" or "liderepin.com", the Puppeteer scraper, closed after
    use, for every other domain. The scraper is built on the registered
    profile of the domain, and on the generic profile for a domain that
    has none, except when the domain is the name of a member of
    [Object.prototype] ("constructor", "__proto__", ...): the property
    read finds that member, the generic profile is not built, and the
    Puppeteer scraper of this repository never gets an item out of such a
    URL. *)
Theorem C4_dispatch_by_domain (P : Platform) (E : HttpOrchestrator.Extractors)
    (url : jsstring) (i : nat) (st : HttpOrchestrator.Store) :
  let domain := Helpers.extractDomain P url in
  let bypass := domain = str "oyuneks.com" \/ domain = str "liderepin.com" in
  let failed_with error :=
    {| ScrapingResult.success := false;
       ScrapingResult.url := url;
       ScrapingResult.items := [];
       ScrapingResult.error :=
         Some match error with
              | ErrorObj message => message
              | OtherThrown => str "Unknown error"
              end;
       ScrapingResult.responseTime := 0;
       ScrapingResult.siteName := domain |} in
  let logged call :=
    {| HttpOrchestrator.results := HttpOrchestrator.results st;
       HttpOrchestrator.calls := HttpOrchestrator.calls st ++ [call] |} in
  exists config,
    (bypass ->
     HttpOrchestrator.scrapeUrlHttp P E url i st
     = (Ok match HttpOrchestrator.flaresolverr_scrapeUrl E i config url with
           | Ok result => result
           | Throw error => failed_with error
           end,
        logged {| HttpOrchestrator.extractor := HttpOrchestrator.FlareSolverr;
                  HttpOrchestrator.config := config;
                  HttpOrchestrator.target := url |}))
    /\ (~ bypass ->
        HttpOrchestrator.scrapeUrlHttp P E url i st
        = (Ok match HttpOrchestrator.puppeteer_scrapeUrl E i config url with
              | Ok result =>
                  match HttpOrchestrator.puppeteer_close E i with
                  | Ok _ => result
                  | Throw error => failed_with error
                  end
              | Throw error => failed_with error
              end,
           logged {| HttpOrchestrator.extractor := HttpOrchestrator.Puppeteer;
                     HttpOrchestrator.config := config;
                     HttpOrchestrator.target := url |}))
    /\ (forall profile,
          Factory.lookup Factory.SITE_CONFIGS domain = Some profile ->
          config = Factory.Profile profile)
    /\ (Factory.lookup Factory.SITE_CONFIGS domain = None ->
        Factory.has Factory.Object_prototype_names domain = false ->
        config = Factory.Profile (HttpOrchestrator.getGenericConfig domain))
    /\ (Factory.has Factory.Object_prototype_names domain = true ->
        config = Factory.Inherited domain
        /\ config <> Factory.Profile (HttpOrchestrator.getGenericConfig domain)
        /\ ~ bypass
        /\ forall world,
             exists result,
               fst (HttpOrchestrator.scrapeUrlHttp P (HttpOrchestrator.scrapers P world)
                      url i st) = Ok result
               /\ ScrapingResult.success result = false
               /\ ScrapingResult.items result = []).
Proof.
  cbv zeta. exists (HttpOrchestrator.config_for (Helpers.extractDomain P url)).
  pose proof (bypass_domains (Helpers.extractDomain P url)) as Hb.
  destruct (config_for_cases (Helpers.extractDomain P url)) as (Hreg & Hgen & Hinh).
  split; [|split; [|split; [exact Hreg|split; [exact Hgen|]]]].
  - intros Hin. apply Hb in Hin. rewrite scrapeUrlHttp_settles.
    unfold HttpOrchestrator.outcome, HttpOrchestrator.dispatch, HttpOrchestrator.call_of.
    rewrite Hin.
    now destruct (HttpOrchestrator.flaresolverr_scrapeUrl E i _ url).
  - intros Hout.
    assert (Hhas : Factory.has Factory.FLARESOLVERR_REQUIRED_DOMAINS
                     (Helpers.extractDomain P url) = false).
    { destruct (Factory.has _ _); [|reflexivity]. exfalso. apply Hout. now apply Hb. }
    rewrite scrapeUrlHttp_settles.
    unfold HttpOrchestrator.outcome, HttpOrchestrator.dispatch, HttpOrchestrator.call_of.
    rewrite Hhas.
    destruct (HttpOrchestrator.puppeteer_scrapeUrl E i _ url); cbn [JS.bind]; [|reflexivity].
    now destruct (HttpOrchestrator.puppeteer_close E i).
  - intros Hname. destruct (inherited_names_unregistered _ Hname) as [Hnone Hhas].
    rewrite (Hinh Hnone Hname).
    split; [reflexivity|]. split; [discriminate|]. split.
    { intros Hin. apply Hb in Hin. congruence. }
    intros world. rewrite scrapeUrlHttp_settles. cbn [fst]. eexists. split; [reflexivity|].
    unfold HttpOrchestrator.outcome, HttpOrchestrator.dispatch, HttpOrchestrator.scrapers.
    cbn [HttpOrchestrator.flaresolverr_scrapeUrl HttpOrchestrator.puppeteer_scrapeUrl
         HttpOrchestrator.puppeteer_close].
    rewrite Hhas, (Hinh Hnone Hname). cbn [JS.bind].
    destruct (PuppeteerScraper.close _) as [[]|error]; cbn [JS.bind].
    + destruct (puppeteer_scrape_inherited P (Helpers.extractDomain P url)
                  (HttpOrchestrator.browser (world i)) url) as (H1 & H2 & _).
      split; assumption.
    + split; reflexivity.
Qed.

Lemma C4_dispatch_by_domain_witness :
  Helpers.extractDomain Sample.platform Sample.inherited_url = str "constructor"
  /\ ScrapingResult.success
       (PuppeteerScraper.scrapeUrl Sample.platform
          (HttpOrchestrator.getGenericConfig (str "constructor"))
          (Sample.page_with Sample.generic_document) Sample.inherited_url) = true
  /\ exists result,
       fst (HttpOrchestrator.scrapeUrlHttp Sample.platform
              (HttpOrchestrator.scrapers Sample.platform
                 (fun _ => {| HttpOrchestrator.browser :=
                                Sample.page_with Sample.generic_document;
                              HttpOrchestrator.bypass := Sample.empty_service |}))
              Sample.inherited_url 0
              {| HttpOrchestrator.results := []; HttpOrchestrator.calls := [] |})
       = Ok result
       /\ ScrapingResult.success result = false
       /\ ScrapingResult.items result = [].
Proof.
  split; [reflexivity|]. split; [vm_compute; reflexivity|].
  destruct (C4_dispatch_by_domain Sample.platform
              (HttpOrchestrator.scrapers Sample.platform
                 (fun _ => {| HttpOrchestrator.browser :=
                                Sample.page_with Sample.generic_document;
                              HttpOrchestrator.bypass := Sample.empty_service |}))
              Sample.inherited_url 0
              {| HttpOrchestrator.results := []; HttpOrchestrator.calls := [] |})
    as (config & _ & _ & _ & _ & Hbug).
  destruct Hbug as (_ & _ & _ & Hworld); [reflexivity|].
  apply Hworld.
Defined.

Lemma callback_failure_in_pushed_from (P : Platform) (E : HttpOrchestrator.Extractors)
    (total : nat) (callback : nat -> nat -> result unit) (urls : list jsstring) :
  forall (k i : nat) (url : jsstring) (error : thrown),
    nth_error urls k = Some url ->
    callback (i + k + 1)%nat total = Throw error ->
    In (HttpOrchestrator.failed url (Helpers.extractDomain P url) error)
       (HttpOrchestrator.pushed_from P E total (Some callback) urls i).
Proof.
  induction urls as [|u rest IH]; intros k i url error H Hcb.
  - destruct k; discriminate H.
  - cbn [HttpOrchestrator.pushed_from]. apply in_or_app. destruct k as [|k].
    + injection H as ->. left. unfold HttpOrchestrator.pushed.
      rewrite Nat.add_0_r in Hcb. rewrite Hcb. right. now left.
    + right. apply (IH k (S i)); [exact H|].
      replace (S i + k + 1)%nat with (i + S k + 1)%nat by lia. exact Hcb.
Qed.

(** C3: [scrapeUrls] always returns a batch, whatever the scrapers and the
    progress callback do. When the scraper called for a URL throws (or,
    for the Puppeteer scraper, its [close]), that URL gets a failed result:
    success false, no items, and as error the message of the thrown
    [Error], or "Unknown error" when something else was thrown; an error
    thrown by the progress callback becomes such a failed result too. A
    scraper that returns has its result taken as it is; and every URL of
    the list, also after a failing one, has its own result in the
    batch. *)
Theorem C3_thrown_errors_become_failed_results (P : Platform)
    (E : HttpOrchestrator.Extractors) (batchId : jsstring) (timestamp : N)
    (urls : list jsstring) (cb : option (nat -> nat -> result unit)) :
  let failed_with url text :=
    {| ScrapingResult.success := false;
       ScrapingResult.url := url;
       ScrapingResult.items := [];
       ScrapingResult.error := Some text;
       ScrapingResult.responseTime := 0;
       ScrapingResult.siteName := Helpers.extractDomain P url |} in
  exists batch deliver calls,
    HttpOrchestrator.scrapeUrls P E batchId timestamp urls cb
    = (Ok (batch, deliver), calls)
    /\ BatchResult.results batch
       = HttpOrchestrator.pushed_from P E (length urls) cb urls 0
    /\ (cb = None ->
        BatchResult.results batch
        = map (fun p => HttpOrchestrator.outcome P E (snd p) (fst p))
            (combine (seq 0 (length urls)) urls))
    /\ (forall i url,
          nth_error urls i = Some url ->
          In (HttpOrchestrator.outcome P E url i) (BatchResult.results batch))
    /\ (forall i url message,
          Facts.scraper_throws P E url i (ErrorObj message) ->
          HttpOrchestrator.outcome P E url i = failed_with url message)
    /\ (forall i url,
          Facts.scraper_throws P E url i OtherThrown ->
          HttpOrchestrator.outcome P E url i = failed_with url (str "Unknown error"))
    /\ (forall i url result,
          Facts.scraper_returns P E url i result ->
          HttpOrchestrator.outcome P E url i = result)
    /\ (forall i url callback message,
          cb = Some callback ->
          nth_error urls i = Some url ->
          callback (i + 1)%nat (length urls) = Throw (ErrorObj message) ->
          In (failed_with url message) (BatchResult.results batch))
    /\ (forall i url callback,
          cb = Some callback ->
          nth_error urls i = Some url ->
          callback (i + 1)%nat (length urls) = Throw OtherThrown ->
          In (failed_with url (str "Unknown error")) (BatchResult.results batch)).
Proof.
  cbv zeta. rewrite scrapeUrls_unfolds.
  destruct (HttpOrchestrator.createBatchResult urls
              (HttpOrchestrator.pushed_from P E (length urls) cb urls 0)
              batchId timestamp) as [batch deliver] eqn:Hb.
  exists batch, deliver, (map (HttpOrchestrator.call_of P) urls).
  assert (Hres : BatchResult.results batch
                 = HttpOrchestrator.pushed_from P E (length urls) cb urls 0).
  { unfold HttpOrchestrator.createBatchResult in Hb. injection Hb as <- _. reflexivity. }
  assert (Hthrow : forall i url error,
            Facts.scraper_throws P E url i error ->
            HttpOrchestrator.dispatch P E url i = Throw error).
  { intros i url error. unfold Facts.scraper_throws, HttpOrchestrator.dispatch.
    destruct (Factory.has _ _); [now intros ->|].
    intros [->|(r & -> & Hclose)]; [reflexivity|]. cbn [JS.bind]. now rewrite Hclose. }
  split; [reflexivity|]. rewrite Hres.
  split; [reflexivity|]. split; [|split; [|split; [|split; [|split; [|split]]]]].
  - intros ->. apply pushed_from_quiet. discriminate.
  - intros i url H. apply (outcome_in_pushed_from P E (length urls) cb urls i 0 url H).
  - intros i url message H. unfold HttpOrchestrator.outcome.
    now rewrite (Hthrow _ _ _ H).
  - intros i url H. unfold HttpOrchestrator.outcome. now rewrite (Hthrow _ _ _ H).
  - intros i url result. unfold Facts.scraper_returns, HttpOrchestrator.outcome,
      HttpOrchestrator.dispatch.
    destruct (Factory.has _ _); [now intros ->|].
    intros [-> Hclose]. cbn [JS.bind]. now rewrite Hclose.
  - intros i url callback message -> H Hcb.
    apply (callback_failure_in_pushed_from P E (length urls) callback urls i 0 url
             (ErrorObj message) H Hcb).
  - intros i url callback -> H Hcb.
    apply (callback_failure_in_pushed_from P E (length urls) callback urls i 0 url
             OtherThrown H Hcb).
Qed.

Lemma C3_thrown_errors_become_failed_results_witness :
  exists batch deliver calls,
    HttpOrchestrator.scrapeUrls Sample.platform Sample.stubs (str "batch_1_abc") 1
      [Sample.bad_url; Sample.good_url] None
    = (Ok (batch, deliver), calls)
    /\ BatchResult.results batch
       = [ {| ScrapingResult.success := false;
              ScrapingResult.url := Sample.bad_url;
              ScrapingResult.items := [];
              ScrapingResult.error := Some (str "net::ERR_CONNECTION_RESET");
              ScrapingResult.responseTime := 0;
              ScrapingResult.siteName := str "bad.example.com" |};
           Sample.stub_result Sample.good_url ].
Proof.
  destruct (C3_thrown_errors_become_failed_results Sample.platform Sample.stubs
              (str "batch_1_abc") 1 [Sample.bad_url; Sample.good_url] None)
    as (batch & deliver & calls & Hrun & _ & Hquiet & _ & Hfail & _ & Hok & _).
  exists batch, deliver, calls. split; [exact Hrun|].
  rewrite (Hquiet eq_refl).
  cbn [length seq combine map fst snd].
  rewrite (Hfail 0%nat Sample.bad_url (str "net::ERR_CONNECTION_RESET"))
    by (left; reflexivity).
  rewrite (Hok 1%nat Sample.good_url (Sample.stub_result Sample.good_url))
    by reflexivity.
  reflexivity.
Defined.

(** ** The counts of a batch *)

Lemma fold_left_sum {A} (f : A -> nat) (l : list A) (a : nat) :
  fold_left (fun sum r => (sum + f r)%nat) l a = (a + list_sum (map f l))%nat.
Proof.
  revert a. induction l as [|x l IH]; intros a; simpl.
  - lia.
  - rewrite IH. lia.
Qed.


Lemma createBatchResult_counts (urls : list jsstring) (results : list ScrapingResult.t)
    (batchId : jsstring) (timestamp : N) :
  let batch := fst (HttpOrchestrator.createBatchResult urls results batchId timestamp) in
  BatchResult.totalUrls batch = length urls
  /\ BatchResult.results batch = results
  /\ (BatchResult.successCount batch + BatchResult.failedCount batch)%nat = length results
  /\ BatchResult.totalItems batch
     = list_sum (map (fun r => length (ScrapingResult.items r)) results).
Proof.
  cbn. repeat split.
  - pose proof (filter_length_le ScrapingResult.success results). lia.
  - apply (fold_left_sum (fun r => length (ScrapingResult.items r)) results 0).
Qed.

(** What every result of the two scrapers carries, whatever they are
    built on. *)
Lemma flaresolverr_scrape_shape (P : Platform) (config : Factory.config_value)
    (service : Bypass.t) (url : jsstring) :
  let r := FlareSolverrScraper.scrape P config service url in
  ScrapingResult.url r = url
  /\ ScrapingResult.siteName r = Helpers.extractDomain P url
  /\ (ScrapingResult.success r = false -> ScrapingResult.items r = []).
Proof.
  cbv zeta. destruct config as [profile|name].
  - cbn [FlareSolverrScraper.scrape].
    unfold FlareSolverrScraper.scrapeUrl, FlareSolverrScraper.settle.
    destruct (FlareSolverrScraper.run _ _ _ _); cbn; repeat split. discriminate.
  - destruct (flaresolverr_scrape_inherited P name service url) as (_ & H2 & H3 & H4).
    split; [exact H3|]. split; [exact H4|]. intros _. exact H2.
Qed.

Lemma puppeteer_scrape_shape (P : Platform) (config : Factory.config_value)
    (page : Browser.t) (url : jsstring) :
  let r := PuppeteerScraper.scrape P config page url in
  ScrapingResult.url r = url
  /\ ScrapingResult.siteName r = Helpers.extractDomain P url
  /\ (ScrapingResult.success r = false -> ScrapingResult.items r = []).
Proof.
  cbv zeta. destruct config as [profile|name].
  - cbn [PuppeteerScraper.scrape].
    unfold PuppeteerScraper.scrapeUrl, PuppeteerScraper.settle.
    destruct (PuppeteerScraper.run _ _ _ _) as [[|item items]|]; cbn; repeat split.
    discriminate.
  - destruct (puppeteer_scrape_inherited P name page url) as (_ & H2 & H3 & H4).
    split; [exact H3|]. split; [exact H4|]. intros _. exact H2.
Qed.

Section RealScrapers.
Variable P : Platform.
Variable world : nat -> HttpOrchestrator.Site.




End RealScrapers.

(** C1: with a progress callback that throws, [scrapeUrls] records two
    results for one URL: the result of the scraper, pushed before the
    callback runs, and the failed result of the [catch] block. For one
    URL the batch then has [successCount = 1] and [failedCount = 1] while
    [totalUrls = 1]. *)
Theorem C1_throwing_callback_duplicates_result :
  exists batch deliver calls,
    HttpOrchestrator.scrapeUrls Sample.platform
      (HttpOrchestrator.scrapers Sample.platform Sample.turkpin_world)
      (str "batch_1_abc") 1 [Sample.turkpin_url] (Some Sample.throwing_callback)
    = (Ok (batch, deliver), calls)
    /\ BatchResult.totalUrls batch = 1%nat
    /\ length (BatchResult.results batch) = 2%nat
    /\ map ScrapingResult.url (BatchResult.results batch)
       = [Sample.turkpin_url; Sample.turkpin_url]
    /\ BatchResult.successCount batch = 1%nat
    /\ BatchResult.failedCount batch = 1%nat
    /\ (BatchResult.successCount batch + BatchResult.failedCount batch)%nat
       <> BatchResult.totalUrls batch.
Proof.
  rewrite scrapeUrls_unfolds.
  do 3 eexists. split; [reflexivity|].
  repeat split; try (vm_compute; reflexivity).
  vm_compute. discriminate.
Qed.

(* ================================================================== *)
(** * The two extractors                                              *)
(* ================================================================== *)

Lemma nonempty_length {A} (l : list A) : (0 <? length l)%nat = true <-> l <> [].
Proof. destruct l; cbn; split; intro H; congruence. Qed.

(** C2: the Puppeteer scraper reports success exactly when its result
    carries at least one item, and a result without items is a failure with
    an error message ("No items found with Puppeteer" when the run itself
    did not throw); the FlareSolverr scraper reports success whenever its
    fetch and parse complete without a throw, with whatever items came
    out, the empty list included. *)
Theorem C2_empty_result_asymmetry (P : Platform) (config : SiteConfig.t)
    (url : jsstring) :
  (forall page,
     let r := PuppeteerScraper.scrapeUrl P config page url in
     (ScrapingResult.success r = true <-> ScrapingResult.items r <> [])
     /\ (ScrapingResult.success r = true <->
         exists item items,
           PuppeteerScraper.run P config page url = Ok (item :: items))
     /\ (ScrapingResult.items r = [] ->
         ScrapingResult.success r = false
         /\ exists msg, ScrapingResult.error r = Some msg)
     /\ (forall items,
           PuppeteerScraper.run P config page url = Ok items ->
           ScrapingResult.items r = items
           /\ (items = [] ->
               ScrapingResult.error r = Some (str "No items found with Puppeteer"))))
  /\ (forall service,
        let r := FlareSolverrScraper.scrapeUrl P config service url in
        (forall items,
           FlareSolverrScraper.run P config service url = Ok items ->
           ScrapingResult.success r = true
           /\ ScrapingResult.items r = items
           /\ ScrapingResult.error r = None)
        /\ (forall err,
              FlareSolverrScraper.run P config service url = Throw err ->
              ScrapingResult.success r = false
              /\ ScrapingResult.items r = []
              /\ ScrapingResult.error r = Some (message_or (str "Unknown error") err)))
  /\ FlareSolverrScraper.run P config Sample.empty_service url = Ok []
  /\ ScrapingResult.success
       (FlareSolverrScraper.scrapeUrl P config Sample.empty_service url) = true.
Proof.
  split; [|split; [|split; reflexivity]].
  - intros page. cbv zeta. unfold PuppeteerScraper.scrapeUrl, PuppeteerScraper.settle.
    destruct (PuppeteerScraper.run P config page url) as [items|e];
      cbn [ScrapingResult.success ScrapingResult.items ScrapingResult.error].
    + split; [apply nonempty_length|]. split; [|split].
      * destruct items as [|item items]; cbn; split.
        -- discriminate.
        -- intros (item & items & H). discriminate H.
        -- intros _. now exists item, items.
        -- reflexivity.
      * intros ->. split; [reflexivity|]. eexists. reflexivity.
      * intros items' H. injection H as <-. split; [reflexivity|]. now intros ->.
    + split; [split; [discriminate | congruence]|]. split; [|split].
      * split; [discriminate|]. intros (item & items & H). discriminate H.
      * intros _. split; [reflexivity|]. eexists. reflexivity.
      * discriminate.
  - intros service. cbv zeta. unfold FlareSolverrScraper.scrapeUrl, FlareSolverrScraper.settle.
    destruct (FlareSolverrScraper.run P config service url) as [items|e];
      cbn [ScrapingResult.success ScrapingResult.items ScrapingResult.error]; split.
    + intros items' H. injection H as <-. repeat split.
    + discriminate.
    + discriminate.
    + intros err H. injection H as <-. repeat split.
Qed.

Lemma C2_empty_result_asymmetry_witness :
  ScrapingResult.error
    (PuppeteerScraper.scrapeUrl Sample.platform
       (Sample.registered (str "turkpin.com"))
       (Sample.page_with Sample.empty_document) Sample.turkpin_url)
  = Some (str "No items found with Puppeteer")
  /\ ScrapingResult.success
       (PuppeteerScraper.scrapeUrl Sample.platform
          (Sample.registered (str "turkpin.com"))
          (Sample.page_with Sample.empty_document) Sample.turkpin_url) = false
  /\ ScrapingResult.success
       (FlareSolverrScraper.scrapeUrl Sample.platform
          (Sample.registered (str "oyuneks.com"))
          Sample.empty_service Sample.good_url) = true.
Proof.
  split; [|split].
  - destruct (C2_empty_result_asymmetry Sample.platform
                (Sample.registered (str "turkpin.com")) Sample.turkpin_url)
      as (Hp & _).
    destruct (Hp (Sample.page_with Sample.empty_document)) as (_ & _ & _ & Hrun).
    apply (Hrun []); reflexivity.
  - destruct (C2_empty_result_asymmetry Sample.platform
                (Sample.registered (str "turkpin.com")) Sample.turkpin_url)
      as (Hp & _).
    destruct (Hp (Sample.page_with Sample.empty_document)) as (_ & _ & Hempty & _).
    apply Hempty. reflexivity.
  - destruct (C2_empty_result_asymmetry Sample.platform
                (Sample.registered (str "oyuneks.com")) Sample.good_url)
      as (_ & Hf & _).
    destruct (Hf Sample.empty_service) as (Hok & _).
    apply (Hok []). reflexivity.
Defined.

(* ================================================================== *)
(** * The in-page extraction                                          *)
(* ================================================================== *)

(** C9 (as stated, refuted): on the sample page of playsultan.com the
    first container selector matches an element, none of its matches gives
    an item, and the extraction goes on to the second selector and returns
    its item: the iteration does not stop at the first selector with
    matches. *)
Lemma C9_goes_on_after_first_matching_selector :
  split (Selectors.container (SiteConfig.selectors Sample.playsultan_config)) (str ", ")
  = [str "a div.product_item"; str "div.product_item"]
  /\ Dom.querySelectorAll Sample.playsultan_document (str "a div.product_item")
     = Ok [Sample.blank_element]
  /\ PuppeteerScraper.in_page Sample.platform Sample.playsultan_config
       Sample.playsultan_url (str "playsultan.com") Sample.playsultan_document
     <> Ok (PuppeteerScraper.forEach_container Sample.platform Sample.playsultan_config
              Sample.playsultan_url (str "playsultan.com") 0 [Sample.blank_element] [])
  /\ exists item,
       PuppeteerScraper.in_page Sample.platform Sample.playsultan_config
         Sample.playsultan_url (str "playsultan.com") Sample.playsultan_document
       = Ok [item]
       /\ ScrapedItem.title item = str "PUBG 325 UC"
       /\ ScrapedItem.price item = str "99,90 TL".
Proof.
  split; [reflexivity|]. split; [reflexivity|]. split.
  - intros H. vm_compute in H. discriminate H.
  - eexists. split; [vm_compute; reflexivity|]. split; reflexivity.
Qed.

(** The guard [index > 50] lets the elements 0 to 50 through: of 60
    priced rows, 51 become items. *)
Lemma in_page_processes_51_of_60_rows :
  exists items,
    PuppeteerScraper.in_page Sample.platform
      (Sample.registered (str "turkpin.com")) Sample.turkpin_url
      (str "turkpin.com") Sample.sixty_rows_document = Ok items
    /\ length items = 51%nat.
Proof. eexists. split; vm_compute; reflexivity. Qed.

(** C9 (amended): the container selectors are tried in order and the
    iteration stops at the first selector whose matched elements give at
    least one item; a selector without matches, or whose matches all get
    skipped, is passed over. An element whose title has length at most 3,
    whose price text is empty or whose parsed price fails validation gives
    no item and leaves the results as they are; any other element gives
    one item carrying its price text and its sanitized title. *)
Theorem C9_selector_cascade_and_skips (P : Platform) (config : SiteConfig.t)
    (url domain : jsstring) :
  (forall doc sel rest containers,
     Dom.querySelectorAll doc sel = Ok containers ->
     PuppeteerScraper.try_selectors P config url domain doc (sel :: rest) []
     = match PuppeteerScraper.forEach_container P config url domain 0 containers [] with
       | [] => PuppeteerScraper.try_selectors P config url domain doc rest []
       | item :: items => Ok (item :: items)
       end)
  /\ (forall container title priceText,
        PuppeteerScraper.title_and_price config container = Ok (title, priceText) ->
        (length title <= 3)%nat \/ priceText = []
        \/ PuppeteerScraper.isValidPrice
             (Helpers.price (PuppeteerScraper.parsePrice P priceText)) = false ->
        PuppeteerScraper.item_of P config url domain container = Ok None)
  /\ (forall container title priceText,
        PuppeteerScraper.title_and_price config container = Ok (title, priceText) ->
        (3 < length title)%nat ->
        priceText <> [] ->
        PuppeteerScraper.isValidPrice
          (Helpers.price (PuppeteerScraper.parsePrice P priceText)) = true ->
        exists item,
          PuppeteerScraper.item_of P config url domain container = Ok (Some item)
          /\ ScrapedItem.price item = priceText
          /\ ScrapedItem.title item = PuppeteerScraper.sanitizeText title)
  /\ (forall container rest index results,
        PuppeteerScraper.item_of P config url domain container = Ok None ->
        PuppeteerScraper.forEach_container P config url domain index
          (container :: rest) results
        = PuppeteerScraper.forEach_container P config url domain (S index) rest results).
Proof.
  repeat split.
  - intros doc sel rest containers Hq.
    cbn [PuppeteerScraper.try_selectors]. rewrite Hq. cbn [JS.bind].
    destruct containers as [|c cs]; [reflexivity|].
    destruct (PuppeteerScraper.forEach_container P config url domain 0 (c :: cs) []);
      reflexivity.
  - intros container title priceText Htp Hskip.
    unfold PuppeteerScraper.item_of. rewrite Htp. cbn [JS.bind].
    destruct title as [|t0 title]; [reflexivity|].
    destruct priceText as [|p0 priceText]; [reflexivity|].
    cbn [is_empty negb andb].
    destruct Hskip as [Hlen|[Hempty|Hbad]].
    + assert (Hl : (3 <? length (t0 :: title))%nat = false) by (apply Nat.ltb_ge; exact Hlen).
      rewrite Hl. reflexivity.
    + discriminate Hempty.
    + rewrite Hbad. now destruct (3 <? length (t0 :: title))%nat.
  - intros container title priceText Htp Hlen Hne Hvalid.
    unfold PuppeteerScraper.item_of. rewrite Htp. cbn [JS.bind].
    destruct title as [|t0 title]; [cbn in Hlen; lia|].
    destruct priceText as [|p0 priceText]; [congruence|].
    cbn [is_empty negb andb].
    apply Nat.ltb_lt in Hlen. rewrite Hlen, Hvalid.
    eexists. split; [reflexivity|]. split; reflexivity.
  - intros container rest index results Hnone.
    cbn [PuppeteerScraper.forEach_container]. rewrite Hnone.
    now destruct (50 <? index)%nat.
Qed.

Lemma C9_selector_cascade_and_skips_witness :
  PuppeteerScraper.try_selectors Sample.platform Sample.playsultan_config
    Sample.playsultan_url (str "playsultan.com") Sample.playsultan_document
    [str "a div.product_item"; str "div.product_item"] []
  = PuppeteerScraper.try_selectors Sample.platform Sample.playsultan_config
      Sample.playsultan_url (str "playsultan.com") Sample.playsultan_document
      [str "div.product_item"] []
  /\ PuppeteerScraper.item_of Sample.platform Sample.playsultan_config
       Sample.playsultan_url (str "playsultan.com") Sample.blank_element = Ok None
  /\ exists item,
       PuppeteerScraper.item_of Sample.platform Sample.playsultan_config
         Sample.playsultan_url (str "playsultan.com") Sample.playsultan_card
       = Ok (Some item)
       /\ ScrapedItem.price item = str "99,90 TL"
       /\ ScrapedItem.title item = PuppeteerScraper.sanitizeText (str "PUBG 325 UC").
Proof.
  destruct (C9_selector_cascade_and_skips Sample.platform Sample.playsultan_config
              Sample.playsultan_url (str "playsultan.com"))
    as (Hcascade & Hskip & Hitem & _).
  split; [|split].
  - apply (Hcascade Sample.playsultan_document (str "a div.product_item")
             [str "div.product_item"] [Sample.blank_element]).
    reflexivity.
  - apply (Hskip Sample.blank_element [] []); [reflexivity|].
    left. cbn. lia.
  - apply (Hitem Sample.playsultan_card (str "PUBG 325 UC") (str "99,90 TL")).
    + reflexivity.
    + cbn. lia.
    + discriminate.
    + vm_compute. reflexivity.
Defined.

(* ================================================================== *)
(** * utils/n8n-client.ts: delivery                                   *)
(* ================================================================== *)

(** One call of [sendBatchData] is one POST, with the 10 s timeout; its
    answer alone decides the result. *)
Lemma sendBatchData_posts_once (batch : BatchResult.t) (hook : Webhook.t) :
  N8NClient.sendBatchData batch hook
  = (match Webhook.answers hook with
     | Ok status :: _ => (200 <=? status) && (status <? 300)
     | _ => false
     end,
     {| Webhook.answers := tl (Webhook.answers hook);
        Webhook.received :=
          Webhook.received hook
          ++ [{| Webhook.body := N8NClient.payload_of batch;
                 Webhook.timeout := 10000 |}] |}).
Proof.
  unfold N8NClient.sendBatchData, N8NClient.sendWithRetry, Webhook.post,
    Webhook.validateStatus.
  destruct (Webhook.answers hook) as [|[status|e] rest]; cbn [tl].
  - reflexivity.
  - destruct ((200 <=? status) && (status <? 300)) eqn:E; [|reflexivity].
    now rewrite E.
  - reflexivity.
Qed.

(** C5: after a transport error on the first POST, [sendBatchData] returns
    false at once: the webhook has received one request, and the 200 that
    a second attempt would have met is still waiting. No retry is made,
    although the client declares [maxRetries = 1]. *)
Theorem C5_no_retry_after_failed_post (batch : BatchResult.t) :
  N8NClient.maxRetries = 1
  /\ N8NClient.sendBatchData batch Sample.flaky_hook
     = (false,
        {| Webhook.answers := [Ok 200];
           Webhook.received :=
             [{| Webhook.body := N8NClient.payload_of batch;
                 Webhook.timeout := 10000 |}] |})
  /\ length (Webhook.received (snd (N8NClient.sendBatchData batch Sample.flaky_hook)))
     = 1%nat.
Proof.
  split; [reflexivity|]. rewrite sendBatchData_posts_once. split; reflexivity.
Qed.

Lemma flat_map_price_record (ts : N) (items : list ScrapedItem.t) :
  flat_map (N8NClient.price_record ts) items
  = map (N8NClient.to_price ts) (filter N8NClient.positive items).
Proof.
  induction items as [|item items IH]; [reflexivity|].
  cbn [flat_map filter]. unfold N8NClient.price_record at 1.
  destruct (N8NClient.positive item); cbn [app map]; now rewrite IH.
Qed.

Lemma prices_of_filtered (batch : BatchResult.t) :
  N8NClient.prices_of batch
  = map (N8NClient.to_price (BatchResult.timestamp batch))
      (filter N8NClient.positive
         (flat_map ScrapingResult.items
            (filter ScrapingResult.success (BatchResult.results batch)))).
Proof.
  unfold N8NClient.prices_of.
  induction (BatchResult.results batch) as [|r rs IH]; [reflexivity|].
  cbn [flat_map filter]. rewrite IH.
  destruct (ScrapingResult.success r); cbn [andb].
  - cbn [flat_map]. rewrite filter_app, map_app. f_equal.
    destruct (ScrapingResult.items r) as [|item items]; [reflexivity|].
    cbn [length Nat.ltb Nat.leb]. apply flat_map_price_record.
  - reflexivity.
Qed.

Lemma length_flat_map_items (results : list ScrapingResult.t) :
  (length (flat_map ScrapingResult.items (filter ScrapingResult.success results))
   <= list_sum (map (fun r => length (ScrapingResult.items r)) results))%nat.
Proof.
  induction results as [|r rs IH]; [cbn; lia|].
  cbn [filter map]. simpl list_sum.
  destruct (ScrapingResult.success r); cbn [flat_map].
  - rewrite length_app. lia.
  - lia.
Qed.

Lemma positive_needs_digit (item : ScrapedItem.t) :
  existsb is_digit (ScrapedItem.price item) = false -> N8NClient.positive item = false.
Proof.
  intros H. unfold N8NClient.positive.
  rewrite n8n_parsePrice_same, parsePrice_digit_free by (now apply digit_free_existsb).
  reflexivity.
Qed.

Lemma positive_iff (item : ScrapedItem.t) :
  N8NClient.positive item = true
  <-> exists q,
        Helpers.price (N8NClient.parsePrice (ScrapedItem.price item)) = Num q
        /\ (0 < q)%Q.
Proof.
  unfold N8NClient.positive.
  destruct (Helpers.price (N8NClient.parsePrice (ScrapedItem.price item))) as [|q];
    cbn [gt0]; split.
  - discriminate.
  - intros (q & H & _). discriminate H.
  - intros H. exists q. split; [reflexivity|].
    unfold Qltb in H. apply negb_true_iff in H.
    apply Qnot_le_lt. intros Hle. apply Qle_bool_iff in Hle. congruence.
  - intros (q' & H & Hq). injection H as <-.
    unfold Qltb. apply negb_true_iff.
    destruct (Qle_bool q 0) eqn:E; [|reflexivity].
    apply Qle_bool_iff in E. exfalso. exact (Qlt_not_le _ _ Hq E).
Qed.

(** C10: the items of the payload are exactly the items of the succeeded
    non-empty results whose price text, parsed again by the client, is a
    number greater than 0, in order; each is sent as the record of its
    re-parsed price and currency, its region, title and URL and the time
    stamp of the batch. An item whose price text has no digit parses to 0
    and is left out. [metadata.totalItems] is the [totalItems] of the
    batch all the same, so for a batch built by [createBatchResult] the
    payload has at most [metadata.totalItems] items. *)
Theorem C10_payload_keeps_positive_prices (batch : BatchResult.t) :
  let payload := N8NClient.payload_of batch in
  (forall hook,
     Webhook.received (snd (N8NClient.sendBatchData batch hook))
     = Webhook.received hook
       ++ [{| Webhook.body := payload; Webhook.timeout := N8NClient.timeout |}])
  /\ N8NWebhookPayload.items payload
     = map (fun item =>
              {| ScrapedPrice.price :=
                   Helpers.price (N8NClient.parsePrice (ScrapedItem.price item));
                 ScrapedPrice.currency :=
                   Helpers.currency (N8NClient.parsePrice (ScrapedItem.price item));
                 ScrapedPrice.region := ScrapedItem.region item;
                 ScrapedPrice.product_name := ScrapedItem.title item;
                 ScrapedPrice.url := ScrapedItem.url item;
                 ScrapedPrice.batch_timestamp := BatchResult.timestamp batch |})
         (filter N8NClient.positive
            (flat_map ScrapingResult.items
               (filter (fun r => ScrapingResult.success r
                                 && (0 <? length (ScrapingResult.items r))%nat)
                  (BatchResult.results batch))))
  /\ (forall item,
        N8NClient.positive item = true
        <-> exists q,
              Helpers.price (N8NClient.parsePrice (ScrapedItem.price item)) = Num q
              /\ (0 < q)%Q)
  /\ (forall item,
        existsb is_digit (ScrapedItem.price item) = false ->
        N8NClient.positive item = false)
  /\ Metadata.totalItems (N8NWebhookPayload.metadata payload)
     = BatchResult.totalItems batch
  /\ (forall urls results batchId timestamp,
        batch = fst (HttpOrchestrator.createBatchResult urls results batchId timestamp) ->
        (length (N8NWebhookPayload.items payload)
         <= Metadata.totalItems (N8NWebhookPayload.metadata payload))%nat).
Proof.
  cbv zeta. split; [|split; [|split; [|split; [|split]]]].
  - intros hook. rewrite sendBatchData_posts_once. reflexivity.
  - cbn [N8NClient.payload_of N8NWebhookPayload.items]. rewrite prices_of_filtered.
    change (N8NClient.to_price (BatchResult.timestamp batch))
      with (fun item =>
              {| ScrapedPrice.price :=
                   Helpers.price (N8NClient.parsePrice (ScrapedItem.price item));
                 ScrapedPrice.currency :=
                   Helpers.currency (N8NClient.parsePrice (ScrapedItem.price item));
                 ScrapedPrice.region := ScrapedItem.region item;
                 ScrapedPrice.product_name := ScrapedItem.title item;
                 ScrapedPrice.url := ScrapedItem.url item;
                 ScrapedPrice.batch_timestamp := BatchResult.timestamp batch |}).
    do 2 f_equal.
    induction (BatchResult.results batch) as [|r rs IH]; [reflexivity|].
    cbn [filter]. destruct (ScrapingResult.success r); cbn [andb flat_map].
    + destruct (ScrapingResult.items r) as [|item items] eqn:Hi.
      * cbn. exact IH.
      * cbn [length Nat.ltb Nat.leb flat_map]. rewrite Hi, IH. reflexivity.
    + exact IH.
  - apply positive_iff.
  - apply positive_needs_digit.
  - reflexivity.
  - intros urls results batchId timestamp ->.
    cbn [N8NClient.payload_of N8NWebhookPayload.items N8NWebhookPayload.metadata
         Metadata.totalItems].
    rewrite prices_of_filtered, length_map.
    pose proof (createBatchResult_counts urls results batchId timestamp) as Hc.
    cbv zeta in Hc. destruct Hc as (_ & Hres & _ & Hitems).
    rewrite Hitems, Hres.
    etransitivity; [apply filter_length_le | apply length_flat_map_items].
Qed.

Lemma C10_payload_keeps_positive_prices_witness :
  let batch :=
    Sample.one_result_batch
      [Sample.item_priced (str "99,90 TL"); Sample.item_priced (str "free")] in
  N8NWebhookPayload.items (N8NClient.payload_of batch)
  = [ {| ScrapedPrice.price := Num (999 # 10)%Q;
         ScrapedPrice.currency := str "TRY";
         ScrapedPrice.region := str "TR";
         ScrapedPrice.product_name := str "PUBG 60 UC";
         ScrapedPrice.url := Sample.turkpin_url;
         ScrapedPrice.batch_timestamp := 1 |} ]
  /\ N8NClient.positive (Sample.item_priced (str "free")) = false
  /\ Metadata.totalItems (N8NWebhookPayload.metadata (N8NClient.payload_of batch)) = 2%nat
  /\ (length (N8NWebhookPayload.items (N8NClient.payload_of batch))
      <= Metadata.totalItems (N8NWebhookPayload.metadata (N8NClient.payload_of batch)))%nat.
Proof.
  cbv zeta.
  destruct (C10_payload_keeps_positive_prices
              (Sample.one_result_batch
                 [Sample.item_priced (str "99,90 TL"); Sample.item_priced (str "free")]))
    as (_ & Hitems & _ & Hdigit & Htotal & Hbound).
  split; [|split; [|split]].
  - rewrite Hitems. vm_compute. reflexivity.
  - apply Hdigit. reflexivity.
  - rewrite Htotal. reflexivity.
  - eapply Hbound. reflexivity.
Defined.

(* ================================================================== *)
(** * Further properties of utils/helpers.ts                          *)
(* ================================================================== *)

Lemma Qltb_lt (a b : Q) : Qltb a b = true <-> (a < b)%Q.
Proof.
  unfold Qltb. rewrite negb_true_iff. split.
  - intros H. apply Qnot_le_lt. intros Hle. apply Qle_bool_iff in Hle. congruence.
  - intros H. destruct (Qle_bool b a) eqn:E; [|reflexivity].
    apply Qle_bool_iff in E. exfalso. exact (Qlt_not_le _ _ H E).
Qed.

Lemma isValidPrice_iff (p : jsnum) :
  Helpers.isValidPrice p = true
  <-> exists q, p = Num q /\ (0 < q)%Q /\ (q < 1000000)%Q.
Proof.
  unfold Helpers.isValidPrice. destruct p as [|q]; cbn.
  - split; [discriminate | intros (q & H & _); discriminate H].
  - rewrite andb_true_r, andb_true_iff, !Qltb_lt. split.
    + intros [H1 H2]. now exists q.
    + intros (q' & H & H1 & H2). injection H as ->. now split.
Qed.

Lemma in_page_isValidPrice_same (p : jsnum) :
  PuppeteerScraper.isValidPrice p = Helpers.isValidPrice p.
Proof.
  unfold PuppeteerScraper.isValidPrice, Helpers.isValidPrice.
  destruct p as [|q]; cbn; [reflexivity|]. now rewrite andb_true_r.
Qed.

(** ** What a match captures *)

Lemma rmatch_groupless {A} (r : regex) :
  Facts.groupless r = true ->
  forall s g (k : jsstring -> option jsstring -> option A) x,
    rmatch r s g k = Some x ->
    exists s', k s' g = Some x /\ (length s' <= length s)%nat.
Proof.
  induction r as [|p|a IHa b IHb|a IHa b IHb|a IHa|a IHa]; cbn [Facts.groupless];
    intros Hr s g k x H.
  - exists s. split; [exact H | lia].
  - cbn in H. destruct s as [|c t]; [discriminate|].
    destruct (p c); [|discriminate]. exists t. split; [exact H | cbn; lia].
  - apply andb_true_iff in Hr. destruct Hr as [Ha Hb]. cbn in H.
    destruct (IHa Ha _ _ _ _ H) as (s1 & H1 & L1).
    destruct (IHb Hb _ _ _ _ H1) as (s2 & H2 & L2).
    exists s2. split; [exact H2 | lia].
  - apply andb_true_iff in Hr. destruct Hr as [Ha Hb]. cbn in H.
    destruct (rmatch a s g k) eqn:E; cbn in H.
    + injection H as ->. now apply (IHa Ha _ _ _ _ E).
    + now apply (IHb Hb _ _ _ _ H).
  - cbn in H. remember (length s) as n eqn:Hn in H. clear Hn.
    revert s g H. induction n as [|n IHn]; intros s g H.
    + exists s. split; [exact H | lia].
    + match type of H with or_else ?m _ = _ => destruct m eqn:E end; cbn in H.
      * injection H as ->.
        destruct (IHa Hr _ _ _ _ E) as (s1 & H1 & L1). cbv beta in H1.
        match type of H1 with
        | (if ?c then _ else _) = _ => destruct c; [|discriminate H1]
        end.
        destruct (IHn _ _ H1) as (s2 & H2 & L2). exists s2. split; [exact H2 | lia].
      * exists s. split; [exact H | lia].
  - discriminate Hr.
Qed.

Lemma rmatch_number_captures {A} (s : jsstring) (g : option jsstring)
    (k : jsstring -> option jsstring -> option A) (x : A) :
  rmatch re_number s g k = Some x ->
  exists s' cap, k s' (Some cap) = Some x /\ Facts.digit_led cap.
Proof.
  unfold re_number. intros H.
  change (rmatch (Grp ?a) s g k) with
    (rmatch a s g (fun s' _ => k s' (Some (firstn (length s - length s')%nat s)))) in H.
  destruct s as [|c t]; [discriminate H|].
  unfold Plus in H at 1.
  change (rmatch (Cat (Cat (Chr is_digit) ?st) ?o) (c :: t) g ?k0) with
    (if is_digit c then rmatch st t g (fun s' g' => rmatch o s' g' k0) else None) in H.
  destruct (is_digit c) eqn:Hc; [|discriminate H].
  assert (Hg : Facts.groupless
                 (Cat (Star (Chr is_digit))
                    (Opt (Cat (Chr is_sep) (Plus (Chr is_digit))))) = true)
    by reflexivity.
  change (rmatch (Star (Chr is_digit)) t g
            (fun s' g' => rmatch (Opt (Cat (Chr is_sep) (Plus (Chr is_digit)))) s' g' ?k0))
    with (rmatch (Cat (Star (Chr is_digit))
                    (Opt (Cat (Chr is_sep) (Plus (Chr is_digit))))) t g k0) in H.
  destruct (rmatch_groupless _ Hg _ _ _ _ H) as (s' & Hk & L).
  exists s', (firstn (length (c :: t) - length s')%nat (c :: t)). split; [exact Hk|].
  cbn [length]. destruct (S (length t) - length s')%nat as [|m] eqn:E; [lia|].
  cbn. exact Hc.
Qed.

Lemma exec_from_some (r : regex) (s : jsstring) :
  forall i m,
    exec_from r i s = Some m ->
    exists t s' g,
      rmatch r t None (fun s0 g0 => Some (s0, g0)) = Some (s', g) /\ m_group m = g.
Proof.
  induction s as [|c t IH]; intros i m H; cbn [exec_from] in H.
  - destruct (rmatch r [] None (fun s0 g0 => Some (s0, g0))) as [[s' g]|] eqn:E;
      [|discriminate H].
    injection H as <-. now exists [], s', g.
  - destruct (rmatch r (c :: t) None (fun s0 g0 => Some (s0, g0))) as [[s' g]|] eqn:E.
    + injection H as <-. now exists (c :: t), s', g.
    + now apply (IH (S i)).
Qed.

Lemma price_pattern_captures (r : regex) (s : jsstring) (cap : jsstring) :
  Facts.price_pattern r ->
  Helpers.truthy_group (exec r s) = Some cap -> Facts.digit_led cap.
Proof.
  intros Hr H. unfold Helpers.truthy_group in H.
  destruct (exec r s) as [m|] eqn:E; [|discriminate H].
  destruct (exec_from_some _ _ _ _ E) as (t & s' & g & Hm & Hg). rewrite Hg in H.
  assert (Hcap : exists c, g = Some c /\ Facts.digit_led c).
  { destruct Hr as [x Hx|x y Hx Hy|].
    - change (rmatch (Cat re_number x) t None ?k0)
        with (rmatch re_number t None (fun s1 g1 => rmatch x s1 g1 k0)) in Hm.
      destruct (rmatch_number_captures _ _ _ _ Hm) as (s1 & c & H1 & Hd).
      destruct (rmatch_groupless _ Hx _ _ _ _ H1) as (s2 & H2 & _).
      injection H2 as _ <-. now exists c.
    - change (rmatch (Cat x (Cat y re_number)) t None ?k0)
        with (rmatch x t None
                (fun s1 g1 => rmatch y s1 g1 (fun s2 g2 => rmatch re_number s2 g2 k0)))
        in Hm.
      destruct (rmatch_groupless _ Hx _ _ _ _ Hm) as (s1 & H1 & _).
      destruct (rmatch_groupless _ Hy _ _ _ _ H1) as (s2 & H2 & _).
      destruct (rmatch_number_captures _ _ _ _ H2) as (s3 & c & H3 & Hd).
      injection H3 as _ <-. now exists c.
    - destruct (rmatch_number_captures _ _ _ _ Hm) as (s3 & c & H3 & Hd).
      injection H3 as _ <-. now exists c. }
  destruct Hcap as (c & -> & Hd). destruct c as [|c0 c]; [destruct Hd|].
  now injection H as <-.
Qed.

Lemma helper_patterns_shape :
  Forall (fun p => Facts.price_pattern (fst p)) Helpers.patterns.
Proof.
  unfold Helpers.patterns.
  repeat (apply Forall_cons; [cbn [fst]; first
    [ apply Facts.number_alone
    | apply Facts.number_first; reflexivity
    | apply Facts.number_last; reflexivity ] |]).
  apply Forall_nil.
Qed.

Lemma decimal_nonneg (ip fp : jsstring) : (0 <= decimal ip fp)%Q.
Proof.
  unfold decimal. rewrite Qred_correct. unfold Qdiv.
  apply Qmult_le_0_compat.
  - unfold Qle. cbn. lia.
  - apply Qinv_le_0_compat. unfold Qle. cbn. lia.
Qed.

Lemma parseFloat_digit_led (s : jsstring) :
  Facts.digit_led s -> exists q, parseFloat s = Num q /\ (0 <= q)%Q.
Proof.
  destruct s as [|c t]; [intros []|]. cbn [Facts.digit_led]. intros Hc.
  unfold parseFloat.
  assert (Hts : trimStart (c :: t) = c :: t).
  { apply trimStart_id. cbn. now rewrite (digit_not_space _ Hc). }
  rewrite Hts. cbn [span_digits]. rewrite Hc.
  destruct (span_digits t) as [d r]. cbn [is_empty].
  destruct r as [|c' r'].
  - eexists. split; [reflexivity | apply decimal_nonneg].
  - destruct (c' =? c_dot).
    + destruct (span_digits r') as [fp rest]. cbn [andb].
      eexists. split; [reflexivity | apply decimal_nonneg].
    + eexists. split; [reflexivity | apply decimal_nonneg].
Qed.

Lemma replace_comma_digit_led (g : jsstring) :
  Facts.digit_led g -> Facts.digit_led (replace_first [c_comma] [c_dot] g).
Proof.
  destruct g as [|c t]; [intros []|]. cbn [Facts.digit_led]. intros Hc.
  rewrite replace_first_skip; [exact Hc|].
  cbn [startsWith]. now rewrite (digit_not_comma _ Hc).
Qed.

Lemma first_match_wellformed (ps : list (regex * jsstring)) (cleaned : jsstring) :
  Forall (fun p => Facts.price_pattern (fst p)) ps ->
  let r := Helpers.first_match ps cleaned in
  (exists q, Helpers.price r = Num q /\ (0 <= q)%Q)
  /\ (Helpers.currency r = Helpers.TRY \/ In (Helpers.currency r) (map snd ps)).
Proof.
  cbv zeta. induction 1 as [|[re cur] ps Hre Hps IH]; cbn [Helpers.first_match].
  - split; [|now left]. exists 0%Q. split; [reflexivity | apply Qle_refl].
  - destruct (Helpers.truthy_group (exec re cleaned)) as [g|] eqn:E.
    + cbn [Helpers.price Helpers.currency]. split.
      * apply parseFloat_digit_led, replace_comma_digit_led.
        now apply (price_pattern_captures re cleaned).
      * right. now left.
    + destruct IH as [Hp Hc]. split; [exact Hp|].
      destruct Hc as [Hc|Hc]; [now left | right; now right].
Qed.

Lemma parsePrice_number (text : jsstring) :
  exists q, Helpers.price (Helpers.parsePrice text) = Num q /\ (0 <= q)%Q.
Proof.
  unfold Helpers.parsePrice. destruct (is_empty text); cbn [Helpers.price].
  - exists 0%Q. split; [reflexivity | apply Qle_refl].
  - apply (first_match_wellformed _ _ helper_patterns_shape).
Qed.

Lemma parsePrice_currency (text : jsstring) :
  Facts.table_currency (Helpers.currency (Helpers.parsePrice text)).
Proof.
  unfold Helpers.parsePrice. destruct (is_empty text); cbn [Helpers.currency].
  - now left.
  - destruct (first_match_wellformed _ (trim (replace_ws_runs text))
                helper_patterns_shape) as [_ [H|H]].
    + now left.
    + unfold Facts.table_currency. cbn [In map snd Helpers.patterns] in H.
      intuition congruence.
Qed.

(** X1. Whatever the text, [parsePrice] returns a number that is not [NaN]
    and not negative, with one of the currencies TRY, USD, EUR; the
    private copy of the N8N client returns the same result. *)
Theorem parsePrice_result_wellformed (text : jsstring) :
  (exists q, Helpers.price (Helpers.parsePrice text) = Num q /\ (0 <= q)%Q)
  /\ Facts.table_currency (Helpers.currency (Helpers.parsePrice text))
  /\ N8NClient.parsePrice text = Helpers.parsePrice text.
Proof.
  split; [apply parsePrice_number | split; [apply parsePrice_currency|]].
  apply n8n_parsePrice_same.
Qed.

(** ** [extractGameSlug] *)

Lemma first_slug_first_row_wins (combined : jsstring)
    (pre post : list (jsstring * list jsstring)) (slug : jsstring)
    (keywords : list jsstring) :
  (forall row, In row pre -> existsb (includes combined) (snd row) = false) ->
  existsb (includes combined) keywords = true ->
  Helpers.first_slug combined (pre ++ (slug, keywords) :: post) = slug.
Proof.
  intros Hpre Hrow. induction pre as [|[s0 k0] pre IH]; cbn [app Helpers.first_slug].
  - now rewrite Hrow.
  - pose proof (Hpre (s0, k0) (or_introl eq_refl)) as H0. cbn [snd] in H0. rewrite H0.
    apply IH. intros row Hr. apply Hpre. now right.
Qed.

Lemma first_slug_in_table (combined : jsstring) (table : list (jsstring * list jsstring)) :
  In (Helpers.first_slug combined table) (map fst table)
  \/ Helpers.first_slug combined table = str "unknown".
Proof.
  induction table as [|[s0 k0] table IH]; cbn [Helpers.first_slug map fst].
  - now right.
  - destruct (existsb (includes combined) k0).
    + left. now left.
    + destruct IH as [IH|IH]; [left; now right | now right].
Qed.

(** X2. [extractGameSlug] answers with the first row of its keyword table
    that has a keyword inside the lower-cased "url title" text, and with
    "unknown" only when no row has one. Since "mobile" is a keyword of the
    first row, every text that contains it is "pubg"; and since "legends"
    is a keyword of the second row, a text that contains it is "pubg" or
    "mobile-legends", never "lol". *)
Theorem extractGameSlug_first_row_wins (P : Platform) (url title : jsstring) :
  let combined := toLowerCase P url ++ [c_space] ++ toLowerCase P title in
  let slug := Helpers.extractGameSlug P url title in
  (In slug (map fst Helpers.gameKeywords) \/ slug = str "unknown")
  /\ (forall pre row post,
        Helpers.gameKeywords = pre ++ row :: post ->
        (forall r, In r pre -> existsb (includes combined) (snd r) = false) ->
        existsb (includes combined) (snd row) = true ->
        slug = fst row)
  /\ ((forall r, In r Helpers.gameKeywords ->
         existsb (includes combined) (snd r) = false) ->
      slug = str "unknown")
  /\ (includes combined (str "mobile") = true -> slug = str "pubg")
  /\ (includes combined (str "legends") = true ->
      slug = str "pubg" \/ slug = str "mobile-legends").
Proof.
  cbv zeta. unfold Helpers.extractGameSlug.
  set (combined := toLowerCase P url ++ [c_space] ++ toLowerCase P title).
  split; [apply first_slug_in_table|]. split; [|split; [|split]].
  - intros pre [slug keywords] post Htable Hpre Hrow. rewrite Htable.
    now apply first_slug_first_row_wins.
  - intros Hnone. induction Helpers.gameKeywords as [|[s0 k0] table IH];
      [reflexivity|].
    cbn [Helpers.first_slug].
    pose proof (Hnone (s0, k0) (or_introl eq_refl)) as H0. cbn [snd] in H0. rewrite H0.
    apply IH. intros r Hr. apply Hnone. now right.
  - intros H. unfold Helpers.gameKeywords. cbn [Helpers.first_slug existsb].
    rewrite H, !orb_true_r. reflexivity.
  - intros H. unfold Helpers.gameKeywords. cbn [Helpers.first_slug existsb].
    destruct (includes combined (str "pubg") || (includes combined (str "mobile")
              || (includes combined (str "uc") || false))); [now left|].
    rewrite H, !orb_true_r. now right.
Qed.

Lemma extractGameSlug_first_row_wins_witness :
  Helpers.extractGameSlug Sample.platform (str "https://shop.example.com/mlbb")
    (str "Mobile Legends 100 Elmas") = str "pubg"
  /\ Helpers.extractGameSlug Sample.platform (str "https://x.example.com/r")
       (str "League RP") = str "lol".
Proof.
  destruct (extractGameSlug_first_row_wins Sample.platform
              (str "https://shop.example.com/mlbb") (str "Mobile Legends 100 Elmas"))
    as (_ & _ & _ & Hmobile & _).
  destruct (extractGameSlug_first_row_wins Sample.platform
              (str "https://x.example.com/r") (str "League RP"))
    as (_ & Hfirst & _).
  split.
  - apply Hmobile. vm_compute. reflexivity.
  - apply (Hfirst (firstn 3 Helpers.gameKeywords)
             (str "lol", [str "lol"; str "league"; str "legends"; str "rp"; str "riot"])
             (skipn 4 Helpers.gameKeywords)).
    + reflexivity.
    + intros r Hr. cbn in Hr. destruct Hr as [<-|[<-|[<-|[]]]]; vm_compute; reflexivity.
    + vm_compute. reflexivity.
Defined.

(** ** [sanitizeText] on its own output *)

Lemma collapse_snoc (b : bool) (l : jsstring) (c : char16) :
  is_space c = false -> collapse_from b (l ++ [c]) = collapse_from b l ++ [c].
Proof.
  intros Hc. revert b. induction l as [|x l IH]; intros b; cbn [app collapse_from].
  - now rewrite Hc.
  - destruct (is_space x); [destruct b|]; cbn [app]; now rewrite IH.
Qed.

Lemma collapse_starts_clean (s : jsstring) :
  starts_clean s = true -> starts_clean (collapse_from false s) = true.
Proof.
  destruct s as [|c t]; [reflexivity|]. cbn [starts_clean collapse_from].
  intros H. apply negb_true_iff in H. rewrite H. cbn. now rewrite H.
Qed.

Lemma collapse_ends_clean (s : jsstring) :
  starts_clean (rev s) = true -> starts_clean (rev (collapse_from false s)) = true.
Proof.
  destruct (rev s) as [|c l] eqn:E.
  - apply (f_equal (@rev _)) in E. rewrite rev_involutive in E. now subst s.
  - apply (f_equal (@rev _)) in E. rewrite rev_involutive in E. cbn [rev] in E.
    subst s. cbn [starts_clean]. intros H. apply negb_true_iff in H.
    rewrite (collapse_snoc _ _ _ H), rev_app_distr. cbn. now rewrite H.
Qed.

Lemma collapse_fixed (b : bool) (s : jsstring) :
  single_spaced s = true ->
  Forall (fun c => is_space c = true -> c = c_space) s ->
  (b = true -> starts_clean s = true) ->
  collapse_from b s = s.
Proof.
  revert b. induction s as [|c t IH]; intros b Hs Hp Hb; [reflexivity|].
  inversion Hp as [|c' t' Hc Ht]; subst.
  assert (Hst : single_spaced t = true).
  { destruct t as [|d t']; [reflexivity|].
    cbn [single_spaced] in Hs. now apply andb_true_iff in Hs. }
  cbn [collapse_from]. destruct (is_space c) eqn:E.
  - destruct b.
    + specialize (Hb eq_refl). cbn in Hb. rewrite E in Hb. discriminate Hb.
    + rewrite <- (Hc eq_refl). f_equal. apply IH; [exact Hst | exact Ht|].
      intros _. destruct t as [|d t']; [reflexivity|].
      cbn [single_spaced] in Hs. apply andb_true_iff in Hs. destruct Hs as [Hs _].
      rewrite E in Hs. cbn in Hs. cbn. exact Hs.
  - f_equal. apply IH; [exact Hst | exact Ht | discriminate].
Qed.

Lemma sanitizeText_of_clean (s : jsstring) :
  Forall (fun c => Helpers.whitelisted c = true) s ->
  starts_clean s = true -> starts_clean (rev s) = true ->
  Helpers.sanitizeText s = replace_ws_runs s.
Proof.
  intros Hw H1 H2. unfold Helpers.sanitizeText, replace_ws_runs.
  rewrite filter_id by (apply Forall_collapse; [reflexivity | exact Hw]).
  apply trim_both_clean; [now apply collapse_starts_clean | now apply collapse_ends_clean].
Qed.

Lemma sanitizeText_output (text : jsstring) :
  Forall (fun c => Helpers.whitelisted c = true) (Helpers.sanitizeText text)
  /\ starts_clean (Helpers.sanitizeText text) = true
  /\ starts_clean (rev (Helpers.sanitizeText text)) = true.
Proof.
  unfold Helpers.sanitizeText. split; [|split].
  - apply Forall_trim. eapply Forall_impl; [|apply (Forall_filter_both _ (fun _ => True))].
    + now intros c [Hc _].
    + apply Forall_forall. intros; exact I.
  - apply trim_starts_clean.
  - apply trim_ends_clean.
Qed.

(** X3. One pass of [sanitizeText] may leave two spaces side by side (where
    a removed character stood between them); a second pass does nothing
    but collapse them, and its result is a fixed point: single-spaced,
    and unchanged by any further pass. *)
Theorem sanitizeText_settles_in_two_passes (text : jsstring) :
  let once := Helpers.sanitizeText text in
  let twice := Helpers.sanitizeText once in
  twice = replace_ws_runs once
  /\ single_spaced twice = true
  /\ Helpers.sanitizeText twice = twice.
Proof.
  cbv zeta. destruct (sanitizeText_output text) as (Hw & H1 & H2).
  assert (E : Helpers.sanitizeText (Helpers.sanitizeText text)
              = replace_ws_runs (Helpers.sanitizeText text))
    by now apply sanitizeText_of_clean.
  split; [exact E|]. split.
  - rewrite E. apply collapse_single_spaced.
  - destruct (sanitizeText_output (Helpers.sanitizeText text)) as (Hw' & H1' & H2').
    rewrite (sanitizeText_of_clean _ Hw' H1' H2'). rewrite E.
    unfold replace_ws_runs. apply collapse_fixed.
    + apply collapse_single_spaced.
    + apply collapse_only_plain_spaces.
    + discriminate.
Qed.

Lemma sanitizeText_first_pass_can_leave_two_spaces :
  Helpers.sanitizeText (str "a ! b") = str "a  b".
Proof. reflexivity. Qed.

(** ** [UserAgentRotator] *)

Lemma getNext_times_cycles (n : nat) :
  forall m,
    UserAgentRotator.getNext_times n
      {| UserAgentRotator.currentIndex := (m mod 6)%nat |}
    = (map (fun k => nth_error UserAgentRotator.agents ((m + k) mod 6)%nat) (seq 0 n),
       {| UserAgentRotator.currentIndex := ((m + n) mod 6)%nat |}).
Proof.
  induction n as [|n IH]; intros m.
  - cbn. now rewrite Nat.add_0_r.
  - cbn [UserAgentRotator.getNext_times UserAgentRotator.getNext
         UserAgentRotator.currentIndex].
    change (length UserAgentRotator.agents) with 6%nat.
    rewrite Nat.Div0.add_mod_idemp_l.
    rewrite (IH (m + 1)%nat). cbn [seq map]. rewrite Nat.add_0_r.
    f_equal; [|f_equal; f_equal; lia].
    f_equal. rewrite <- seq_shift, map_map. apply map_ext.
    intros k. do 2 f_equal. lia.
Qed.

(** X4. [getNext] goes round the six user agents: from a fresh rotator the
    call number [k] (counting from 0) returns the agent at position
    [k mod 6], never [undefined], and after [n] calls the cursor is at
    [n mod 6]. *)
Theorem getNext_round_robin (n : nat) :
  let run := UserAgentRotator.getNext_times n UserAgentRotator.create in
  fst run = map (fun k => nth_error UserAgentRotator.agents (k mod 6)%nat) (seq 0 n)
  /\ UserAgentRotator.currentIndex (snd run) = (n mod 6)%nat
  /\ Forall (fun agent => exists a, agent = Some a /\ In a UserAgentRotator.agents)
       (fst run).
Proof.
  cbv zeta. change UserAgentRotator.create
    with {| UserAgentRotator.currentIndex := (0 mod 6)%nat |}.
  rewrite getNext_times_cycles. cbn [fst snd UserAgentRotator.currentIndex Nat.add].
  split; [reflexivity|]. split; [reflexivity|].
  apply Forall_forall. intros agent H. apply in_map_iff in H.
  destruct H as (k & <- & _).
  destruct (nth_error UserAgentRotator.agents (k mod 6)) as [a|] eqn:E.
  - exists a. split; [reflexivity|]. eapply nth_error_In. exact E.
  - apply nth_error_None in E.
    change (length UserAgentRotator.agents) with 6%nat in E.
    pose proof (Nat.mod_upper_bound k 6). lia.
Qed.

(* ================================================================== *)
(** * Further properties of scrapers/puppeteer-scraper.ts             *)
(* ================================================================== *)

(** ** [includes] *)

Lemma startsWith_app (s a b : jsstring) :
  startsWith s (a ++ b) = true ->
  exists s', s = a ++ s' /\ startsWith s' b = true.
Proof.
  revert s. induction a as [|x a IH]; intros s H; cbn [app] in *.
  - now exists s.
  - destruct s as [|y s]; cbn [startsWith] in H; [discriminate H|].
    apply andb_true_iff in H. destruct H as [Hxy H]. apply N.eqb_eq in Hxy. subst y.
    destruct (IH _ H) as (s' & -> & Hs'). now exists s'.
Qed.

Lemma includes_of_startsWith (s p : jsstring) :
  startsWith s p = true -> includes s p = true.
Proof. destruct s; cbn [includes]; intros ->; reflexivity. Qed.

Lemma includes_behind (a s p : jsstring) :
  includes s p = true -> includes (a ++ s) p = true.
Proof.
  intros H. induction a as [|x a IH]; [exact H|].
  cbn [app includes]. rewrite IH. apply orb_true_r.
Qed.

Lemma includes_suffix_of_needle (s a b : jsstring) :
  includes s (a ++ b) = true -> includes s b = true.
Proof.
  induction s as [|c t IH]; cbn [includes]; intros H.
  - destruct (startsWith_app _ _ _ H) as (s' & E & Hs').
    symmetry in E. apply app_eq_nil in E. destruct E as [_ ->]. exact Hs'.
  - apply orb_true_iff in H. destruct H as [H|H].
    + destruct (startsWith_app _ _ _ H) as (s' & E & Hs').
      change (includes (c :: t) b = true). rewrite E.
      apply includes_behind. now apply includes_of_startsWith.
    + rewrite (IH H). apply orb_true_r.
Qed.

(** X5. The copy of [extractGameSlug] inside the rendering extractor never
    answers "mobile-legends": a URL with "mobile-legends" or a title with
    "mobile legends" contains "legends", which the test for "lol" two lines
    above catches first. Its answers are "pubg", "lol", "valorant",
    "free-fire" and "unknown". *)
Theorem in_page_extractGameSlug_never_mobile_legends (P : Platform)
    (url title : jsstring) :
  let slug := PuppeteerScraper.extractGameSlug P url title in
  slug <> str "mobile-legends"
  /\ (slug = str "pubg" \/ slug = str "lol" \/ slug = str "valorant"
      \/ slug = str "free-fire" \/ slug = str "unknown")
  /\ (includes url (str "mobile-legends") = true
      \/ includes (toLowerCase P title) (str "mobile legends") = true ->
      slug = str "pubg" \/ slug = str "lol").
Proof.
  cbv zeta. unfold PuppeteerScraper.extractGameSlug.
  assert (Hurl : includes url (str "mobile-legends") = true ->
                 includes url (str "legends") = true)
    by apply (includes_suffix_of_needle url (str "mobile-")).
  assert (Htitle : includes (toLowerCase P title) (str "mobile legends") = true ->
                   includes (toLowerCase P title) (str "legends") = true)
    by apply (includes_suffix_of_needle _ (str "mobile ")).
  destruct (includes url (str "pubg") || includes (toLowerCase P title) (str "pubg")).
  { split; [discriminate|]. split; [now left|]. intros _. now left. }
  destruct (includes url (str "legends")) eqn:E1.
  { rewrite orb_true_r. cbn [orb].
    split; [discriminate|]. split; [right; now left|]. intros _. now right. }
  destruct (includes (toLowerCase P title) (str "legends")) eqn:E2.
  { rewrite orb_true_r.
    split; [discriminate|]. split; [right; now left|]. intros _. now right. }
  rewrite !orb_false_r.
  destruct (includes url (str "lol")).
  { split; [discriminate|]. split; [right; now left|]. intros _. now right. }
  destruct (includes url (str "mobile-legends")) eqn:E3;
    [specialize (Hurl eq_refl); discriminate Hurl|].
  destruct (includes (toLowerCase P title) (str "mobile legends")) eqn:E4;
    [specialize (Htitle eq_refl); discriminate Htitle|].
  cbn [orb].
  destruct (includes url (str "valorant")
            || includes (toLowerCase P title) (str "valorant")).
  { split; [discriminate|]. split; [do 2 right; now left|]. intros [H|H]; discriminate H. }
  destruct (includes url (str "fire") || includes (toLowerCase P title) (str "fire")).
  { split; [discriminate|]. split; [do 3 right; now left|]. intros [H|H]; discriminate H. }
  split; [discriminate|]. split; [do 4 right; reflexivity|]. intros [H|H]; discriminate H.
Qed.

Lemma in_page_extractGameSlug_never_mobile_legends_witness :
  PuppeteerScraper.extractGameSlug Sample.platform
    (str "https://shop.example.com/mobile-legends") (str "Mobile Legends Elmas")
  = str "pubg"
  \/ PuppeteerScraper.extractGameSlug Sample.platform
       (str "https://shop.example.com/mobile-legends") (str "Mobile Legends Elmas")
     = str "lol".
Proof.
  apply (in_page_extractGameSlug_never_mobile_legends Sample.platform
           (str "https://shop.example.com/mobile-legends") (str "Mobile Legends Elmas")).
  left. vm_compute. reflexivity.
Defined.

(** ** What every item of a page satisfies *)

Section InPageItems.
Variable P : Platform.
Variable config : SiteConfig.t.
Variables url domain : jsstring.
Variable Q : ScrapedItem.t -> Prop.
Hypothesis item_of_Q :
  forall container item,
    PuppeteerScraper.item_of P config url domain container = Ok (Some item) -> Q item.

Lemma forEach_container_all (containers : list Dom.Element) :
  forall index results,
    Forall Q results ->
    Forall Q (PuppeteerScraper.forEach_container P config url domain index
                containers results).
Proof.
  induction containers as [|c cs IH]; intros index results H; [exact H|].
  cbn [PuppeteerScraper.forEach_container]. apply IH.
  destruct (50 <? index)%nat; [exact H|].
  destruct (PuppeteerScraper.item_of P config url domain c) as [[item|]|] eqn:E;
    try exact H.
  apply Forall_app. split; [exact H|]. constructor; [|constructor].
  now apply (item_of_Q c).
Qed.

Lemma try_selectors_all (doc : Dom.Document) (sels : list jsstring) :
  forall results items,
    Forall Q results ->
    PuppeteerScraper.try_selectors P config url domain doc sels results = Ok items ->
    Forall Q items.
Proof.
  induction sels as [|sel rest IH]; intros results items H Hrun;
    cbn [PuppeteerScraper.try_selectors] in Hrun.
  - now injection Hrun as <-.
  - destruct (Dom.querySelectorAll doc sel) as [containers|e]; cbn [JS.bind] in Hrun;
      [|discriminate Hrun].
    destruct containers as [|c cs]; [now apply (IH results)|].
    pose proof (forEach_container_all (c :: cs) 0 results H) as H'.
    destruct (0 <? length _)%nat.
    + now injection Hrun as <-.
    + now apply (IH _ _ H').
Qed.

End InPageItems.

Lemma forEach_container_length (P : Platform) (config : SiteConfig.t)
    (url domain : jsstring) (containers : list Dom.Element) :
  forall index results,
    (length (PuppeteerScraper.forEach_container P config url domain index
               containers results)
     <= length results + (51 - index))%nat.
Proof.
  induction containers as [|c cs IH]; intros index results;
    cbn [PuppeteerScraper.forEach_container]; [lia|].
  etransitivity; [apply IH|].
  destruct (50 <? index)%nat eqn:E.
  - apply Nat.ltb_lt in E. lia.
  - apply Nat.ltb_ge in E.
    destruct (PuppeteerScraper.item_of P config url domain c) as [[item|]|];
      rewrite ?length_app; cbn [length]; lia.
Qed.

Lemma try_selectors_length (P : Platform) (config : SiteConfig.t)
    (url domain : jsstring) (doc : Dom.Document) (sels : list jsstring) :
  forall items,
    PuppeteerScraper.try_selectors P config url domain doc sels [] = Ok items ->
    (length items <= 51)%nat.
Proof.
  induction sels as [|sel rest IH]; intros items Hrun;
    cbn [PuppeteerScraper.try_selectors] in Hrun.
  - injection Hrun as <-. cbn. lia.
  - destruct (Dom.querySelectorAll doc sel) as [containers|e]; cbn [JS.bind] in Hrun;
      [|discriminate Hrun].
    destruct containers as [|c cs]; [now apply IH|].
    pose proof (forEach_container_length P config url domain (c :: cs) 0 []) as L.
    destruct (PuppeteerScraper.forEach_container P config url domain 0 (c :: cs) [])
      as [|item found].
    + now apply IH.
    + cbn [length Nat.ltb Nat.leb] in Hrun. injection Hrun as <-. cbn [length] in *. lia.
Qed.

Lemma puppeteer_items_from_page (P : Platform) (config : SiteConfig.t)
    (page : Browser.t) (url : jsstring) :
  ScrapingResult.items (PuppeteerScraper.scrapeUrl P config page url) = []
  \/ exists doc,
       Browser.evaluate page = Ok doc
       /\ PuppeteerScraper.in_page P config url (Helpers.extractDomain P url) doc
          = Ok (ScrapingResult.items (PuppeteerScraper.scrapeUrl P config page url)).
Proof.
  unfold PuppeteerScraper.scrapeUrl, PuppeteerScraper.settle.
  destruct (PuppeteerScraper.run P config page url) as [items|e] eqn:Hrun;
    cbn [ScrapingResult.items]; [|now left].
  unfold PuppeteerScraper.run, PuppeteerScraper.run_with in Hrun.
  repeat match type of Hrun with
         | JS.bind ?m _ = _ => destruct m as [[]|]; cbn [JS.bind] in Hrun;
                               [|discriminate Hrun]
         end.
  injection Hrun as <-. unfold PuppeteerScraper.extractItems.
  destruct (Browser.evaluate page) as [doc|e]; cbn [JS.bind]; [|now left].
  destruct (PuppeteerScraper.in_page P config url (Helpers.extractDomain P url) doc)
    as [items|e] eqn:E; [|now left].
  right. now exists doc.
Qed.

(** X6. However many elements a page has, one [scrapeUrl] of the rendering
    extractor returns at most 51 items: the guard [index > 50] lets the
    elements 0 to 50 of the one selector that yields items through. *)
Theorem puppeteer_at_most_51_items (P : Platform) (config : SiteConfig.t)
    (page : Browser.t) (url : jsstring) :
  (length (ScrapingResult.items (PuppeteerScraper.scrapeUrl P config page url))
   <= 51)%nat.
Proof.
  destruct (puppeteer_items_from_page P config page url) as [->|(doc & _ & H)].
  - cbn. lia.
  - unfold PuppeteerScraper.in_page in H. now apply try_selectors_length in H.
Qed.

Lemma in_page_currency (P : Platform) (priceText : jsstring) :
  Facts.rendered_currency (Helpers.currency (PuppeteerScraper.parsePrice P priceText)).
Proof.
  unfold PuppeteerScraper.parsePrice, Facts.rendered_currency. cbn [Helpers.currency].
  destruct (includes _ (str "usd")); [now left|].
  destruct (includes _ (str "eur")); [right; now left | right; now right].
Qed.

Lemma in_page_region (P : Platform) (url title : jsstring) :
  Facts.rendered_region (PuppeteerScraper.detectRegion P url title).
Proof.
  unfold PuppeteerScraper.detectRegion, Facts.rendered_region.
  destruct (_ || _); [now left|].
  destruct (_ || _); [right; now left|].
  destruct (_ || _); [do 2 right; now left | do 3 right; reflexivity].
Qed.

Lemma item_of_facts (P : Platform) (config : SiteConfig.t) (url domain : jsstring)
    (container : Dom.Element) (item : ScrapedItem.t) :
  PuppeteerScraper.item_of P config url domain container = Ok (Some item) ->
  ScrapedItem.url item = url
  /\ ScrapedItem.siteName item = domain
  /\ ScrapedItem.price item <> []
  /\ PuppeteerScraper.isValidPrice
       (Helpers.price (PuppeteerScraper.parsePrice P (ScrapedItem.price item))) = true
  /\ (length (ScrapedItem.title item) <= 200)%nat
  /\ Facts.rendered_currency (ScrapedItem.currency item)
  /\ Facts.rendered_region (ScrapedItem.region item).
Proof.
  unfold PuppeteerScraper.item_of.
  destruct (PuppeteerScraper.title_and_price config container) as [[title priceText]|e];
    cbn [JS.bind]; [|discriminate].
  destruct title as [|t0 title]; [discriminate|].
  destruct priceText as [|p0 priceText]; [discriminate|].
  cbn [is_empty negb andb].
  destruct (3 <? length (t0 :: title))%nat; [|discriminate].
  destruct (PuppeteerScraper.isValidPrice _) eqn:Hv; [|discriminate].
  intros H. injection H as <-.
  cbn [ScrapedItem.url ScrapedItem.siteName ScrapedItem.price ScrapedItem.title
       ScrapedItem.currency ScrapedItem.region].
  repeat split.
  - discriminate.
  - exact Hv.
  - apply in_page_sanitizeText_capped.
  - apply in_page_currency.
  - apply in_page_region.
Qed.

Lemma puppeteer_result_names (P : Platform) (config : SiteConfig.t)
    (page : Browser.t) (url : jsstring) :
  let r := PuppeteerScraper.scrapeUrl P config page url in
  ScrapingResult.url r = url /\ ScrapingResult.siteName r = Helpers.extractDomain P url.
Proof.
  cbv zeta. unfold PuppeteerScraper.scrapeUrl, PuppeteerScraper.settle.
  now destruct (PuppeteerScraper.run _ _ _ _).
Qed.

Lemma puppeteer_items_facts (P : Platform) (config : SiteConfig.t)
    (page : Browser.t) (url : jsstring) :
  Forall
    (fun item =>
       ScrapedItem.url item = url
       /\ ScrapedItem.siteName item = Helpers.extractDomain P url
       /\ ScrapedItem.price item <> []
       /\ (exists q,
             Helpers.price (PuppeteerScraper.parsePrice P (ScrapedItem.price item))
             = Num q /\ (0 < q)%Q /\ (q < 1000000)%Q)
       /\ (length (ScrapedItem.title item) <= 200)%nat
       /\ Facts.rendered_currency (ScrapedItem.currency item)
       /\ Facts.rendered_region (ScrapedItem.region item))
    (ScrapingResult.items (PuppeteerScraper.scrapeUrl P config page url)).
Proof.
  destruct (puppeteer_items_from_page P config page url) as [->|(doc & _ & H)];
    [constructor|].
  unfold PuppeteerScraper.in_page in H.
  refine (try_selectors_all P config url _ _ _ doc _ [] _ (Forall_nil _) H).
  intros container item Hitem.
  destruct (item_of_facts _ _ _ _ _ _ Hitem) as (H1 & H2 & H3 & H4 & H5 & H6 & H7).
  repeat split; try assumption.
  rewrite in_page_isValidPrice_same in H4. now apply isValidPrice_iff.
Qed.

(** X7. Every item in a result of the rendering extractor carries the
    scraped URL, the domain parsed from that URL as site name, a non-empty
    price text whose in-page parse lies strictly between 0 and 1000000, a
    title of at most 200 units, a currency among USD, EUR, TRY and a region
    among Global, EU, US, TR; the result itself carries the same URL and
    site name. *)
Theorem puppeteer_items_wellformed (P : Platform) (config : SiteConfig.t)
    (page : Browser.t) (url : jsstring) :
  let r := PuppeteerScraper.scrapeUrl P config page url in
  ScrapingResult.url r = url
  /\ ScrapingResult.siteName r = Helpers.extractDomain P url
  /\ Forall
       (fun item =>
          ScrapedItem.url item = url
          /\ ScrapedItem.siteName item = Helpers.extractDomain P url
          /\ ScrapedItem.price item <> []
          /\ (exists q,
                Helpers.price (PuppeteerScraper.parsePrice P (ScrapedItem.price item))
                = Num q /\ (0 < q)%Q /\ (q < 1000000)%Q)
          /\ (length (ScrapedItem.title item) <= 200)%nat
          /\ Facts.rendered_currency (ScrapedItem.currency item)
          /\ Facts.rendered_region (ScrapedItem.region item))
       (ScrapingResult.items r).
Proof.
  cbv zeta. destruct (puppeteer_result_names P config page url) as [Hurl Hsite].
  split; [exact Hurl|]. split; [exact Hsite|]. apply puppeteer_items_facts.
Qed.

(** ** Navigation and closing *)

Lemma run_with_navigation (P : Platform) (config : SiteConfig.t) (page : Browser.t)
    (url : jsstring) (primary fallback : result unit) :
  PuppeteerScraper.run P config (Facts.with_navigation page primary fallback) url
  = PuppeteerScraper.run P config
      (Facts.with_navigation page (try_catch primary (fun _ => fallback))
         (try_catch primary (fun _ => fallback))) url.
Proof.
  unfold PuppeteerScraper.run, PuppeteerScraper.run_with,
    PuppeteerScraper.extractItems, Facts.with_navigation.
  cbn [Browser.launch Browser.newPage Browser.configure Browser.setRequestInterception
       Browser.goto_primary Browser.goto_fallback Browser.settle_and_scroll
       Browser.waitForSelector Browser.waitForTimeout Browser.evaluate
       Browser.page_close].
  destruct primary as [[]|e]; [reflexivity|]. cbn [try_catch].
  destruct fallback as [[]|e']; reflexivity.
Qed.

(** X8. A failed first navigation is recovered by the fallback one: when
    [goto] with the primary wait strategy throws and the retry with
    [domcontentloaded] succeeds, [scrapeUrl] returns exactly what it returns
    when the first navigation succeeds. When both throw, the result is a
    failure without items. *)
Theorem puppeteer_navigation_fallback (P : Platform) (config : SiteConfig.t)
    (page : Browser.t) (url : jsstring) (error : thrown) :
  PuppeteerScraper.scrapeUrl P config
    (Facts.with_navigation page (Throw error) (Ok tt)) url
  = PuppeteerScraper.scrapeUrl P config
      (Facts.with_navigation page (Ok tt) (Ok tt)) url
  /\ (forall error',
        let r := PuppeteerScraper.scrapeUrl P config
                   (Facts.with_navigation page (Throw error) (Throw error')) url in
        ScrapingResult.success r = false /\ ScrapingResult.items r = []).
Proof.
  split.
  - unfold PuppeteerScraper.scrapeUrl, PuppeteerScraper.settle.
    rewrite (run_with_navigation P config page url (Throw error) (Ok tt)),
      (run_with_navigation P config page url (Ok tt) (Ok tt)).
    reflexivity.
  - intros error'. cbv zeta. unfold PuppeteerScraper.scrapeUrl, PuppeteerScraper.settle,
                               PuppeteerScraper.run, PuppeteerScraper.run_with.
    cbn [Facts.with_navigation Browser.launch Browser.newPage Browser.configure
         Browser.setRequestInterception Browser.goto_primary Browser.goto_fallback
         try_catch].
    repeat match goal with
           | |- context [JS.bind ?m _] =>
               destruct m as [[]|]; cbn [JS.bind];
               [|split; reflexivity]
           end.
    split; reflexivity.
Qed.

(** X9. A page that cannot be closed never yields items: when [page.close()]
    throws, the items already extracted are dropped and [scrapeUrl] returns
    a failure; and in [scrapeUrlHttp] a throwing [scraper.close()] turns
    whatever the rendering extractor returned into the failed result of the
    [catch] block. *)
Theorem close_failure_discards_items (P : Platform) (config : SiteConfig.t)
    (page : Browser.t) (url : jsstring) (error : thrown) :
  (Browser.page_close page = Throw error ->
   ScrapingResult.success (PuppeteerScraper.scrapeUrl P config page url) = false
   /\ ScrapingResult.items (PuppeteerScraper.scrapeUrl P config page url) = [])
  /\ (forall world i,
        HttpOrchestrator.browser (world i) = page ->
        Factory.has Factory.FLARESOLVERR_REQUIRED_DOMAINS
          (Helpers.extractDomain P url) = false ->
        Browser.browser_close page = Throw error ->
        HttpOrchestrator.outcome P (HttpOrchestrator.scrapers P world) url i
        = HttpOrchestrator.failed url (Helpers.extractDomain P url) error).
Proof.
  split.
  - intros Hclose. unfold PuppeteerScraper.scrapeUrl, PuppeteerScraper.settle,
                     PuppeteerScraper.run, PuppeteerScraper.run_with.
    rewrite Hclose.
    repeat match goal with
           | |- context [JS.bind ?m _] =>
               destruct m as [[]|]; cbn [JS.bind];
               [|split; reflexivity]
           end.
    split; reflexivity.
  - intros world i Hpage Hdomain Hclose.
    unfold HttpOrchestrator.outcome, HttpOrchestrator.dispatch, HttpOrchestrator.scrapers.
    cbn [HttpOrchestrator.flaresolverr_scrapeUrl HttpOrchestrator.puppeteer_scrapeUrl
         HttpOrchestrator.puppeteer_close].
    rewrite Hdomain. unfold PuppeteerScraper.close. rewrite Hpage, Hclose. reflexivity.
Qed.

Lemma close_failure_discards_items_witness :
  let page := Facts.with_navigation
                {| Browser.launch := Ok tt;
                   Browser.newPage := Ok tt;
                   Browser.configure := Ok tt;
                   Browser.setRequestInterception := Ok tt;
                   Browser.goto_primary := Ok tt;
                   Browser.goto_fallback := Ok tt;
                   Browser.settle_and_scroll := Ok tt;
                   Browser.waitForSelector := Ok tt;
                   Browser.waitForTimeout := Ok tt;
                   Browser.evaluate := Ok Sample.turkpin_document;
                   Browser.page_close := Throw (ErrorObj (str "Target closed"));
                   Browser.browser_close := Ok tt;
                   Browser.elapsed := 1500 |} (Ok tt) (Ok tt) in
  ScrapingResult.items
    (PuppeteerScraper.scrapeUrl Sample.platform
       (Sample.registered (str "turkpin.com")) page Sample.turkpin_url) = []
  /\ (exists item,
        PuppeteerScraper.extractItems Sample.platform
          (Sample.registered (str "turkpin.com")) page Sample.turkpin_url
        = [item]).
Proof.
  cbv zeta. split.
  - eapply (close_failure_discards_items Sample.platform). reflexivity.
  - eexists. vm_compute. reflexivity.
Defined.

(* ================================================================== *)
(** * Further properties of scrapers/flaresolverr-scraper.ts          *)
(* ================================================================== *)

Lemma flare_item_of_facts (P : Platform) (config : SiteConfig.t) (url domain : jsstring)
    (el : Cheerio.Element) (item : ScrapedItem.t) :
  FlareSolverrScraper.item_of P config url domain el = Ok (Some item) ->
  ScrapedItem.url item = url
  /\ ScrapedItem.siteName item = domain
  /\ ScrapedItem.region item = str "TR"
  /\ ScrapedItem.price item <> []
  /\ Helpers.isValidPrice (Helpers.price (Helpers.parsePrice (ScrapedItem.price item)))
     = true
  /\ ScrapedItem.currency item
     = Helpers.currency (Helpers.parsePrice (ScrapedItem.price item)).
Proof.
  unfold FlareSolverrScraper.item_of.
  destruct (FlareSolverrScraper.first_text el _) as [title0|e]; cbn [JS.bind];
    [|discriminate].
  destruct (FlareSolverrScraper.first_text el _) as [priceText|e]; cbn [JS.bind];
    [|discriminate].
  destruct (is_empty _ || is_empty priceText) eqn:Hempty; [discriminate|].
  destruct (Helpers.isValidPrice _) eqn:Hv; cbn [negb]; [|discriminate].
  intros H. injection H as <-.
  cbn [ScrapedItem.url ScrapedItem.siteName ScrapedItem.region ScrapedItem.price
       ScrapedItem.currency].
  repeat split; try assumption.
  apply orb_false_iff in Hempty. destruct Hempty as [_ Hp].
  intros ->. discriminate Hp.
Qed.

Lemma each_all (P : Platform) (config : SiteConfig.t) (url domain : jsstring)
    (Q : ScrapedItem.t -> Prop) :
  (forall el item,
     FlareSolverrScraper.item_of P config url domain el = Ok (Some item) -> Q item) ->
  forall els items,
    Forall Q items -> Forall Q (FlareSolverrScraper.each P config url domain els items).
Proof.
  intros HQ els. induction els as [|el els IH]; intros items H; [exact H|].
  cbn [FlareSolverrScraper.each]. apply IH.
  destruct (FlareSolverrScraper.item_of P config url domain el) as [[item|]|] eqn:E;
    try exact H.
  apply Forall_app. split; [exact H|]. constructor; [|constructor].
  now apply (HQ el).
Qed.

Lemma flare_items_all (P : Platform) (config : SiteConfig.t) (service : Bypass.t)
    (url : jsstring) (Q : ScrapedItem.t -> Prop) :
  (forall el item,
     FlareSolverrScraper.item_of P config url (Helpers.extractDomain P url) el
     = Ok (Some item) -> Q item) ->
  Forall Q (ScrapingResult.items (FlareSolverrScraper.scrapeUrl P config service url)).
Proof.
  intros HQ. unfold FlareSolverrScraper.scrapeUrl, FlareSolverrScraper.settle.
  destruct (FlareSolverrScraper.run P config service url) as [items|e] eqn:Hrun;
    cbn [ScrapingResult.items]; [|constructor].
  unfold FlareSolverrScraper.run, FlareSolverrScraper.run_with in Hrun.
  destruct (try_catch _ _) as [[]|]; cbn [JS.bind] in Hrun; [|discriminate Hrun].
  destruct (Bypass.request_get service) as [resp|]; cbn [JS.bind] in Hrun;
    [|discriminate Hrun].
  destruct (negb _); [discriminate Hrun|].
  destruct (Bypass.solution_response resp) as [doc|]; cbn [JS.bind] in Hrun;
    [|discriminate Hrun].
  destruct (Cheerio.select doc _) as [els|]; cbn [JS.bind] in Hrun;
    [|discriminate Hrun].
  injection Hrun as <-. apply each_all; [exact HQ | constructor].
Qed.

Lemma flare_result_names (P : Platform) (config : SiteConfig.t)
    (service : Bypass.t) (url : jsstring) :
  let r := FlareSolverrScraper.scrapeUrl P config service url in
  ScrapingResult.url r = url /\ ScrapingResult.siteName r = Helpers.extractDomain P url.
Proof.
  cbv zeta. unfold FlareSolverrScraper.scrapeUrl, FlareSolverrScraper.settle.
  now destruct (FlareSolverrScraper.run _ _ _ _).
Qed.

Lemma flare_items_facts (P : Platform) (config : SiteConfig.t)
    (service : Bypass.t) (url : jsstring) :
  Forall
    (fun item =>
       ScrapedItem.url item = url
       /\ ScrapedItem.siteName item = Helpers.extractDomain P url
       /\ ScrapedItem.region item = str "TR"
       /\ ScrapedItem.price item <> []
       /\ (exists q,
             Helpers.price (Helpers.parsePrice (ScrapedItem.price item)) = Num q
             /\ (0 < q)%Q /\ (q < 1000000)%Q)
       /\ ScrapedItem.currency item
          = Helpers.currency (Helpers.parsePrice (ScrapedItem.price item))
       /\ Facts.table_currency (ScrapedItem.currency item)
       /\ N8NClient.positive item = true)
    (ScrapingResult.items (FlareSolverrScraper.scrapeUrl P config service url)).
Proof.
  apply flare_items_all. intros el item Hitem.
  destruct (flare_item_of_facts _ _ _ _ _ _ Hitem) as (H1 & H2 & H3 & H4 & H5 & H6).
  repeat split; try assumption.
  - now apply isValidPrice_iff.
  - rewrite H6. apply parsePrice_currency.
  - unfold N8NClient.positive. rewrite n8n_parsePrice_same.
    unfold Helpers.isValidPrice in H5.
    apply andb_true_iff in H5. destruct H5 as [H5 _].
    apply andb_true_iff in H5. now destruct H5.
Qed.

(** X10. Every item in a result of the bypass extractor carries the scraped
    URL, the domain parsed from it, the region "TR", a non-empty price text
    that [parsePrice] reads as a number strictly between 0 and 1000000, and
    as currency the one [parsePrice] reads in that price text (hence one of
    TRY, USD, EUR). The N8N client reads the same number again, so it
    drops none of them: the items of such a result all reach the
    payload. *)
Theorem flaresolverr_items_survive_delivery (P : Platform) (config : SiteConfig.t)
    (service : Bypass.t) (url : jsstring) (batch_timestamp : N) :
  let r := FlareSolverrScraper.scrapeUrl P config service url in
  ScrapingResult.url r = url
  /\ ScrapingResult.siteName r = Helpers.extractDomain P url
  /\ Forall
       (fun item =>
          ScrapedItem.url item = url
          /\ ScrapedItem.siteName item = Helpers.extractDomain P url
          /\ ScrapedItem.region item = str "TR"
          /\ ScrapedItem.price item <> []
          /\ (exists q,
                Helpers.price (Helpers.parsePrice (ScrapedItem.price item)) = Num q
                /\ (0 < q)%Q /\ (q < 1000000)%Q)
          /\ ScrapedItem.currency item
             = Helpers.currency (Helpers.parsePrice (ScrapedItem.price item))
          /\ Facts.table_currency (ScrapedItem.currency item)
          /\ N8NClient.positive item = true)
       (ScrapingResult.items r)
  /\ flat_map (N8NClient.price_record batch_timestamp) (ScrapingResult.items r)
     = map (N8NClient.to_price batch_timestamp) (ScrapingResult.items r).
Proof.
  cbv zeta. pose proof (flare_items_facts P config service url) as Hall.
  destruct (flare_result_names P config service url) as [Hurl Hsite].
  split; [exact Hurl|]. split; [exact Hsite|]. split; [exact Hall|].
  rewrite flat_map_price_record. f_equal. apply filter_id.
  eapply Forall_impl; [|exact Hall]. intros item H. apply H.
Qed.

(** X11. The outcome of the bypass extractor does not depend on the session
    creation call, whose failure is swallowed; and an answer of the service
    whose status is not "ok" gives a failed result without items, with the
    message "FlareSolverr error: " followed by the message of the answer. *)
Theorem flaresolverr_session_and_status (P : Platform) (config : SiteConfig.t)
    (service : Bypass.t) (url : jsstring) :
  (forall session session',
     FlareSolverrScraper.scrapeUrl P config (Facts.with_session service session) url
     = FlareSolverrScraper.scrapeUrl P config (Facts.with_session service session') url)
  /\ (forall response,
        Bypass.request_get service = Ok response ->
        Bypass.status response <> str "ok" ->
        let r := FlareSolverrScraper.scrapeUrl P config service url in
        ScrapingResult.success r = false
        /\ ScrapingResult.items r = []
        /\ ScrapingResult.error r
           = Some (str "FlareSolverr error: " ++ Bypass.message response)).
Proof.
  split.
  - intros session session'. unfold FlareSolverrScraper.scrapeUrl, FlareSolverrScraper.settle,
                               FlareSolverrScraper.run, FlareSolverrScraper.run_with.
    cbn [Facts.with_session Bypass.sessions_create Bypass.request_get Bypass.elapsed].
    destruct session as [[]|]; destruct session' as [[]|]; reflexivity.
  - intros response Hget Hstatus. cbv zeta.
    assert (E : JS.eqb (Bypass.status response) (str "ok") = false).
    { destruct (JS.eqb (Bypass.status response) (str "ok")) eqn:E; [|reflexivity].
      apply eqb_eq in E. contradiction. }
    unfold FlareSolverrScraper.scrapeUrl, FlareSolverrScraper.settle,
      FlareSolverrScraper.run, FlareSolverrScraper.run_with. rewrite Hget.
    destruct (Bypass.sessions_create service) as [[]|];
      cbn [JS.bind try_catch]; rewrite E; cbn [negb]; repeat split.
Qed.

Lemma flaresolverr_session_and_status_witness :
  let service :=
    {| Bypass.sessions_create := Ok tt;
       Bypass.request_get :=
         Ok {| Bypass.status := str "error";
               Bypass.message := str "Challenge not solved";
               Bypass.solution_response := Throw OtherThrown |};
       Bypass.elapsed := 180000 |} in
  ScrapingResult.error
    (FlareSolverrScraper.scrapeUrl Sample.platform
       (Sample.registered (str "oyuneks.com")) service Sample.good_url)
  = Some (str "FlareSolverr error: Challenge not solved").
Proof.
  cbv zeta.
  destruct (flaresolverr_session_and_status Sample.platform
              (Sample.registered (str "oyuneks.com"))
              {| Bypass.sessions_create := Ok tt;
                 Bypass.request_get :=
                   Ok {| Bypass.status := str "error";
                         Bypass.message := str "Challenge not solved";
                         Bypass.solution_response := Throw OtherThrown |};
                 Bypass.elapsed := 180000 |} Sample.good_url) as [_ H].
  destruct (H {| Bypass.status := str "error";
                 Bypass.message := str "Challenge not solved";
                 Bypass.solution_response := Throw OtherThrown |})
    as (_ & _ & Herror); [reflexivity | discriminate | exact Herror].
Defined.

(* ================================================================== *)
(** * Further properties of http-orchestrator.ts                      *)
(* ================================================================== *)

Lemma in_pushed_from (P : Platform) (E : HttpOrchestrator.Extractors) (total : nat)
    (cb : option (nat -> nat -> result unit)) (urls : list jsstring) :
  forall i r,
    In r (HttpOrchestrator.pushed_from P E total cb urls i) ->
    exists url k,
      In url urls
      /\ (r = HttpOrchestrator.outcome P E url k
          \/ exists error,
               r = HttpOrchestrator.failed url (Helpers.extractDomain P url) error).
Proof.
  induction urls as [|u rest IH]; intros i r H; [destruct H|].
  cbn [HttpOrchestrator.pushed_from] in H. apply in_app_or in H. destruct H as [H|H].
  - exists u. unfold HttpOrchestrator.pushed in H. destruct H as [<-|H].
    + exists i. split; [now left | now left].
    + exists i. split; [now left|]. right.
      destruct cb as [callback|]; [|destruct H].
      destruct (callback (i + 1)%nat total) as [|error]; [destruct H|].
      destruct H as [<-|[]]. now exists error.
  - destruct (IH _ _ H) as (url & k & Hin & Hr). exists url, k. split; [now right | exact Hr].
Qed.

Lemma flaresolverr_scrape_items (P : Platform) (config : Factory.config_value)
    (service : Bypass.t) (url : jsstring) :
  Forall
    (fun item =>
       ScrapedItem.url item = url
       /\ ScrapedItem.siteName item = Helpers.extractDomain P url)
    (ScrapingResult.items (FlareSolverrScraper.scrape P config service url)).
Proof.
  destruct config as [profile|name].
  - cbn [FlareSolverrScraper.scrape].
    eapply Forall_impl; [|exact (flare_items_facts P profile service url)].
    intros item H. split; apply H.
  - destruct (flaresolverr_scrape_inherited P name service url) as (_ & -> & _).
    constructor.
Qed.

Lemma puppeteer_scrape_items (P : Platform) (config : Factory.config_value)
    (page : Browser.t) (url : jsstring) :
  Forall
    (fun item =>
       ScrapedItem.url item = url
       /\ ScrapedItem.siteName item = Helpers.extractDomain P url)
    (ScrapingResult.items (PuppeteerScraper.scrape P config page url)).
Proof.
  destruct config as [profile|name].
  - cbn [PuppeteerScraper.scrape].
    eapply Forall_impl; [|exact (puppeteer_items_facts P profile page url)].
    intros item H. split; apply H.
  - destruct (puppeteer_scrape_inherited P name page url) as (_ & -> & _).
    constructor.
Qed.

Lemma real_outcome_cases (P : Platform) (world : nat -> HttpOrchestrator.Site)
    (url : jsstring) (i : nat) :
  let r := HttpOrchestrator.outcome P (HttpOrchestrator.scrapers P world) url i in
  (exists config service, r = FlareSolverrScraper.scrape P config service url)
  \/ (exists config page, r = PuppeteerScraper.scrape P config page url)
  \/ (exists error, r = HttpOrchestrator.failed url (Helpers.extractDomain P url) error).
Proof.
  cbv zeta.
  unfold HttpOrchestrator.outcome, HttpOrchestrator.dispatch, HttpOrchestrator.scrapers.
  cbn [HttpOrchestrator.flaresolverr_scrapeUrl HttpOrchestrator.puppeteer_scrapeUrl
       HttpOrchestrator.puppeteer_close].
  destruct (Factory.has _ _); cbn [JS.bind].
  - left. eexists. eexists. reflexivity.
  - right. destruct (PuppeteerScraper.close _) as [[]|error]; cbn [JS.bind].
    + left. eexists. eexists. reflexivity.
    + right. now exists error.
Qed.

(** X12. In a batch built by [scrapeUrls] on the scrapers of this
    repository, whatever the outside world and the progress callback do,
    every result belongs to a URL of the input, its site name is the domain
    parsed from its URL, and every item of it carries the URL and the site
    name of its result. *)
Theorem batch_items_belong_to_their_result (P : Platform)
    (world : nat -> HttpOrchestrator.Site) (batchId : jsstring) (timestamp : N)
    (urls : list jsstring) (cb : option (nat -> nat -> result unit)) :
  exists batch deliver calls,
    HttpOrchestrator.scrapeUrls P (HttpOrchestrator.scrapers P world)
      batchId timestamp urls cb = (Ok (batch, deliver), calls)
    /\ Forall
         (fun r =>
            In (ScrapingResult.url r) urls
            /\ ScrapingResult.siteName r = Helpers.extractDomain P (ScrapingResult.url r)
            /\ Forall
                 (fun item =>
                    ScrapedItem.url item = ScrapingResult.url r
                    /\ ScrapedItem.siteName item = ScrapingResult.siteName r)
                 (ScrapingResult.items r))
         (BatchResult.results batch).
Proof.
  rewrite scrapeUrls_unfolds.
  destruct (HttpOrchestrator.createBatchResult urls _ batchId timestamp)
    as [batch deliver] eqn:Hb.
  exists batch, deliver, (map (HttpOrchestrator.call_of P) urls).
  split; [reflexivity|].
  unfold HttpOrchestrator.createBatchResult in Hb. injection Hb as <- _.
  cbn [BatchResult.results]. apply Forall_forall. intros r Hr.
  destruct (in_pushed_from _ _ _ _ _ _ _ Hr) as (url & k & Hin & Hcase).
  assert (Hfailed : forall error,
            r = HttpOrchestrator.failed url (Helpers.extractDomain P url) error ->
            In (ScrapingResult.url r) urls
            /\ ScrapingResult.siteName r = Helpers.extractDomain P (ScrapingResult.url r)
            /\ Forall
                 (fun item =>
                    ScrapedItem.url item = ScrapingResult.url r
                    /\ ScrapedItem.siteName item = ScrapingResult.siteName r)
                 (ScrapingResult.items r)).
  { intros error ->. cbn. repeat split; [exact Hin | constructor]. }
  destruct Hcase as [Hr'|[error Hr']]; [|now apply (Hfailed error)].
  destruct (real_outcome_cases P world url k)
    as [(config & service & E)|[(config & page & E)|(error & E)]];
    rewrite <- Hr' in E; [| |now apply (Hfailed error)].
  - destruct (flaresolverr_scrape_shape P config service url) as (H1 & H2 & _).
    pose proof (flaresolverr_scrape_items P config service url) as H3.
    rewrite <- E in H1, H2, H3. rewrite H1, H2.
    repeat split; [exact Hin|].
    eapply Forall_impl; [|exact H3]. intros item H. split; apply H.
  - destruct (puppeteer_scrape_shape P config page url) as (H1 & H2 & _).
    pose proof (puppeteer_scrape_items P config page url) as H3.
    rewrite <- E in H1, H2, H3. rewrite H1, H2.
    repeat split; [exact Hin|].
    eapply Forall_impl; [|exact H3]. intros item H. split; apply H.
Qed.


Lemma nth_error_indexed {A B} (f : nat * A -> B) (l : list A) :
  forall (k i : nat) (x : A),
    nth_error l i = Some x ->
    nth_error (map f (combine (seq k (length l)) l)) i = Some (f ((k + i)%nat, x)).
Proof.
  induction l as [|y l IH]; intros k i x H; [destruct i; discriminate H|].
  cbn [length seq combine map]. destruct i as [|i].
  - injection H as ->. now rewrite Nat.add_0_r.
  - cbn [nth_error] in *. rewrite (IH (S k) i x H). do 3 f_equal. lia.
Qed.

(** X13. Whatever the scrapers and the progress callback do, [scrapeUrls]
    calls one scraper per URL, in input order, and what the scraper called
    for the URL at position [i] answered is in the batch: its result, or
    the failed result of the [catch] block when it (or the [close] of the
    Puppeteer scraper) throws. With no progress callback, or with one that
    does not throw, the batch has one result per URL and that answer is
    the result at position [i]. The scraper is the FlareSolverr one
    exactly for the domains "oyuneks.com" and "liderepin.com" and the
    Puppeteer one otherwise; it is built on the registered profile of the
    domain, on the member of [Object.prototype] that the property read
    finds for a domain named like one, and on the generic profile for any
    other domain. *)
Theorem one_scraper_call_per_url (P : Platform) (E : HttpOrchestrator.Extractors)
    (batchId : jsstring) (timestamp : N) (urls : list jsstring)
    (cb : option (nat -> nat -> result unit)) :
  let run := HttpOrchestrator.scrapeUrls P E batchId timestamp urls cb in
  let quiet :=
    forall callback n, cb = Some callback -> exists u, callback n (length urls) = Ok u in
  exists batch deliver,
    fst run = Ok (batch, deliver)
    /\ length (snd run) = length urls
    /\ (quiet -> length (BatchResult.results batch) = length urls)
    /\ forall i url,
         nth_error urls i = Some url ->
         let domain := Helpers.extractDomain P url in
         let bypass := domain = str "oyuneks.com" \/ domain = str "liderepin.com" in
         let failed_with error :=
           {| ScrapingResult.success := false;
              ScrapingResult.url := url;
              ScrapingResult.items := [];
              ScrapingResult.error :=
                Some match error with
                     | ErrorObj message => message
                     | OtherThrown => str "Unknown error"
                     end;
              ScrapingResult.responseTime := 0;
              ScrapingResult.siteName := domain |} in
         exists call result,
           nth_error (snd run) i = Some call
           /\ In result (BatchResult.results batch)
           /\ (quiet -> nth_error (BatchResult.results batch) i = Some result)
           /\ HttpOrchestrator.target call = url
           /\ (HttpOrchestrator.extractor call = HttpOrchestrator.FlareSolverr <-> bypass)
           /\ (HttpOrchestrator.extractor call = HttpOrchestrator.Puppeteer <-> ~ bypass)
           /\ match Factory.lookup Factory.SITE_CONFIGS domain with
              | Some profile => HttpOrchestrator.config call = Factory.Profile profile
              | None =>
                  if Factory.has Factory.Object_prototype_names domain
                  then HttpOrchestrator.config call = Factory.Inherited domain
                  else HttpOrchestrator.config call
                       = Factory.Profile (HttpOrchestrator.getGenericConfig domain)
              end
           /\ (bypass ->
               result
               = match HttpOrchestrator.flaresolverr_scrapeUrl E i
                         (HttpOrchestrator.config call) url with
                 | Ok r => r
                 | Throw error => failed_with error
                 end)
           /\ (~ bypass ->
               result
               = match HttpOrchestrator.puppeteer_scrapeUrl E i
                         (HttpOrchestrator.config call) url with
                 | Ok r =>
                     match HttpOrchestrator.puppeteer_close E i with
                     | Ok _ => r
                     | Throw error => failed_with error
                     end
                 | Throw error => failed_with error
                 end).
Proof.
  cbv zeta. rewrite scrapeUrls_unfolds. cbn [fst snd].
  destruct (HttpOrchestrator.createBatchResult urls _ batchId timestamp)
    as [batch deliver] eqn:Hb.
  exists batch, deliver. split; [reflexivity|].
  assert (Hpushed : BatchResult.results batch
                    = HttpOrchestrator.pushed_from P E (length urls) cb urls 0).
  { unfold HttpOrchestrator.createBatchResult in Hb. now injection Hb as <- _. }
  assert (Hres : (forall callback n,
                     cb = Some callback -> exists u, callback n (length urls) = Ok u) ->
                 BatchResult.results batch
                 = map (fun p => HttpOrchestrator.outcome P E (snd p) (fst p))
                     (combine (seq 0 (length urls)) urls)).
  { intros Hq. rewrite Hpushed. now apply pushed_from_quiet. }
  split; [apply length_map|]. split.
  { intros Hq. rewrite (Hres Hq), length_map, length_combine, length_seq.
    apply Nat.min_id. }
  intros i url Hi.
  exists (HttpOrchestrator.call_of P url), (HttpOrchestrator.outcome P E url i).
  pose proof (bypass_domains (Helpers.extractDomain P url)) as Hbp.
  split; [now apply map_nth_error|]. split.
  { rewrite Hpushed.
    exact (outcome_in_pushed_from P E (length urls) cb urls i 0 url Hi). }
  split.
  { intros Hq. rewrite (Hres Hq).
    now rewrite (nth_error_indexed
                   (fun p => HttpOrchestrator.outcome P E (snd p) (fst p)) urls 0 i url Hi). }
  unfold HttpOrchestrator.call_of, HttpOrchestrator.outcome, HttpOrchestrator.dispatch.
  cbn [HttpOrchestrator.target HttpOrchestrator.extractor HttpOrchestrator.config].
  split; [reflexivity|].
  assert (Hconfig :
    match Factory.lookup Factory.SITE_CONFIGS (Helpers.extractDomain P url) with
    | Some profile =>
        HttpOrchestrator.config_for (Helpers.extractDomain P url) = Factory.Profile profile
    | None =>
        if Factory.has Factory.Object_prototype_names (Helpers.extractDomain P url)
        then HttpOrchestrator.config_for (Helpers.extractDomain P url)
             = Factory.Inherited (Helpers.extractDomain P url)
        else HttpOrchestrator.config_for (Helpers.extractDomain P url)
             = Factory.Profile
                 (HttpOrchestrator.getGenericConfig (Helpers.extractDomain P url))
    end).
  { unfold HttpOrchestrator.config_for, Factory.get.
    destruct (Factory.lookup _ _); [reflexivity|].
    now destruct (Factory.has Factory.Object_prototype_names _). }
  destruct (Factory.has Factory.FLARESOLVERR_REQUIRED_DOMAINS
              (Helpers.extractDomain P url)).
  - assert (Hin : Helpers.extractDomain P url = str "oyuneks.com"
                  \/ Helpers.extractDomain P url = str "liderepin.com")
      by (now apply Hbp).
    split; [tauto|]. split; [split; [discriminate | tauto]|].
    split; [exact Hconfig|]. split; [|tauto].
    intros _. now destruct (HttpOrchestrator.flaresolverr_scrapeUrl E i _ url).
  - assert (Hout : ~ (Helpers.extractDomain P url = str "oyuneks.com"
                      \/ Helpers.extractDomain P url = str "liderepin.com")).
    { intros H. apply Hbp in H. discriminate H. }
    split; [split; [discriminate | tauto]|]. split; [tauto|].
    split; [exact Hconfig|]. split; [tauto|].
    intros _.
    destruct (HttpOrchestrator.puppeteer_scrapeUrl E i _ url); cbn [JS.bind]; [|reflexivity].
    now destruct (HttpOrchestrator.puppeteer_close E i).
Qed.

Lemma one_scraper_call_per_url_witness :
  exists batch deliver,
    fst (HttpOrchestrator.scrapeUrls Sample.platform Sample.stubs (str "batch_1_abc") 1
           [Sample.bad_url; Sample.good_url] None) = Ok (batch, deliver)
    /\ length (BatchResult.results batch) = 2%nat
    /\ nth_error (BatchResult.results batch) 1 = Some (Sample.stub_result Sample.good_url)
    /\ exists call,
         nth_error
           (snd (HttpOrchestrator.scrapeUrls Sample.platform Sample.stubs
                   (str "batch_1_abc") 1 [Sample.bad_url; Sample.good_url] None)) 1
         = Some call
         /\ HttpOrchestrator.extractor call = HttpOrchestrator.FlareSolverr.
Proof.
  destruct (one_scraper_call_per_url Sample.platform Sample.stubs (str "batch_1_abc") 1
              [Sample.bad_url; Sample.good_url] None)
    as (batch & deliver & Hrun & _ & Hlen & Hat).
  assert (Hq : forall (callback : nat -> nat -> result unit) (n : nat),
             @None (nat -> nat -> result unit) = Some callback ->
             exists u, callback n (length [Sample.bad_url; Sample.good_url]) = Ok u)
    by discriminate.
  exists batch, deliver. split; [exact Hrun|]. split; [exact (Hlen Hq)|].
  destruct (Hat 1%nat Sample.good_url eq_refl)
    as (call & result & Hcall & _ & Hresult & _ & Hflare & _ & _ & Hanswer & _).
  split.
  - rewrite (Hresult Hq), Hanswer by (left; reflexivity). reflexivity.
  - exists call. split; [exact Hcall|]. apply Hflare. left. reflexivity.
Defined.

(** ** [createBatchResult] *)




(** ** [scrapeFromFile] *)

Lemma split_newline_step (cur : jsstring) (c : char16) (t : jsstring) :
  split_from [10] cur 0 (c :: t)
  = if (10 =? c) then rev cur :: split_from [10] [] 0 t
    else split_from [10] (c :: cur) 0 t.
Proof.
  cbn [split_from startsWith]. rewrite andb_true_r. reflexivity.
Qed.

Lemma split_newline_pieces (s : jsstring) :
  forall cur,
    ~ In 10 cur -> Forall (fun line => ~ In 10 line) (split_from [10] cur 0 s).
Proof.
  induction s as [|c t IH]; intros cur Hcur.
  - cbn [split_from]. constructor; [|constructor]. now rewrite <- in_rev.
  - rewrite split_newline_step. destruct (N.eqb_spec 10 c) as [E|E].
    + constructor; [now rewrite <- in_rev|]. apply IH. intros [].
    + apply IH. intros [H|H]; [congruence | contradiction].
Qed.

Lemma split_newline_line (l : jsstring) :
  ~ In 10 l ->
  forall cur rest,
    split_from [10] cur 0 (l ++ 10 :: rest)
    = (rev cur ++ l) :: split_from [10] [] 0 rest.
Proof.
  induction l as [|c t IH]; intros Hl cur rest.
  - cbn [app]. rewrite split_newline_step. cbn. now rewrite app_nil_r.
  - cbn [app]. rewrite split_newline_step.
    destruct (N.eqb_spec 10 c) as [E|E]; [exfalso; apply Hl; now left|].
    rewrite IH by (intros H; apply Hl; now right).
    cbn [rev]. now rewrite <- app_assoc.
Qed.

Lemma split_newline_last (l : jsstring) :
  ~ In 10 l -> forall cur, split_from [10] cur 0 l = [rev cur ++ l].
Proof.
  induction l as [|c t IH]; intros Hl cur.
  - cbn. now rewrite app_nil_r.
  - rewrite split_newline_step.
    destruct (N.eqb_spec 10 c) as [E|E]; [exfalso; apply Hl; now left|].
    rewrite IH by (intros H; apply Hl; now right).
    cbn [rev]. now rewrite <- app_assoc.
Qed.

Lemma split_join_lines (line : jsstring) (rest : list jsstring) :
  Forall (fun l => ~ In 10 l) (line :: rest) ->
  split (Facts.join_lines (line :: rest)) [10] = line :: rest.
Proof.
  unfold split. revert line. induction rest as [|l2 rest IH]; intros line H.
  - cbn [Facts.join_lines]. inversion H; subst. now rewrite split_newline_last.
  - inversion H as [|? ? Hline Hrest]; subst.
    change (Facts.join_lines (line :: l2 :: rest))
      with (line ++ 10 :: Facts.join_lines (l2 :: rest)).
    rewrite split_newline_line by exact Hline. cbn [rev app]. f_equal. now apply IH.
Qed.

Lemma trim_idempotent (s : jsstring) : trim (trim s) = trim s.
Proof. apply trim_both_clean; [apply trim_starts_clean | apply trim_ends_clean]. Qed.

(** X15. Every URL that [scrapeFromFile] takes from a file starts with
    "http", has no white space at either end and contains no line feed;
    and the reading loses nothing: a list of such lines, joined by line
    feeds, is read back as the same list. *)
Theorem urls_of_content_round_trip :
  (forall content,
     Forall Facts.url_line (HttpOrchestrator.urls_of_content content))
  /\ (forall urls,
        Forall Facts.url_line urls ->
        HttpOrchestrator.urls_of_content (Facts.join_lines urls) = urls)
  /\ (forall content,
        HttpOrchestrator.urls_of_content
          (Facts.join_lines (HttpOrchestrator.urls_of_content content))
        = HttpOrchestrator.urls_of_content content).
Proof.
  assert (H1 : forall content,
             Forall Facts.url_line (HttpOrchestrator.urls_of_content content)).
  { intros content. unfold HttpOrchestrator.urls_of_content.
    apply Forall_forall. intros u Hu. apply filter_In in Hu. destruct Hu as [Hin Hkeep].
    apply andb_true_iff in Hkeep. destruct Hkeep as [_ Hhttp].
    apply in_map_iff in Hin. destruct Hin as (line & <- & Hline).
    split; [exact Hhttp|]. split; [apply trim_idempotent|].
    pose proof (split_newline_pieces content [] (fun H => H)) as Hs.
    rewrite Forall_forall in Hs. specialize (Hs line Hline).
    assert (Ht : Forall (fun c => c <> 10) (trim line)).
    { apply Forall_trim. apply Forall_forall. intros c Hc ->. contradiction. }
    rewrite Forall_forall in Ht. intros Hbad. now apply (Ht 10 Hbad). }
  assert (H2 : forall urls,
             Forall Facts.url_line urls ->
             HttpOrchestrator.urls_of_content (Facts.join_lines urls) = urls).
  { intros urls Hurls. unfold HttpOrchestrator.urls_of_content.
    destruct urls as [|line rest]; [reflexivity|].
    rewrite split_join_lines
      by (eapply Forall_impl; [|exact Hurls]; intros u (_ & _ & Hu); exact Hu).
    assert (Hmap : map trim (line :: rest) = line :: rest).
    { rewrite <- (map_id (line :: rest)) at 2. apply map_ext_in.
      intros u Hu. rewrite Forall_forall in Hurls. now destruct (Hurls u Hu) as (_ & -> & _). }
    rewrite Hmap. apply filter_id. eapply Forall_impl; [|exact Hurls].
    intros u (Hhttp & _ & _). cbv beta. rewrite Hhttp, andb_true_r.
    destruct u as [|c t]; [discriminate Hhttp | reflexivity]. }
  split; [exact H1|]. split; [exact H2|].
  intros content. apply H2, H1.
Qed.

Lemma urls_of_content_round_trip_witness :
  HttpOrchestrator.urls_of_content
    (Facts.join_lines [Sample.turkpin_url; Sample.good_url])
  = [Sample.turkpin_url; Sample.good_url].
Proof.
  destruct urls_of_content_round_trip as (_ & H & _). apply H.
  repeat constructor; try reflexivity;
    (intros Hin; vm_compute in Hin; repeat destruct Hin as [Hin|Hin]; discriminate Hin
                                   || exact Hin).
Defined.

(** X16. [scrapeFromFile] throws exactly when the file cannot be read, with
    the error of the read and before any scraper is called; once the file
    is read it returns the batch of [scrapeUrls] on the URLs of the file,
    one scraper call per URL. *)
Theorem scrapeFromFile_throws_only_on_read_failure (P : Platform)
    (E : HttpOrchestrator.Extractors) (readFile : result jsstring)
    (batchId : jsstring) (timestamp : N) (cb : option (nat -> nat -> result unit)) :
  let run := HttpOrchestrator.scrapeFromFile P E readFile batchId timestamp cb in
  (forall error, fst run = Throw error <-> readFile = Throw error)
  /\ (forall error, readFile = Throw error -> snd run = [])
  /\ (forall content,
        readFile = Ok content ->
        exists batch deliver,
          fst run = Ok (batch, deliver)
          /\ BatchResult.totalUrls batch
             = length (HttpOrchestrator.urls_of_content content)
          /\ map HttpOrchestrator.target (snd run)
             = HttpOrchestrator.urls_of_content content).
Proof.
  cbv zeta. unfold HttpOrchestrator.scrapeFromFile.
  destruct readFile as [content|e].
  - rewrite scrapeUrls_unfolds. cbn [fst snd]. split; [|split].
    + intros error. split; discriminate.
    + discriminate.
    + intros content' H. injection H as <-.
      destruct (HttpOrchestrator.createBatchResult _ _ batchId timestamp)
        as [batch deliver] eqn:Hb.
      exists batch, deliver. split; [reflexivity|].
      unfold HttpOrchestrator.createBatchResult in Hb. injection Hb as <- _.
      split; [reflexivity|].
      rewrite map_map. cbn [HttpOrchestrator.call_of HttpOrchestrator.target].
      apply map_id.
  - cbn [fst snd]. split; [|split].
    + intros error. split; intros H; injection H as ->; reflexivity.
    + reflexivity.
    + discriminate.
Qed.

Lemma scrapeFromFile_throws_only_on_read_failure_witness :
  fst (HttpOrchestrator.scrapeFromFile Sample.platform Sample.stubs
         (Throw (ErrorObj (str "ENOENT: no such file or directory")))
         (str "batch_1_abc") 1 None)
  = Throw (ErrorObj (str "ENOENT: no such file or directory"))
  /\ exists batch deliver,
       fst (HttpOrchestrator.scrapeFromFile Sample.platform Sample.stubs
              (Ok (Facts.join_lines [Sample.bad_url; str "# comment"; Sample.good_url]))
              (str "batch_1_abc") 1 None)
       = Ok (batch, deliver)
       /\ BatchResult.totalUrls batch = 2%nat.
Proof.
  split.
  - apply (scrapeFromFile_throws_only_on_read_failure Sample.platform Sample.stubs
             (Throw (ErrorObj (str "ENOENT: no such file or directory")))).
    reflexivity.
  - destruct (scrapeFromFile_throws_only_on_read_failure Sample.platform Sample.stubs
                (Ok (Facts.join_lines [Sample.bad_url; str "# comment"; Sample.good_url]))
                (str "batch_1_abc") 1 None) as (_ & _ & H).
    destruct (H _ eq_refl) as (batch & deliver & Hrun & Htotal & _).
    exists batch, deliver. split; [exact Hrun|]. rewrite Htotal. vm_compute. reflexivity.
Defined.

(** ** The setters *)

Lemma Qltb_false_le (a b : Q) : Qltb a b = false -> (b <= a)%Q.
Proof.
  unfold Qltb. intros H. apply negb_false_iff in H. now apply Qle_bool_iff.
Qed.

(** X17. [setConcurrency] stores a value between 1 and 8 for every number
    it is given, the infinities included, and leaves a value that is
    already in that range alone; [setBatchDelay] stores at least 500. Only
    [NaN] escapes both: it is stored as it is. Setting the stored
    concurrency again changes nothing. *)
Theorem setters_clamp (x : HttpOrchestrator.number) :
  (x <> HttpOrchestrator.NotANumber ->
   exists q,
     HttpOrchestrator.setConcurrency x = HttpOrchestrator.Finite q
     /\ (1 <= q)%Q /\ (q <= 8)%Q)
  /\ (forall q,
        x = HttpOrchestrator.Finite q -> (1 <= q)%Q -> (q <= 8)%Q ->
        exists q',
          HttpOrchestrator.setConcurrency x = HttpOrchestrator.Finite q' /\ (q' == q)%Q)
  /\ HttpOrchestrator.setConcurrency (HttpOrchestrator.setConcurrency x)
     = HttpOrchestrator.setConcurrency x
  /\ (x <> HttpOrchestrator.NotANumber ->
      HttpOrchestrator.setBatchDelay x = HttpOrchestrator.PosInfinity
      \/ exists q,
           HttpOrchestrator.setBatchDelay x = HttpOrchestrator.Finite q
           /\ (500 <= q)%Q)
  /\ HttpOrchestrator.setConcurrency HttpOrchestrator.NotANumber
     = HttpOrchestrator.NotANumber
  /\ HttpOrchestrator.setBatchDelay HttpOrchestrator.NotANumber
     = HttpOrchestrator.NotANumber.
Proof.
  unfold HttpOrchestrator.setConcurrency, HttpOrchestrator.setBatchDelay.
  split; [|split; [|split; [|split; [|split; reflexivity]]]].
  - intros Hx. destruct x as [| |q|]; [congruence| | |].
    + exists 1%Q. cbn. repeat split; discriminate.
    + cbn [HttpOrchestrator.Math_min]. destruct (Qltb q 8) eqn:E8.
      * cbn [HttpOrchestrator.Math_max]. destruct (Qltb 1 q) eqn:E1.
        -- exists q. split; [reflexivity|]. split.
           ++ apply Qlt_le_weak. now apply Qltb_lt.
           ++ apply Qlt_le_weak. now apply Qltb_lt.
        -- exists 1%Q. repeat split; discriminate.
      * exists 8%Q. cbn. repeat split; discriminate.
    + exists 8%Q. cbn. repeat split; discriminate.
  - intros q -> H1 H8. cbn [HttpOrchestrator.Math_min]. destruct (Qltb q 8) eqn:E8.
    + cbn [HttpOrchestrator.Math_max]. destruct (Qltb 1 q) eqn:E1.
      * exists q. split; [reflexivity | apply Qeq_refl].
      * exists 1%Q. split; [reflexivity|].
        apply Qle_antisym; [exact H1 | now apply Qltb_false_le].
    + exists 8%Q. split; [reflexivity|].
      apply Qle_antisym; [now apply Qltb_false_le | exact H8].
  - destruct x as [| |q|]; try reflexivity.
    cbn [HttpOrchestrator.Math_min]. destruct (Qltb q 8) eqn:E8; [|reflexivity].
    cbn [HttpOrchestrator.Math_max]. destruct (Qltb 1 q) eqn:E1; [|reflexivity].
    cbn [HttpOrchestrator.Math_min]. rewrite E8.
    cbn [HttpOrchestrator.Math_max]. now rewrite E1.
  - intros Hx. destruct x as [| |q|]; [congruence| | |].
    + right. exists 500%Q. split; [reflexivity | apply Qle_refl].
    + right. cbn [HttpOrchestrator.Math_max]. destruct (Qltb 500 q) eqn:E.
      * exists q. split; [reflexivity|]. apply Qlt_le_weak. now apply Qltb_lt.
      * exists 500%Q. split; [reflexivity | apply Qle_refl].
    + now left.
Qed.

Lemma setters_clamp_witness :
  (exists q,
     HttpOrchestrator.setConcurrency (HttpOrchestrator.Finite 64)
     = HttpOrchestrator.Finite q /\ (1 <= q)%Q /\ (q <= 8)%Q)
  /\ (exists q',
        HttpOrchestrator.setConcurrency (HttpOrchestrator.Finite 3)
        = HttpOrchestrator.Finite q' /\ (q' == 3)%Q).
Proof.
  split.
  - apply (setters_clamp (HttpOrchestrator.Finite 64)). discriminate.
  - destruct (setters_clamp (HttpOrchestrator.Finite 3)) as (_ & H & _).
    apply (H 3%Q); [reflexivity | discriminate | discriminate].
Defined.

(* ================================================================== *)
(** * Further properties of utils/n8n-client.ts                       *)
(* ================================================================== *)



(** X19. Every price record in a payload has a price that is a number
    greater than 0, a currency among TRY, USD and EUR, and the time stamp
    of the batch. *)
Theorem payload_records_wellformed (batch : BatchResult.t) :
  Forall
    (fun record =>
       (exists q, ScrapedPrice.price record = Num q /\ (0 < q)%Q)
       /\ Facts.table_currency (ScrapedPrice.currency record)
       /\ ScrapedPrice.batch_timestamp record = BatchResult.timestamp batch)
    (N8NWebhookPayload.items (N8NClient.payload_of batch)).
Proof.
  cbn [N8NClient.payload_of N8NWebhookPayload.items]. rewrite prices_of_filtered.
  apply Forall_forall. intros record H. apply in_map_iff in H.
  destruct H as (item & <- & Hitem). apply filter_In in Hitem. destruct Hitem as [_ Hpos].
  unfold N8NClient.to_price.
  cbn [ScrapedPrice.price ScrapedPrice.currency ScrapedPrice.batch_timestamp].
  split; [|split; [|reflexivity]].
  - unfold N8NClient.positive in Hpos.
    destruct (Helpers.price (N8NClient.parsePrice (ScrapedItem.price item))) as [|q];
      [discriminate Hpos|].
    exists q. split; [reflexivity|]. now apply Qltb_lt.
  - rewrite n8n_parsePrice_same. apply parsePrice_currency.
Qed.

(* ================================================================== *)
(** * Further properties of scrapers/hybrid-scraper-factory.ts        *)
(* ================================================================== *)

Lemma lookup_In (table : list (jsstring * SiteConfig.t)) (key : jsstring)
    (config : SiteConfig.t) :
  Factory.lookup table key = Some config -> In (key, config) table.
Proof.
  induction table as [|[k v] table IH]; cbn [Factory.lookup]; [discriminate|].
  destruct (JS.eqb k key) eqn:E.
  - intros H. injection H as ->. apply eqb_eq in E. subst k. now left.
  - intros H. right. now apply IH.
Qed.

(** X20. The registry is coherent: a profile registered under a domain
    names that domain, and so does the generic profile built for a domain
    without one; a domain has a registered profile exactly when it is in
    one of the two dispatch sets; and no key of the table occurs twice. *)
Theorem registry_coherent (domain : jsstring) :
  (forall config,
     Factory.lookup Factory.SITE_CONFIGS domain = Some config ->
     SiteConfig.domain config = domain)
  /\ SiteConfig.domain (HttpOrchestrator.getGenericConfig domain) = domain
  /\ (Factory.lookup Factory.SITE_CONFIGS domain <> None
      <-> Factory.has Factory.FLARESOLVERR_REQUIRED_DOMAINS domain = true
          \/ Factory.has Factory.PUPPETEER_REQUIRED_DOMAINS domain = true)
  /\ NoDup (map fst Factory.SITE_CONFIGS).
Proof.
  assert (Hkeys : forallb
            (fun p => JS.eqb (SiteConfig.domain (snd p)) (fst p)
                      && (Factory.has Factory.FLARESOLVERR_REQUIRED_DOMAINS (fst p)
                          || Factory.has Factory.PUPPETEER_REQUIRED_DOMAINS (fst p)))
            Factory.SITE_CONFIGS = true) by (vm_compute; reflexivity).
  rewrite forallb_forall in Hkeys.
  assert (Hsets : forallb
            (fun d => match Factory.lookup Factory.SITE_CONFIGS d with
                      | Some _ => true
                      | None => false
                      end)
            (Factory.FLARESOLVERR_REQUIRED_DOMAINS ++ Factory.PUPPETEER_REQUIRED_DOMAINS)
          = true) by (vm_compute; reflexivity).
  rewrite forallb_forall in Hsets.
  split; [|split; [reflexivity|split]].
  - intros config E.
    apply lookup_In in E. specialize (Hkeys _ E). cbn [fst snd] in Hkeys.
    apply andb_true_iff in Hkeys. destruct Hkeys as [Hk _]. now apply eqb_eq.
  - split.
    + intros H. destruct (Factory.lookup Factory.SITE_CONFIGS domain) as [config|] eqn:E;
        [|congruence].
      apply lookup_In in E. specialize (Hkeys _ E). cbn [fst snd] in Hkeys.
      apply andb_true_iff in Hkeys. destruct Hkeys as [_ Hk].
      now apply orb_true_iff in Hk.
    + intros H.
      assert (Hin : In domain (Factory.FLARESOLVERR_REQUIRED_DOMAINS
                               ++ Factory.PUPPETEER_REQUIRED_DOMAINS)).
      { apply in_or_app. destruct H as [H|H]; apply has_In in H; tauto. }
      specialize (Hsets _ Hin).
      destruct (Factory.lookup Factory.SITE_CONFIGS domain); [discriminate | discriminate Hsets].
  - vm_compute. repeat constructor;
      (intros H; repeat destruct H as [H|H]; discriminate H || exact H).
Qed.

Lemma registry_coherent_witness :
  SiteConfig.domain (Sample.registered (str "turkpin.com")) = str "turkpin.com".
Proof.
  destruct (registry_coherent (str "turkpin.com")) as [H _].
  apply H. reflexivity.
Defined.

(* ================================================================== *)
(** * The server: POST /scrape/sync                                   *)
(* ================================================================== *)





(* ================================================================== *)
(** * [parsePrice] on a price with the lira sign in front             *)
(* ================================================================== *)

Lemma no_lira_tail (c : char16) (s : jsstring) : Facts.no_lira (c :: s) -> Facts.no_lira s.
Proof. intros H. now inversion H. Qed.

Lemma no_lira_digits (d : jsstring) :
  Forall (fun c => is_digit c = true) d -> Facts.no_lira d.
Proof.
  intros H. eapply Forall_impl; [|exact H]. intros c Hc.
  unfold is_digit, in_range in Hc. apply andb_true_iff in Hc. destruct Hc as [_ Hc].
  apply N.leb_le in Hc. apply N.eqb_neq. unfold c_lira. lia.
Qed.

Lemma lira_after_number_absent (s : jsstring) :
  Facts.no_lira s ->
  rmatch (Cat re_number (Cat re_ws (lit c_lira))) s None (fun s0 g0 => Some (s0, g0))
  = None.
Proof.
  intros H.
  change (rmatch (Cat re_number (Cat re_ws (lit c_lira))) s None
            (fun s0 g0 => Some (s0, g0)))
    with (rmatch (Cat re_number re_ws) s None
            (fun s1 g1 => rmatch (lit c_lira) s1 g1 (fun s0 g0 => Some (s0, g0)))).
  apply (rmatch_closed Facts.no_lira no_lira_tail); [exact H|].
  intros s' g' Hs'. destruct Hs' as [|c t Hc _]; [reflexivity|].
  unfold lit. cbn [rmatch]. now rewrite Hc.
Qed.

(** X22. For all non-empty strings of digits [d1] and [d2] and a
    separator that is a period or a comma, [parsePrice] reads the text
    "₺d1,d2" as the number [d1.d2] in TRY: the separator always counts as
    the decimal point, so that a thousands separator, as in "₺1.250",
    gives 1.25. *)
Theorem parsePrice_lira_in_front (sep : char16) (d1 d2 : jsstring) :
  is_sep sep = true ->
  Forall (fun c => is_digit c = true) d1 -> d1 <> [] ->
  Forall (fun c => is_digit c = true) d2 -> d2 <> [] ->
  Helpers.parsePrice (c_lira :: d1 ++ sep :: d2)
  = {| Helpers.price := Num (decimal d1 d2); Helpers.currency := Helpers.TRY |}.
Proof.
  intros Hsep H1 N1 H2 N2.
  assert (Hss : is_space sep = false /\ (c_lira =? sep) = false).
  { unfold is_sep in Hsep. apply orb_true_iff in Hsep.
    destruct Hsep as [E|E]; apply N.eqb_eq in E; subst; split; reflexivity. }
  destruct Hss as [Hss Hsl].
  assert (Hns : Forall (fun c => is_space c = false) (c_lira :: d1 ++ sep :: d2)).
  { constructor; [reflexivity|]. apply Forall_app. split.
    - eapply Forall_impl; [|exact H1]. apply digit_not_space.
    - constructor; [exact Hss|]. eapply Forall_impl; [|exact H2]. apply digit_not_space. }
  unfold Helpers.parsePrice. cbn [is_empty]. unfold replace_ws_runs.
  rewrite (collapse_id _ Hns), (trim_id _ Hns).
  assert (Hnl : Facts.no_lira (d1 ++ sep :: d2)).
  { apply Forall_app. split; [now apply no_lira_digits|].
    constructor; [exact Hsl | now apply no_lira_digits]. }
  assert (Hfirst : exec (Cat re_number (Cat re_ws (lit c_lira)))
                     (c_lira :: d1 ++ sep :: d2) = None).
  { unfold exec. cbn [exec_from].
    change (rmatch (Cat re_number (Cat re_ws (lit c_lira)))
              (c_lira :: d1 ++ sep :: d2) None (fun s' g => Some (s', g)))
      with (@None (jsstring * option jsstring)).
    apply (exec_from_closed Facts.no_lira no_lira_tail); [|exact Hnl].
    apply lira_after_number_absent. }
  assert (Hsecond : exec (Cat (lit c_lira) (Cat re_ws re_number))
                      (c_lira :: d1 ++ sep :: d2)
                    = Some {| m_index := 0;
                              m_all := c_lira :: d1 ++ sep :: d2;
                              m_group := Some (d1 ++ sep :: d2) |}).
  { unfold exec. cbn [exec_from].
    change (rmatch (Cat (lit c_lira) (Cat re_ws re_number))
              (c_lira :: d1 ++ sep :: d2) None (fun s' g => Some (s', g)))
      with (rmatch re_ws (d1 ++ sep :: d2) None
              (fun s1 g1 => rmatch re_number s1 g1 (fun s' g => Some (s', g)))).
    unfold re_ws. rewrite star_class_stops.
    - assert (Hn : rmatch re_number (d1 ++ sep :: d2) None
                     (fun s' g => Some (s', g))
                   = Some ([], Some (d1 ++ sep :: d2))).
      { replace (d1 ++ sep :: d2) with (d1 ++ sep :: d2 ++ []) at 1
          by (now rewrite app_nil_r).
        now apply number_reads_decimal. }
      rewrite Hn. change (length (@nil char16)) with 0%nat.
      now rewrite Nat.sub_0_r, firstn_all.
    - destruct d1 as [|a d1]; [congruence|]. inversion H1; subst.
      cbn [app]. now apply digit_not_space. }
  unfold Helpers.patterns. cbn [Helpers.first_match].
  rewrite Hfirst. cbn [Helpers.truthy_group].
  rewrite Hsecond. cbn [Helpers.truthy_group m_group].
  destruct d1 as [|a d1]; [congruence|]. cbn [app].
  change (a :: d1 ++ sep :: d2) with ((a :: d1) ++ sep :: d2).
  rewrite (replace_sep_after_digits sep (a :: d1) d2 Hsep H1 H2).
  now rewrite (parseFloat_decimal (a :: d1) d2 H1 H2).
Qed.

Lemma parsePrice_lira_in_front_witness :
  Helpers.parsePrice (c_lira :: str "1.250")
  = {| Helpers.price := Num (5 # 4)%Q; Helpers.currency := Helpers.TRY |}.
Proof.
  apply (parsePrice_lira_in_front c_dot (str "1") (str "250"));
    try reflexivity; try discriminate; repeat constructor.
Defined.
